(** * Door detector: a shallow embedding of [app.py]

    The development follows the source file top to bottom:

    - Python and numpy values the code computes with: binary64 floats (the
      threshold and the change percentage), slices, two-dimensional arrays;
    - the OpenCV calls of [SimpleDoorDetector], split into the pixel kernels the
      code treats as opaque (an interface, [Extern]) and the documented checks
      and per-pixel operations that decide control flow ([absdiff],
      [threshold], the empty-input assertion of [cvtColor]);
    - the class [SimpleDoorDetector] as a record with state-passing methods;
    - the live session: the three globals, the camera handle, the Flask routes
      and the frame generator.

    Exceptions are results of type [result]; a method of the class takes the
    object and returns the object after the call next to the Python return
    value.  The routes run one at a time (they hold [live_lock]); the upload
    and playback routes work on globals of their own and are left out. *)

From Stdlib Require Import String Ascii.
From Stdlib Require Import ZArith Lia Bool List DecimalString.
From Stdlib Require Import SpecFloat.
Import ListNotations.
Open Scope Z_scope.

(** ** Python floats: IEEE 754 binary64, round to nearest even *)

Module Float64.

Definition prec : Z := 53.
Definition emax : Z := 1024.

Definition float : Type := spec_float.

(** [float(z)] for an integer [z]: the nearest binary64. *)
Definition of_int (z : Z) : float := binary_normalize prec emax z 0 false.

Definition div : float -> float -> float := SFdiv prec emax.
Definition mul : float -> float -> float := SFmul prec emax.
Definition add : float -> float -> float := SFadd prec emax.
Definition sub : float -> float -> float := SFsub prec emax.

(** Python's [a < b], [a <= b], [a > b], [a == b] on floats. *)
Definition lt (a b : float) : bool := SFltb a b.
Definition le (a b : float) : bool := SFleb a b.
Definition gt (a b : float) : bool := SFltb b a.
Definition eqb (a b : float) : bool := SFeqb a b.

Definition is_nan (x : float) : bool :=
  match x with S754_nan => true | _ => false end.

Definition is_finite_nonzero (x : float) : bool :=
  match x with S754_finite _ _ _ => true | _ => false end.

(** The binary64 nearest to [k / 2]; exact for the small [k] used here. *)
Definition half (k : Z) : float := binary_normalize prec emax k (-1) false.

(** A decimal literal [num / den] as the Python parser reads it. *)
Definition lit (num den : Z) : float := div (of_int num) (of_int den).

(** The rounding shift of [SpecFloat.shr_fexp], read off its definition. *)
Definition rnd_shift (m e : Z) : Z :=
  Z.max 0 (fexp prec emax (Zdigits2 m + e) - e).

End Float64.

Definition float : Type := Float64.float.

(** Python's [max(a, b)] and [min(a, b)] on two floats: the first argument
    is kept unless the second compares strictly greater (smaller). *)
Definition py_max (a b : float) : float := if Float64.gt b a then b else a.
Definition py_min (a b : float) : float := if Float64.lt b a then b else a.

(** ** Python slices *)

(** [PySlice_AdjustIndices] for step 1: a negative index counts from the end,
    and the result is clipped to [0, n]. *)
Definition slice_index (n i : Z) : Z :=
  if i <? 0 then Z.max 0 (i + n) else Z.min i n.

(** [l[start:stop]]. *)
Definition py_slice {A : Type} (l : list A) (start stop : Z) : list A :=
  let n := Z.of_nat (length l) in
  let s := slice_index n start in
  let e := slice_index n stop in
  firstn (Z.to_nat (e - s)) (skipn (Z.to_nat s) l).

(** ** numpy arrays: rows of pixels *)

Definition ndarray (A : Type) : Type := list (list A).

(** A colour pixel in OpenCV's channel order, and a grey level. *)
Definition bgr : Type := (Z * Z * Z)%type.
Definition gray : Type := Z.

(** [a.size]: the number of elements. *)
Definition size {A : Type} (a : ndarray A) : nat := length (concat a).

(** The extent of every row.  A numpy array is rectangular, so for it this
    list repeats the width once per row, and two non-empty arrays have the
    same [shape] exactly when they have the same [dims]. *)
Definition dims {A : Type} (a : ndarray A) : list nat := map (@length A) a.

(** [a.shape[:2]]: height and width. *)
Definition shape {A : Type} (a : ndarray A) : nat * nat :=
  (length a, match a with [] => O | r :: _ => length r end).

Definition rectangular {A : Type} (a : ndarray A) : Prop :=
  forall r, In r a -> length r = snd (shape a).

Definition dims_eqb (d1 d2 : list nat) : bool :=
  if list_eq_dec Nat.eq_dec d1 d2 then true else false.

(** [a[y0:y1, x0:x1]]. *)
Definition crop {A : Type} (a : ndarray A) (y0 y1 x0 x1 : Z) : ndarray A :=
  map (fun row => py_slice row x0 x1) (py_slice a y0 y1).

(** [np.sum(a > 0)]. *)
Definition count_positive (a : ndarray gray) : nat :=
  length (filter (fun v => 0 <? v) (concat a)).

(** An array that is zero everywhere. *)
Definition all_zero (a : ndarray gray) : Prop :=
  Forall (Forall (fun v => v = 0)) a.

(** ** Exceptions *)

Inductive exn : Type :=
| cv2_error (msg : string).

Inductive result (A : Type) : Type :=
| Ok (a : A)
| Raise (e : exn).
Arguments Ok {A} a.
Arguments Raise {A} e.

Definition bind {A B : Type} (r : result A) (k : A -> result B) : result B :=
  match r with
  | Ok a => k a
  | Raise e => Raise e
  end.

Notation "x <- r ;; k" := (bind r (fun x => k))
  (at level 61, r at next level, right associativity).
Notation "' p <- r ;; k" := (bind r (fun p => k))
  (at level 61, p strict pattern, r at next level, right associativity).

(** ** OpenCV *)

(** The pixel kernels, the drawing calls, the JPEG encoder and Python's
    [f"{x:.1f}"] are external to the program: the code only passes their
    results on.  They are an interface; [ExternLaws] states what OpenCV
    documents of the two kernels that matter for control flow (the output has
    the size of the input). *)
Class Extern : Type := {
  (** the grey levels [cv2.cvtColor(_, cv2.COLOR_BGR2GRAY)] computes *)
  cvtColor_BGR2GRAY : ndarray bgr -> ndarray gray;
  (** [cv2.GaussianBlur(_, (15, 15), 0)] *)
  GaussianBlur_15x15 : ndarray gray -> ndarray gray;
  (** [cv2.applyColorMap(_, cv2.COLORMAP_JET)] *)
  applyColorMap_JET : ndarray gray -> ndarray bgr;
  (** [cv2.putText(img, text, org, FONT_HERSHEY_SIMPLEX, scale, color, thickness)] *)
  putText : ndarray bgr -> string -> Z * Z -> float -> bgr -> Z -> ndarray bgr;
  (** [cv2.rectangle(img, pt1, pt2, color, thickness)] *)
  rectangle : ndarray bgr -> Z * Z -> Z * Z -> bgr -> Z -> ndarray bgr;
  (** the buffer of [cv2.imencode('.jpg', _)], as bytes *)
  imencode_jpg : ndarray bgr -> string;
  (** [base64.b64encode(_).decode('utf-8')] *)
  b64encode : string -> string;
  (** [f"{x:.1f}"] *)
  format_1f : float -> string
}.

Class ExternLaws (ext : Extern) : Prop := {
  cvtColor_dims : forall img, dims (cvtColor_BGR2GRAY img) = dims img;
  GaussianBlur_dims : forall img, dims (GaussianBlur_15x15 img) = dims img
}.

(** [cv2.cvtColor(src, cv2.COLOR_BGR2GRAY)].  The grey levels are the
    interface's; the one check OpenCV makes on its input that the program can
    trip is here: it asserts [!_src.empty()] and raises [cv2.error] on an
    array with no element, which is what a door area outside the frame, or of
    zero width or height, is. *)
Definition cvtColor {ext : Extern} (src : ndarray bgr) : result (ndarray gray) :=
  if Nat.eqb (size src) 0
  then Raise (cv2_error "(-215:Assertion failed) !_src.empty() in function 'cvtColor'")
  else Ok (cvtColor_BGR2GRAY src).

(** A Python [int] that the binding converts to a C [int]. *)
Definition fits_int (v : Z) : bool := (- 2 ^ 31 <=? v) && (v <? 2 ^ 31).

Definition point_fits (p : Z * Z) : bool := fits_int (fst p) && fits_int (snd p).

(** [cv2.rectangle(img, pt1, pt2, color, thickness)] at points the program
    computes: the binding raises [cv2.error] when a coordinate does not fit
    a C [int], and nothing is drawn. *)
Definition cv2_rectangle {ext : Extern} (img : ndarray bgr) (pt1 pt2 : Z * Z) (color : bgr)
    (thickness : Z) : result (ndarray bgr) :=
  if point_fits pt1 && point_fits pt2
  then Ok (rectangle img pt1 pt2 color thickness)
  else Raise (cv2_error "(-5:Bad argument) in function 'rectangle'").

(** [cv2.putText] at a point the program computes, likewise. *)
Definition cv2_putText {ext : Extern} (img : ndarray bgr) (text : string) (org : Z * Z)
    (scale : float) (color : bgr) (thickness : Z) : result (ndarray bgr) :=
  if point_fits org
  then Ok (putText img text org scale color thickness)
  else Raise (cv2_error "(-5:Bad argument) in function 'putText'").

(** [cv2.GaussianBlur(src, (15, 15), 0)] on a non-empty grey image. *)
Definition GaussianBlur {ext : Extern} (src : ndarray gray) : result (ndarray gray) :=
  Ok (GaussianBlur_15x15 src).

(** [saturate_cast<uchar>]. *)
Definition saturate_u8 (v : Z) : Z := Z.max 0 (Z.min 255 v).

Definition zip_with {A B C : Type} (f : A -> B -> C) (l1 : list A) (l2 : list B) : list C :=
  map (fun p => f (fst p) (snd p)) (combine l1 l2).

(** Modelled from the spec: [cv2.absdiff] is a call into OpenCV, whose code is
    not part of the repository; the spec's ChangeScorer "fails with
    ShapeMismatch if the two images differ in dimensions", which is OpenCV's
    size check on two arrays.  On arrays of one size the result is
    [saturate(|src1 - src2|)] per pixel. *)
Definition absdiff (src1 src2 : ndarray gray) : result (ndarray gray) :=
  if dims_eqb (dims src1) (dims src2)
  then Ok (zip_with (zip_with (fun a b => saturate_u8 (Z.abs (a - b)))) src1 src2)
  else Raise (cv2_error "(-209:Sizes of input arguments do not match) in function 'arithm_op'").

(** [cv2.threshold(src, thresh, maxval, cv2.THRESH_BINARY)[1]]. *)
Definition threshold (src : ndarray gray) (thresh maxval : Z) : ndarray gray :=
  map (map (fun v => if thresh <? v then maxval else 0)) src.

(** ** class SimpleDoorDetector *)

Record HistoryEntry : Type := {
  timestamp : string;
  status : string
}.

Record SimpleDoorDetector : Type := {
  door_roi : option (Z * Z * Z * Z);
  reference_closed : option (ndarray gray);
  door_status : string;
  history : list HistoryEntry;
  threshold_percentage : float
}.

Definition OPEN : string := "OPEN".
Definition CLOSED : string := "CLOSED".
Definition NOT_CALIBRATED : string := "Not Calibrated".
Definition UNKNOWN : string := "Unknown".

(** [__init__] *)
Definition SimpleDoorDetector_init : SimpleDoorDetector := {|
  door_roi := None;
  reference_closed := None;
  door_status := UNKNOWN;
  history := [];
  threshold_percentage := Float64.of_int 5
|}.

Definition with_door_roi (self : SimpleDoorDetector) (v : option (Z * Z * Z * Z)) :=
  {| door_roi := v;
     reference_closed := reference_closed self;
     door_status := door_status self;
     history := history self;
     threshold_percentage := threshold_percentage self |}.

Definition with_reference_closed (self : SimpleDoorDetector) (v : option (ndarray gray)) :=
  {| door_roi := door_roi self;
     reference_closed := v;
     door_status := door_status self;
     history := history self;
     threshold_percentage := threshold_percentage self |}.

Definition with_history (self : SimpleDoorDetector) (v : list HistoryEntry) :=
  {| door_roi := door_roi self;
     reference_closed := reference_closed self;
     door_status := door_status self;
     history := v;
     threshold_percentage := threshold_percentage self |}.

Definition with_threshold_percentage (self : SimpleDoorDetector) (v : float) :=
  {| door_roi := door_roi self;
     reference_closed := reference_closed self;
     door_status := door_status self;
     history := history self;
     threshold_percentage := v |}.

Definition set_door_frame (self : SimpleDoorDetector) (roi : Z * Z * Z * Z)
  : SimpleDoorDetector :=
  with_door_roi self (Some roi).

(** The crop, grey conversion and blur that [calibrate_closed] and
    [detect_door_status] both start with. *)
Definition door_area (frame : ndarray bgr) (roi : Z * Z * Z * Z) : ndarray bgr :=
  let '(x, y, w, h) := roi in crop frame y (y + h) x (x + w).

Definition smooth {ext : Extern} (area : ndarray bgr) : result (ndarray gray) :=
  g <- cvtColor area ;;
  GaussianBlur g.

Definition calibrate_closed {ext : Extern} (self : SimpleDoorDetector) (frame : ndarray bgr)
  : result (SimpleDoorDetector * bool) :=
  match door_roi self with
  | None => Ok (self, false)
  | Some roi =>
      reference <- smooth (door_area frame roi) ;;
      Ok (with_reference_closed self (Some reference), true)
  end.

(** [(changed_pixels / total_pixels) * 100] on numpy's int64 counts. *)
Definition change_percentage (changed_pixels total_pixels : nat) : float :=
  Float64.mul
    (Float64.div (Float64.of_int (Z.of_nat changed_pixels))
                 (Float64.of_int (Z.of_nat total_pixels)))
    (Float64.of_int 100).

(** Lines 57 to 61: difference, mask and percentage of two smoothed images. *)
Definition score (reference current_gray : ndarray gray)
  : result (ndarray gray * ndarray gray * float) :=
  diff <- absdiff reference current_gray ;;
  let thresh := threshold diff 30 255 in
  let changed_pixels := count_positive thresh in
  let total_pixels := size thresh in
  Ok (diff, thresh, change_percentage changed_pixels total_pixels).

Definition classify (change_pct threshold_pct : float) : string :=
  if Float64.gt change_pct threshold_pct then OPEN else CLOSED.

Definition processed : Type := (ndarray bgr * ndarray bgr * ndarray gray)%type.

(** The third component of the uncalibrated return value is Python's integer
    [0]; it is only ever formatted, and is the float zero here. *)
Definition detect_door_status {ext : Extern} (self : SimpleDoorDetector) (frame : ndarray bgr)
  : result (SimpleDoorDetector * (string * option processed * float)) :=
  match door_roi self, reference_closed self with
  | Some roi, Some reference =>
      let current_door := door_area frame roi in
      current_gray <- smooth current_door ;;
      '(diff, thresh, change_pct) <- score reference current_gray ;;
      let status := classify change_pct (threshold_percentage self) in
      let vis := current_door in
      let diff_colored := applyColorMap_JET diff in
      let color := if String.eqb status OPEN then (0, 0, 255) else (0, 255, 0) in
      let vis := putText vis ("Change: " ++ format_1f change_pct ++ "%")%string (10, 30)
                         (Float64.lit 7 10) color 2 in
      let vis := putText vis status (10, 60) (Float64.lit 9 10) color 2 in
      Ok (self, (status, Some (vis, diff_colored, thresh), change_pct))
  | _, _ => Ok (self, (NOT_CALIBRATED, None, Float64.of_int 0))
  end.

(** [now] is the string [datetime.now().strftime(...)] returns at the call. *)
Definition log_status (now : string) (self : SimpleDoorDetector) (st : string)
  : SimpleDoorDetector :=
  let h := history self in
  if Nat.eqb (length h) 0
     || negb (String.eqb (status (last h {| timestamp := ""; status := "" |})) st)
  then with_history self (h ++ [{| timestamp := now; status := st |}])
  else self.

(** ** The camera *)

(** What [cv2.VideoCapture(0)] finds: whether the device opens, and the frames
    it will deliver. *)
Record Device : Type := {
  dev_available : bool;
  dev_frames : list (ndarray bgr)
}.

Record VideoCapture : Type := {
  cap_opened : bool;
  cap_props : list (Z * Z);
  cap_frames : list (ndarray bgr)
}.

Definition CAP_PROP_FRAME_WIDTH : Z := 3.
Definition CAP_PROP_FRAME_HEIGHT : Z := 4.

Definition VideoCapture_init (dev : Device) : VideoCapture := {|
  cap_opened := dev_available dev;
  cap_props := [];
  cap_frames := dev_frames dev
|}.

Definition isOpened (cap : VideoCapture) : bool := cap_opened cap.

Definition cap_set (cap : VideoCapture) (prop value : Z) : VideoCapture := {|
  cap_opened := cap_opened cap;
  cap_props := (prop, value) :: cap_props cap;
  cap_frames := cap_frames cap
|}.

(** [ret, frame = cap.read()] and the handle after the read. *)
Definition cap_read (cap : VideoCapture) : option (ndarray bgr) * VideoCapture :=
  if cap_opened cap then
    match cap_frames cap with
    | f :: rest =>
        (Some f, {| cap_opened := true; cap_props := cap_props cap; cap_frames := rest |})
    | [] => (None, cap)
    end
  else (None, cap).

Definition release (cap : VideoCapture) : VideoCapture := {|
  cap_opened := false;
  cap_props := cap_props cap;
  cap_frames := cap_frames cap
|}.

(** ** The live session: the globals [live_detector], [live_camera], [live_active] *)

Record Session : Type := {
  live_detector : option SimpleDoorDetector;
  live_camera : option VideoCapture;
  live_active : bool
}.

Definition initial_session : Session := {|
  live_detector := None;
  live_camera := None;
  live_active := false
|}.

(** The bodies [jsonify] is called with. *)
Inductive Response : Type :=
| R_success (success : bool)
| R_message (success : bool) (message : string)
| R_history (success : bool) (h : list HistoryEntry)
| R_value (success : bool) (value : float)
| R_frame (success : bool) (frame : string).

Definition success_of (r : Response) : bool :=
  match r with
  | R_success b | R_message b _ | R_history b _ | R_value b _ | R_frame b _ => b
  end.

(** A route returns a response or lets an exception escape to Flask. *)
Inductive outcome : Type :=
| Json (r : Response)
| InternalServerError (e : exn).

Definition start_live (dev : Device) (s : Session) : Session * Response :=
  if live_active s then (s, R_message false "Already running")
  else
    let cam := VideoCapture_init dev in
    if negb (isOpened cam) then
      ({| live_detector := live_detector s; live_camera := Some cam; live_active := false |},
       R_message false "Camera not available")
    else
      let cam := cap_set cam CAP_PROP_FRAME_WIDTH 640 in
      let cam := cap_set cam CAP_PROP_FRAME_HEIGHT 480 in
      ({| live_detector := Some SimpleDoorDetector_init;
          live_camera := Some cam;
          live_active := true |},
       R_message true "Live detection started").

(** A released handle is dropped: [live_camera] is [None] after the call
    whether or not there was a handle to release. *)
Definition stop_live (s : Session) : Session * Response :=
  let camera : option VideoCapture :=
    match live_camera s with
    | Some cam => let _ := release cam in None
    | None => None
    end in
  let h := match live_detector s with
           | Some d => history d
           | None => []
           end in
  ({| live_detector := None; live_camera := camera; live_active := false |},
   R_history true h).

Definition set_roi (x y width height : Z) (s : Session) : Session * Response :=
  match live_detector s with
  | Some d =>
      ({| live_detector := Some (set_door_frame d (x, y, width, height));
          live_camera := live_camera s;
          live_active := live_active s |},
       R_success true)
  | None => (s, R_message false "Detector not initialized")
  end.

Definition calibrate {ext : Extern} (s : Session) : Session * outcome :=
  match live_detector s, live_camera s with
  | Some d, Some cam =>
      let '(frame, cam) := cap_read cam in
      let s1 := {| live_detector := Some d;
                   live_camera := Some cam;
                   live_active := live_active s |} in
      match frame with
      | Some frame =>
          match calibrate_closed d frame with
          | Ok (d, success) =>
              ({| live_detector := Some d;
                  live_camera := Some cam;
                  live_active := live_active s |},
               Json (R_success success))
          | Raise e => (s1, InternalServerError e)
          end
      | None => (s1, Json (R_message false "Not ready"))
      end
  | _, _ => (s, Json (R_message false "Not ready"))
  end.

Definition get_frame {ext : Extern} (s : Session) : Session * Response :=
  match live_camera s with
  | Some cam =>
      let '(frame, cam) := cap_read cam in
      let s1 := {| live_detector := live_detector s;
                   live_camera := Some cam;
                   live_active := live_active s |} in
      match frame with
      | Some frame => (s1, R_frame true (b64encode (imencode_jpg frame)))
      | None => (s1, R_success false)
      end
  | None => (s, R_success false)
  end.

(** [action] is [data.get('action')]. *)
Definition adjust_sensitivity (action : option string) (s : Session) : Session * Response :=
  match live_detector s with
  | Some d =>
      let t := threshold_percentage d in
      let t :=
        match action with
        | Some a =>
            if String.eqb a "increase" then
              py_max (Float64.of_int 1) (Float64.sub t (Float64.half 1))
            else if String.eqb a "decrease" then
              py_min (Float64.of_int 15) (Float64.add t (Float64.half 1))
            else t
        | None => t
        end in
      ({| live_detector := Some (with_threshold_percentage d t);
          live_camera := live_camera s;
          live_active := live_active s |},
       R_value true t)
  | None => (s, R_success false)
  end.

(** ** generate_live_frames *)

Definition crlf : string :=
  String (Ascii.ascii_of_nat 13) (String (Ascii.ascii_of_nat 10) EmptyString).

(** What one resumption of the generator ends with. *)
Inductive step_result : Type :=
| Yield (chunk : string)
| StopIteration
| Raised (e : exn).

Definition with_live_camera (s : Session) (cam : VideoCapture) : Session :=
  {| live_detector := live_detector s;
     live_camera := Some cam;
     live_active := live_active s |}.

(** Lines 101 to 105: the door frame and its caption, drawn on the copy of
    the frame when the detector has an ROI. *)
Definition draw_door_frame {ext : Extern} (d : SimpleDoorDetector)
    (display_frame : ndarray bgr) : result (ndarray bgr) :=
  match door_roi d with
  | Some (x, y, w, h) =>
      f <- cv2_rectangle display_frame (x, y) (x + w, y + h) (0, 255, 255) 2 ;;
      cv2_putText f "DOOR FRAME" (x, y - 10) (Float64.lit 6 10) (0, 255, 255) 2
  | None => Ok display_frame
  end.

(** One pass through the body of the [while live_active] loop, up to the
    [yield]; [now] is the wall-clock string [log_status] would read.  The
    drawing calls at constant points are the interface's. *)
Definition live_iteration {ext : Extern} (now : string) (s : Session) : Session * step_result :=
  if negb (live_active s) then (s, StopIteration)
  else
    match live_camera s, live_detector s with
    | Some cam, Some d =>
        let '(frame, cam) := cap_read cam in
        let s := with_live_camera s cam in
        match frame with
        | None => (s, StopIteration)
        | Some frame =>
            let display_frame := frame in
            match draw_door_frame d display_frame with
            | Raise e => (s, Raised e)
            | Ok display_frame =>
                match detect_door_status d frame with
                | Raise e => (s, Raised e)
                | Ok (d, (st, _, change_pct)) =>
                    let d := if String.eqb st OPEN || String.eqb st CLOSED
                             then log_status now d st else d in
                    let status_color :=
                      if String.eqb st CLOSED then (0, 255, 0) else (0, 0, 255) in
                    let display_frame :=
                      rectangle display_frame (5, 5) (300, 60) (0, 0, 0) (-1) in
                    let display_frame :=
                      putText display_frame ("Door: " ++ st)%string (10, 40)
                              (Float64.lit 12 10) status_color 3 in
                    let display_frame :=
                      putText display_frame
                              ("Sensitivity: " ++ format_1f (threshold_percentage d) ++ "%")%string
                              (10, 80) (Float64.lit 6 10) (255, 255, 255) 2 in
                    let frame_bytes := imencode_jpg display_frame in
                    ({| live_detector := Some d;
                        live_camera := live_camera s;
                        live_active := live_active s |},
                     Yield ("--frame" ++ crlf ++ "Content-Type: image/jpeg" ++ crlf ++ crlf
                            ++ frame_bytes ++ crlf)%string)
                end
            end
        end
    | _, _ => (s, StopIteration)
    end.

(** The generator driven by a consumer that asks for one chunk per element of
    [clock]; it stops at the first resumption that does not yield. *)
Fixpoint generate_live_frames {ext : Extern} (clock : list string) (s : Session)
  : Session * list string :=
  match clock with
  | [] => (s, [])
  | now :: clock' =>
      match live_iteration now s with
      | (s', Yield chunk) =>
          let '(s'', chunks) := generate_live_frames clock' s' in
          (s'', chunk :: chunks)
      | (s', _) => (s', [])
      end
  end.

(** ** Sessions the program can be in *)

(** One request or one resumption of the live generator. *)
Inductive reachable {ext : Extern} : Session -> Prop :=
| reach_initial : reachable initial_session
| reach_start s dev : reachable s -> reachable (fst (start_live dev s))
| reach_stop s : reachable s -> reachable (fst (stop_live s))
| reach_set_roi s x y w h : reachable s -> reachable (fst (set_roi x y w h s))
| reach_calibrate s : reachable s -> reachable (fst (calibrate s))
| reach_get_frame s : reachable s -> reachable (fst (get_frame s))
| reach_adjust s action : reachable s -> reachable (fst (adjust_sensitivity action s))
| reach_live s now : reachable s -> reachable (fst (live_iteration now s)).

(** The thresholds on the half-unit grid between 1.0 and 15.0. *)
Definition on_grid (t : float) : Prop :=
  exists k, 2 <= k <= 30 /\ t = Float64.half k.

(** The threshold [adjust_sensitivity] stores for an action. *)
Definition adjusted (action : option string) (t : float) : float :=
  match action with
  | Some a =>
      if String.eqb a "increase" then
        py_max (Float64.of_int 1) (Float64.sub t (Float64.half 1))
      else if String.eqb a "decrease" then
        py_min (Float64.of_int 15) (Float64.add t (Float64.half 1))
      else t
  | None => t
  end.

(** [n] requests with the same action, on a threshold. *)
Definition adjusted_n (action : option string) (n : nat) (t : float) : float :=
  Nat.iter n (adjusted action) t.

(** The session after [n] requests with the same action. *)
Fixpoint adjust_sensitivity_n (action : option string) (n : nat) (s : Session) : Session :=
  match n with
  | O => s
  | S n' => adjust_sensitivity_n action n' (fst (adjust_sensitivity action s))
  end.

(** The threshold the detector of a session holds. *)
Definition threshold_of (s : Session) : option float :=
  match live_detector s with
  | Some d => Some (threshold_percentage d)
  | None => None
  end.

(** What every detector of the live session satisfies, and every session. *)
Definition detector_inv (d : SimpleDoorDetector) : Prop :=
  on_grid (threshold_percentage d) /\ door_status d = UNKNOWN.

Definition session_inv (s : Session) : Prop :=
  (live_active s = false -> live_detector s = None)
  /\ (forall d, live_detector s = Some d -> detector_inv d).

(** The history a sequence of classified statuses leaves in a fresh detector;
    each status comes with the time it was logged at. *)
Definition log_all (d : SimpleDoorDetector) (events : list (string * string))
  : SimpleDoorDetector :=
  fold_left (fun d e => log_status (fst e) d (snd e)) events d.

(** The status of the most recent entry, if there is one. *)
Definition last_status (h : list HistoryEntry) : option string :=
  match rev h with
  | [] => None
  | e :: _ => Some (status e)
  end.

(** Run-length compression of a list of statuses. *)
Fixpoint compress (prev : option string) (l : list string) : list string :=
  match l with
  | [] => []
  | st :: l' =>
      match prev with
      | Some p => if String.eqb p st then compress prev l' else st :: compress (Some st) l'
      | None => st :: compress (Some st) l'
      end
  end.

(** ** A small instance of the interface, to run the definitions on *)

Module Sample.

(** OpenCV's 8-bit grey level: [(B*1868 + G*9617 + R*4899 + 2^13) >> 14]. *)
Definition gray_of (p : bgr) : gray :=
  let '(b, g, r) := p in
  Z.shiftr (b * 1868 + g * 9617 + r * 4899 + 8192) 14.

(** The blur is the identity: the sample frames are uniform inside the door
    area, and a Gaussian blur leaves a uniform image as it is. *)
#[export] Instance ext : Extern := {|
  cvtColor_BGR2GRAY := map (map gray_of);
  GaussianBlur_15x15 := fun img => img;
  applyColorMap_JET := map (map (fun v => (v, v, v)));
  putText := fun img _ _ _ _ _ => img;
  rectangle := fun img _ _ _ _ => img;
  imencode_jpg := fun _ => EmptyString;
  b64encode := fun b => b;
  format_1f := fun _ => EmptyString
|}.

(** A [rows] by [cols] frame of one colour. *)
Definition uniform (rows cols : nat) (p : bgr) : ndarray bgr :=
  repeat (repeat p cols) rows.

Definition dark : ndarray bgr := uniform 4 4 (10, 10, 10).
Definition bright : ndarray bgr := uniform 4 4 (200, 200, 200).

(** A detector with the door area set to the 2 by 2 block at (1, 1). *)
Definition with_roi : SimpleDoorDetector :=
  set_door_frame SimpleDoorDetector_init (1, 1, 2, 2).

(** The same, calibrated on the dark frame. *)
Definition calibrated : SimpleDoorDetector :=
  with_reference_closed with_roi (Some [[10; 10]; [10; 10]]).

(** A detector whose door area selects no pixel. *)
Definition degenerate : SimpleDoorDetector :=
  set_door_frame SimpleDoorDetector_init (0, 0, 0, 0).

Definition camera : Device := {|
  dev_available := true;
  dev_frames := [dark; dark; dark; bright; bright; dark]
|}.

Definition no_camera : Device := {|
  dev_available := false;
  dev_frames := []
|}.

End Sample.

(** * The video job *)

(** The upload, ROI and calibration routes of a recorded video and the
    playback generator work on globals of their own: [video_detector],
    [current_video_path] and [video_filename].  The file system is the list
    of the paths the program has created: the upload folder and the files
    saved, a file being what OpenCV finds in it.  What else the file system
    answers to a request, an error of [os.makedirs] or of [save], comes with
    the request. *)

(** ** Python values the playback overlay is made of *)

Inductive py_exception : Type :=
| CvError (e : exn)
| ValueError
| OverflowError
| IsADirectoryError
| OSError (msg : string).

(** A call returns, or an exception escapes it. *)
Inductive outcome_of (A : Type) : Type :=
| Returned (a : A)
| Escaped (e : py_exception).
Arguments Returned {A} a.
Arguments Escaped {A} e.

Definition is_finite (x : float) : bool :=
  match x with
  | S754_zero _ | S754_finite _ _ _ => true
  | _ => false
  end.

(** [int(x)]: truncation towards zero; NaN and the infinities raise. *)
Definition py_int (x : float) : outcome_of Z :=
  match x with
  | S754_zero _ => Returned 0
  | S754_finite s m e =>
      let v := Z.shiftl (Zpos m) e in
      Returned (if s then - v else v)
  | S754_infinity _ => Escaped OverflowError
  | S754_nan => Escaped ValueError
  end.

(** [str(z)] *)
Definition str_of_int (z : Z) : string := NilZero.string_of_int (Z.to_int z).

(** [f"{z:02d}"]: at least two characters, zeros after the sign. *)
Definition format_02d (z : Z) : string :=
  let digits := str_of_int (Z.abs z) in
  if z <? 0 then ("-" ++ digits)%string
  else if Nat.ltb (String.length digits) 2 then ("0" ++ digits)%string
  else digits.

(** What the playback generator calls besides the functions of [Extern]:
    the blend of OpenCV, and Python's [//] and [%] on floats. *)
Class PlaybackExtern : Type := {
  (** [cv2.addWeighted(src1, alpha, src2, beta, gamma)] *)
  addWeighted : ndarray bgr -> float -> ndarray bgr -> float -> float -> ndarray bgr;
  (** [x // y] *)
  float_floordiv : float -> float -> float;
  (** [x % y] *)
  float_mod : float -> float -> float
}.

(** Floor division and remainder by 60 of a finite float are finite. *)
Class PlaybackLaws (px : PlaybackExtern) : Prop := {
  floordiv_60_finite : forall x,
    is_finite x = true -> is_finite (float_floordiv x (Float64.of_int 60)) = true;
  mod_60_finite : forall x,
    is_finite x = true -> is_finite (float_mod x (Float64.of_int 60)) = true
}.

(** Lines 160 and 161: the elapsed time of frame [frame_count], as [mm:ss]. *)
Definition time_str {px : PlaybackExtern} (frame_count : Z) (fps : float)
  : outcome_of string :=
  if Float64.gt fps (Float64.of_int 0) then
    let timestamp := Float64.div (Float64.of_int frame_count) fps in
    match py_int (float_floordiv timestamp (Float64.of_int 60)) with
    | Escaped e => Escaped e
    | Returned minutes =>
        match py_int (float_mod timestamp (Float64.of_int 60)) with
        | Escaped e => Escaped e
        | Returned seconds =>
            Returned (format_02d minutes ++ ":" ++ format_02d seconds)%string
        end
    end
  else
    let timestamp := frame_count in
    Returned (format_02d (timestamp / 60) ++ ":" ++ format_02d (timestamp mod 60))%string.

(** ** Files *)

(** What OpenCV reports of a video file and the frames it decodes. *)
Record VideoFile : Type := {
  vf_frame_count : float;
  vf_fps : float;
  vf_frames : list (ndarray bgr)
}.

Inductive FileContent : Type :=
| NotAVideo
| Video (v : VideoFile).

(** What is at a path: a directory, or a file with what OpenCV finds in it. *)
Inductive DiskEntry : Type :=
| Directory
| File (c : FileContent).

(** The paths the program has created, the most recent first. *)
Definition Disk : Type := list (string * DiskEntry).

Fixpoint disk_lookup (disk : Disk) (path : string) : option DiskEntry :=
  match disk with
  | [] => None
  | (p, c) :: disk' => if String.eqb p path then Some c else disk_lookup disk' path
  end.

(** [os.path.exists(path)] *)
Definition os_path_exists (disk : Disk) (path : string) : bool :=
  match disk_lookup disk path with
  | Some _ => true
  | None => false
  end.

Definition ends_with_slash (a : string) : bool :=
  match String.get (String.length a - 1) a with
  | Some c => Ascii.eqb c "/"%char
  | None => false
  end.

(** [os.path.join(a, b)] of [posixpath]. *)
Definition os_path_join (a b : string) : string :=
  if String.prefix "/" b then b
  else if String.eqb a "" || ends_with_slash a then (a ++ b)%string
  else (a ++ "/" ++ b)%string.

(** A capture of a file, with the two properties the code asks it for. *)
Record FileCapture : Type := {
  fc_cap : VideoCapture;
  fc_frame_count : float;
  fc_fps : float
}.

(** [cv2.VideoCapture(path)]: a directory, a file that is no video, or no
    file, gives a capture that is not opened; it reports 0.0 for every
    property. *)
Definition VideoCapture_path (disk : Disk) (path : string) : FileCapture :=
  match disk_lookup disk path with
  | Some (File (Video v)) =>
      {| fc_cap := VideoCapture_init {| dev_available := true; dev_frames := vf_frames v |};
         fc_frame_count := vf_frame_count v;
         fc_fps := vf_fps v |}
  | _ =>
      {| fc_cap := VideoCapture_init {| dev_available := false; dev_frames := [] |};
         fc_frame_count := Float64.of_int 0;
         fc_fps := Float64.of_int 0 |}
  end.

(** ** The routes *)

Record VideoJob : Type := {
  video_detector : option SimpleDoorDetector;
  current_video_path : option string;
  video_filename : option string
}.

Definition initial_video : VideoJob := {|
  video_detector := None;
  current_video_path := None;
  video_filename := None
|}.

Definition with_video_detector (vs : VideoJob) (d : SimpleDoorDetector) : VideoJob :=
  {| video_detector := Some d;
     current_video_path := current_video_path vs;
     video_filename := video_filename vs |}.

(** The part [request.files['video']]: its file name and its content. *)
Record Upload : Type := {
  up_filename : string;
  up_content : FileContent
}.

Inductive VideoResponse : Type :=
| V_success (success : bool)
| V_message (success : bool) (message : string)
| V_uploaded (first_frame : string) (total_frames : Z) (fps : float) (filename : string).

Definition video_success_of (r : VideoResponse) : bool :=
  match r with
  | V_success b | V_message b _ => b
  | V_uploaded _ _ _ _ => true
  end.

(** What the file system answers during one upload request besides what the
    paths created so far decide: the error, if any, that [os.makedirs] meets,
    and the error that the [open] and [write] of [save] meet. *)
Record Storage : Type := {
  makedirs_error : option py_exception;
  save_error : option py_exception
}.

(** The path [os.path.join('uploads', '')] names the folder itself. *)
Definition uploads_dir : string := os_path_join "uploads" "".

(** [os.makedirs('uploads', exist_ok=True)] *)
Definition os_makedirs_uploads (io : Storage) (disk : Disk) : outcome_of Disk :=
  match makedirs_error io with
  | Some e => Escaped e
  | None =>
      match disk_lookup disk uploads_dir with
      | Some Directory => Returned disk
      | _ => Returned ((uploads_dir, Directory) :: disk)
      end
  end.

(** [video_file.save(path)]: a path that names a directory cannot be opened
    for writing; after a [save] that returns the file at the path is the
    uploaded content. *)
Definition file_save (io : Storage) (content : FileContent) (path : string) (disk : Disk)
  : outcome_of Disk :=
  match disk_lookup disk path with
  | Some Directory => Escaped IsADirectoryError
  | _ =>
      match save_error io with
      | Some e => Escaped e
      | None => Returned ((path, File content) :: disk)
      end
  end.

(** The globals are assigned where the code assigns them: the file name
    before [os.makedirs], the path before [save], the detector after it. *)
Definition upload_video {ext : Extern} (req : option Upload) (io : Storage) (disk : Disk)
    (vs : VideoJob) : Disk * VideoJob * outcome_of VideoResponse :=
  match req with
  | None => (disk, vs, Returned (V_message false "No video file"))
  | Some video_file =>
      let filename := up_filename video_file in
      let vs := {| video_detector := video_detector vs;
                   current_video_path := current_video_path vs;
                   video_filename := Some filename |} in
      match os_makedirs_uploads io disk with
      | Escaped e => (disk, vs, Escaped e)
      | Returned disk =>
          let path := os_path_join "uploads" filename in
          let vs := {| video_detector := video_detector vs;
                       current_video_path := Some path;
                       video_filename := Some filename |} in
          match file_save io (up_content video_file) path disk with
          | Escaped e => (disk, vs, Escaped e)
          | Returned disk =>
              let vs := {| video_detector := Some SimpleDoorDetector_init;
                           current_video_path := Some path;
                           video_filename := Some filename |} in
              let cap := VideoCapture_path disk path in
              match py_int (fc_frame_count cap) with
              | Escaped e => (disk, vs, Escaped e)
              | Returned total_frames =>
                  let fps := fc_fps cap in
                  match fst (cap_read (fc_cap cap)) with
                  | None => (disk, vs, Returned (V_message false "Could not read video"))
                  | Some first_frame =>
                      (disk, vs,
                       Returned (V_uploaded (b64encode (imencode_jpg first_frame))
                                            total_frames fps filename))
                  end
              end
          end
      end
  end.

Definition set_video_roi (x y width height : Z) (vs : VideoJob) : VideoJob * VideoResponse :=
  match video_detector vs with
  | Some d => (with_video_detector vs (set_door_frame d (x, y, width, height)), V_success true)
  | None => (vs, V_success false)
  end.

(** [not current_video_path]: [None] and the empty string are false. *)
Definition truthy_path (p : option string) : option string :=
  match p with
  | Some path => if String.eqb path "" then None else Some path
  | None => None
  end.

Definition calibrate_video {ext : Extern} (disk : Disk) (vs : VideoJob)
  : VideoJob * outcome_of VideoResponse :=
  match video_detector vs, truthy_path (current_video_path vs) with
  | Some d, Some path =>
      let cap := VideoCapture_path disk path in
      let '(frame, cap) := cap_read (fc_cap cap) in
      let _ := release cap in
      match frame with
      | None => (vs, Returned (V_message false "Could not read video"))
      | Some frame =>
          match calibrate_closed d frame with
          | Ok (d, success) => (with_video_detector vs d, Returned (V_success success))
          | Raise e => (vs, Escaped (CvError e))
          end
      end
  | _, _ => (vs, Returned (V_message false "Not ready"))
  end.

(** ** generate_video_playback *)

(** The locals of the generator: the capture, [fps] and [frame_count]. *)
Record Playback : Type := {
  pb_cap : VideoCapture;
  pb_fps : float;
  pb_frame_count : Z
}.

Inductive playback_step : Type :=
| PYield (chunk : string)
| PStop
| PRaised (e : py_exception).

(** The lines before the loop; [None] is the early [return]. *)
Definition playback_open (disk : Disk) (vs : VideoJob) : option Playback :=
  match truthy_path (current_video_path vs) with
  | None => None
  | Some path =>
      if os_path_exists disk path then
        let cap := VideoCapture_path disk path in
        Some {| pb_cap := fc_cap cap; pb_fps := fc_fps cap; pb_frame_count := 0 |}
      else None
  end.

(** Lines 151 to 153: the door frame, drawn on the copy of the frame when
    the detector has an ROI. *)
Definition draw_video_roi {ext : Extern} (d : SimpleDoorDetector)
    (display_frame : ndarray bgr) : result (ndarray bgr) :=
  match door_roi d with
  | Some (x, y, w, h) =>
      cv2_rectangle display_frame (x, y) (x + w, y + h) (0, 255, 255) 3
  | None => Ok display_frame
  end.

(** One pass through the body of the [while True] loop, up to the [yield]
    or to the [break] and the release after it.  The band at the top ends at
    the width of the image, which fits a C [int] as every dimension of an
    OpenCV image does; this call and the ones at constant points are the
    interface's. *)
Definition playback_iteration {ext : Extern} {px : PlaybackExtern}
    (vs : VideoJob) (g : Playback) : VideoJob * Playback * playback_step :=
  let '(frame, cap) := cap_read (pb_cap g) in
  match frame with
  | None =>
      (vs, {| pb_cap := release cap; pb_fps := pb_fps g; pb_frame_count := pb_frame_count g |},
       PStop)
  | Some frame =>
      let g1 := {| pb_cap := cap; pb_fps := pb_fps g; pb_frame_count := pb_frame_count g |} in
      let next := {| pb_cap := cap; pb_fps := pb_fps g;
                     pb_frame_count := pb_frame_count g + 1 |} in
      let chunk_of (display_frame : ndarray bgr) : string :=
        ("--frame" ++ crlf ++ "Content-Type: image/jpeg" ++ crlf ++ crlf
         ++ imencode_jpg display_frame ++ crlf)%string in
      let display_frame := frame in
      match video_detector vs with
      | None => (vs, next, PYield (chunk_of display_frame))
      | Some d =>
          match draw_video_roi d display_frame with
          | Raise e => (vs, g1, PRaised (CvError e))
          | Ok display_frame =>
              match detect_door_status d frame with
              | Raise e => (vs, g1, PRaised (CvError e))
              | Ok (d, (st, _, change_pct)) =>
                  let vs := with_video_detector vs d in
                  match time_str (pb_frame_count g) (pb_fps g) with
                  | Escaped e => (vs, g1, PRaised e)
                  | Returned ts =>
                      let status_color :=
                        if String.eqb st CLOSED then (0, 255, 0) else (0, 0, 255) in
                      let overlay := display_frame in
                      let '(height, width) := shape display_frame in
                      let overlay :=
                        rectangle overlay (0, 0) (Z.of_nat width, 100) (0, 0, 0) (-1) in
                      let display_frame :=
                        addWeighted overlay (Float64.lit 7 10) display_frame
                                    (Float64.lit 3 10) (Float64.of_int 0) in
                      let display_frame :=
                        putText display_frame ("Door: " ++ st)%string (20, 50)
                                (Float64.lit 15 10) status_color 4 in
                      let display_frame :=
                        putText display_frame
                                ("Frame: " ++ str_of_int (pb_frame_count g) ++ " | Time: "
                                 ++ ts ++ " | Change: " ++ format_1f change_pct ++ "%")%string
                                (20, 85) (Float64.lit 6 10) (255, 255, 255) 2 in
                      (vs, next, PYield (chunk_of display_frame))
                  end
              end
          end
      end
  end.

(** How a run of the generator ended: exhausted, or by an exception. *)
Inductive playback_end : Type :=
| Exhausted
| Failed (e : py_exception).

(** The loop, for at most [fuel] resumptions; [None] is out of fuel. *)
Fixpoint playback_loop {ext : Extern} {px : PlaybackExtern}
    (fuel : nat) (vs : VideoJob) (g : Playback)
  : VideoJob * Playback * list string * option playback_end :=
  match fuel with
  | O => (vs, g, [], None)
  | S fuel' =>
      match playback_iteration vs g with
      | (vs', g', PYield chunk) =>
          let '(vs'', g'', chunks, e) := playback_loop fuel' vs' g' in
          (vs'', g'', chunk :: chunks, e)
      | (vs', g', PStop) => (vs', g', [], Some Exhausted)
      | (vs', g', PRaised e) => (vs', g', [], Some (Failed e))
      end
  end.

(** The generator consumed to its end, with no request in between: one
    resumption more than the capture has frames is enough. *)
Definition generate_video_playback {ext : Extern} {px : PlaybackExtern}
    (disk : Disk) (vs : VideoJob) : VideoJob * list string * option playback_end :=
  match playback_open disk vs with
  | None => (vs, [], Some Exhausted)
  | Some g =>
      let '(vs', _, chunks, e) := playback_loop (S (length (cap_frames (pb_cap g)))) vs g in
      (vs', chunks, e)
  end.

(** ** Video jobs the program can be in *)

Inductive video_reachable {ext : Extern} {px : PlaybackExtern} : Disk -> VideoJob -> Prop :=
| vreach_initial : video_reachable [] initial_video
| vreach_upload disk vs req io :
    video_reachable disk vs ->
    video_reachable (fst (fst (upload_video req io disk vs)))
                    (snd (fst (upload_video req io disk vs)))
| vreach_set_roi disk vs x y w h :
    video_reachable disk vs -> video_reachable disk (fst (set_video_roi x y w h vs))
| vreach_calibrate disk vs :
    video_reachable disk vs -> video_reachable disk (fst (calibrate_video disk vs))
| vreach_playback disk vs g :
    video_reachable disk vs -> video_reachable disk (fst (fst (playback_iteration vs g))).

(** ** Predicates of the properties below *)

(** No two neighbours of a history have the same status. *)
Fixpoint alternating (h : list HistoryEntry) : Prop :=
  match h with
  | e1 :: ((e2 :: _) as h') => status e1 <> status e2 /\ alternating h'
  | _ => True
  end.

(** The frames the camera of a session still has to deliver. *)
Definition frames_left (s : Session) : nat :=
  match live_camera s with
  | Some cam => if cap_opened cam then length (cap_frames cam) else O
  | None => O
  end.

Definition history_of (s : Session) : list HistoryEntry :=
  match live_detector s with
  | Some d => history d
  | None => []
  end.

(** The extent of a slice of a list of [n] elements. *)
Definition slice_length (n : nat) (start stop : Z) : nat :=
  Z.to_nat (Z.min (slice_index (Z.of_nat n) stop - slice_index (Z.of_nat n) start)
                  (Z.of_nat n - slice_index (Z.of_nat n) start)).

(** Two grey images of one size whose pixels satisfy [R] pairwise. *)
Definition pixelwise (R : gray -> gray -> Prop) (a b : ndarray gray) : Prop :=
  Forall2 (Forall2 R) a b.

(** ** A sample video *)

Module SampleVideo.

(** Right for timestamps below one minute, which the sample video stays
    under: the quotient by 60 is zero and the remainder the timestamp. *)
#[export] Instance px : PlaybackExtern := {|
  addWeighted := fun src1 _ _ _ _ => src1;
  float_floordiv := fun _ _ => S754_zero false;
  float_mod := fun x _ => x
|}.

Definition clip : VideoFile := {|
  vf_frame_count := Float64.of_int 3;
  vf_fps := Float64.of_int 1;
  vf_frames := [Sample.dark; Sample.dark; Sample.bright]
|}.

Definition request : option Upload :=
  Some {| up_filename := "door.mp4"; up_content := Video clip |}.

Definition broken_request : option Upload :=
  Some {| up_filename := "notes.txt"; up_content := NotAVideo |}.

(** A browser sends this part when no file was chosen. *)
Definition empty_request : option Upload :=
  Some {| up_filename := ""; up_content := NotAVideo |}.

(** A file system that lets [os.makedirs] and [save] through. *)
Definition storage : Storage := {| makedirs_error := None; save_error := None |}.

End SampleVideo.

(** ** A sample live session *)

Module SampleLive.

(** Started on the sample camera, with the door area set and calibrated on
    the first frame. *)
Definition calibrated_session : Session :=
  fst (calibrate (ext := Sample.ext)
         (fst (set_roi 1 1 2 2 (fst (start_live Sample.camera initial_session))))).

(** The same after five frames of the live stream. *)
Definition after_five : Session :=
  fst (generate_live_frames (ext := Sample.ext)
         ["09:00:01"; "09:00:02"; "09:00:03"; "09:00:04"; "09:00:05"]%string
         calibrated_session).

Definition detector_after_five : SimpleDoorDetector :=
  with_history Sample.calibrated
    [{| timestamp := "09:00:01"; status := CLOSED |};
     {| timestamp := "09:00:03"; status := OPEN |};
     {| timestamp := "09:00:05"; status := CLOSED |}].

End SampleLive.

(** The history invariant of the live session. *)
Definition history_ok (h : list HistoryEntry) : Prop :=
  alternating h /\ Forall (fun e => status e = OPEN \/ status e = CLOSED) h.

(** ** The order of floats as an order of integer triples *)

Module Float64Order.

(** A float that is no NaN as a triple of integers, ordered like the floats
    by [lex]. *)
Definition key (x : float) : option (Z * Z * Z) :=
  match x with
  | S754_nan => None
  | S754_infinity true => Some (-2, 0, 0)
  | S754_finite true m e => Some (-1, - e, Zneg m)
  | S754_zero _ => Some (0, 0, 0)
  | S754_finite false m e => Some (1, e, Zpos m)
  | S754_infinity false => Some (2, 0, 0)
  end.

Definition lex (k k' : Z * Z * Z) : comparison :=
  let '(a, b, c) := k in
  let '(a', b', c') := k' in
  match a ?= a' with
  | Eq => match b ?= b' with
          | Eq => c ?= c'
          | r => r
          end
  | r => r
  end.

End Float64Order.

(** ** Predicates on the video job *)

(** What the routes keep true of the video job: a video detector never logs
    and its threshold is never adjusted; a job with a detector has a path, a
    job with a path has a file name, and the path is not empty. *)
Definition video_job_ok (vs : VideoJob) : Prop :=
  (forall d, video_detector vs = Some d ->
     history d = []
     /\ threshold_percentage d = Float64.of_int 5
     /\ door_status d = UNKNOWN)
  /\ (current_video_path vs = None -> video_detector vs = None)
  /\ (video_filename vs = None -> current_video_path vs = None)
  /\ (forall path, current_video_path vs = Some path -> path <> EmptyString).

(** The elapsed time of each of the first [n] frames is a finite float. *)
Definition timestamps_finite (fps : float) (n : nat) : Prop :=
  forall k, 0 <= k < Z.of_nat n ->
    Float64.gt fps (Float64.of_int 0) = true ->
    is_finite (Float64.div (Float64.of_int k) fps) = true.

(** A detector that [detect_door_status] answers "Not Calibrated" for. *)
Definition uncalibrated (d : SimpleDoorDetector) : Prop :=
  door_roi d = None \/ reference_closed d = None.

(** [os.makedirs] and then [save] of the upload return, and leave [disk']. *)
Definition stored (io : Storage) (up : Upload) (disk disk' : Disk) : Prop :=
  exists disk1,
    os_makedirs_uploads io disk = Returned disk1
    /\ file_save io (up_content up) (os_path_join "uploads" (up_filename up)) disk1
       = Returned disk'.

(** The corners of the door frame that the generators draw fit a C [int]. *)
Definition roi_drawable (roi : Z * Z * Z * Z) : Prop :=
  let '(x, y, w, h) := roi in
  point_fits (x, y) = true /\ point_fits (x + w, y + h) = true.

(** A saved file that has no frame to give: no video, or a video of which
    OpenCV decodes nothing. *)
Definition unreadable (c : FileContent) : Prop :=
  match c with
  | NotAVideo => True
  | Video v => vf_frames v = [] /\ is_finite (vf_frame_count v) = true
  end.

(** A frame [detect_door_status] returns for: the detector is not
    calibrated, or the door area of the frame has the size of the reference
    and at least one pixel. *)
Definition classifiable (d : SimpleDoorDetector) (frame : ndarray bgr) : Prop :=
  uncalibrated d
  \/ exists roi reference,
       door_roi d = Some roi
       /\ reference_closed d = Some reference
       /\ dims reference = dims (door_area frame roi)
       /\ (0 < size (door_area frame roi))%nat.

(** ** The sample video, uploaded *)

Module SampleJob.

Definition disk : Disk :=
  fst (fst (upload_video (ext := Sample.ext) SampleVideo.request SampleVideo.storage
              [] initial_video)).

Definition uploaded : VideoJob :=
  snd (fst (upload_video (ext := Sample.ext) SampleVideo.request SampleVideo.storage
              [] initial_video)).

Definition with_roi : VideoJob := fst (set_video_roi 1 1 2 2 uploaded).

Definition calibrated : VideoJob := fst (calibrate_video (ext := Sample.ext) disk with_roi).

End SampleJob.


(** * Facts *)

(** ** Rounding in [SpecFloat], at binary64

    Two results are needed of the arithmetic: an operation whose exact
    mantissa is not negative never rounds to NaN, and an integer below 2^63
    converts to a finite, non-zero float. *)

Module Float64Facts.
Import Float64.

Lemma fexp_eq e : fexp prec emax e = Z.max (e - 53) (-1074).
Proof. reflexivity. Qed.

Lemma Zdigits2_log2 p : Zdigits2 (Zpos p) = Z.succ (Z.log2 (Zpos p)).
Proof.
  assert (H : forall q, digits2_pos q = Pos.size q) by (induction q; simpl; congruence).
  destruct p; simpl; rewrite ?H, ?Pos2Z.inj_succ; reflexivity.
Qed.

Lemma Zdigits2_pos_log2 m : 0 < m -> Zdigits2 m = Z.succ (Z.log2 m).
Proof. destruct m; try lia; intros _; apply Zdigits2_log2. Qed.

Lemma shr_1_m r : 0 <= shr_m r -> shr_m (shr_1 r) = shr_m r / 2.
Proof.
  destruct r as [m b s]; cbn [shr_m]. intros Hm.
  destruct m as [|[q|q|]|q]; cbn [shr_1 shr_m]; try lia; try reflexivity.
  - apply Z.div_unique with (r := 1); lia.
  - apply Z.div_unique with (r := 0); lia.
Qed.

Lemma iter_shr_1_m k : forall r, 0 <= shr_m r ->
  shr_m (iter_pos shr_1 k r) = shr_m r / 2 ^ Zpos k.
Proof.
  induction k as [k IH|k IH|]; intros r Hr; cbn [iter_pos].
  - assert (H1 : 0 <= shr_m (shr_1 r)) by (rewrite shr_1_m by assumption; apply Z.div_pos; lia).
    assert (H2 : 0 <= shr_m (iter_pos shr_1 k (shr_1 r))) by (rewrite IH by assumption; apply Z.div_pos; lia).
    rewrite IH, IH, shr_1_m by assumption.
    rewrite !Z.div_div by lia.
    f_equal. replace (Z.pos k~1) with (1 + Z.pos k + Z.pos k) by lia.
    rewrite !Z.pow_add_r by lia. change (2 ^ 1) with 2. ring.
  - assert (H2 : 0 <= shr_m (iter_pos shr_1 k r)) by (rewrite IH by assumption; apply Z.div_pos; lia).
    rewrite IH, IH by assumption.
    rewrite !Z.div_div by lia.
    f_equal. replace (Z.pos k~0) with (Z.pos k + Z.pos k) by lia.
    rewrite Z.pow_add_r by lia. ring.
  - rewrite shr_1_m by assumption. reflexivity.
Qed.

Lemma pow2_rnd_shift_pos m e : 0 < 2 ^ rnd_shift m e.
Proof. apply Z.pow_pos_nonneg; [lia | unfold rnd_shift; lia]. Qed.

Lemma div_pow2_rnd_shift_nonneg m m' e : 0 <= m -> 0 <= m / 2 ^ rnd_shift m' e.
Proof. intros; apply Z.div_pos; [assumption | apply pow2_rnd_shift_pos]. Qed.

Lemma shr_record_of_loc_m m l : shr_m (shr_record_of_loc m l) = m.
Proof. destruct l as [|[]]; reflexivity. Qed.

Lemma shr_fexp_spec m e l r e' : 0 <= m -> shr_fexp prec emax m e l = (r, e') ->
  shr_m r = m / 2 ^ rnd_shift m e /\ e' = e + rnd_shift m e.
Proof.
  intros Hm. unfold shr_fexp, shr, rnd_shift.
  destruct (fexp prec emax (Zdigits2 m + e) - e) as [|k|k]; intros [= <- <-].
  - rewrite shr_record_of_loc_m. change (Z.max 0 0) with 0. rewrite Z.div_1_r. lia.
  - rewrite iter_shr_1_m by (rewrite shr_record_of_loc_m; assumption).
    rewrite shr_record_of_loc_m. rewrite Z.max_r by lia. split; reflexivity.
  - rewrite shr_record_of_loc_m. rewrite Z.max_l by lia. rewrite Z.div_1_r. lia.
Qed.

Lemma round_nearest_even_cases m l :
  round_nearest_even m l = m \/ round_nearest_even m l = m + 1.
Proof. destruct l as [|[]]; cbn [round_nearest_even]; auto. destruct (Z.even m); auto. Qed.

Lemma binary_round_aux_not_nan s m e l :
  0 <= m -> is_nan (binary_round_aux prec emax s m e l) = false.
Proof.
  intros Hm. unfold binary_round_aux.
  destruct (shr_fexp prec emax m e l) as [r1 e1] eqn:E1.
  destruct (shr_fexp_spec _ _ _ _ _ Hm E1) as [Hr1 _].
  assert (H1 : 0 <= shr_m r1) by (rewrite Hr1; apply div_pow2_rnd_shift_nonneg; assumption).
  set (m2 := round_nearest_even (shr_m r1) (loc_of_shr_record r1)).
  assert (H2 : 0 <= m2) by (destruct (round_nearest_even_cases (shr_m r1) (loc_of_shr_record r1)); fold m2 in H; lia).
  destruct (shr_fexp prec emax m2 e1 loc_Exact) as [r2 e2] eqn:E2.
  destruct (shr_fexp_spec _ _ _ _ _ H2 E2) as [Hr2 _].
  assert (H3 : 0 <= shr_m r2) by (rewrite Hr2; apply div_pow2_rnd_shift_nonneg; assumption).
  destruct (shr_m r2); try lia; try reflexivity.
  destruct (e2 <=? emax - prec); reflexivity.
Qed.

Lemma binary_round_aux_finite s p e l :
  -1074 < Zdigits2 (Zpos p) + e -> Zdigits2 (Zpos p) + e <= 1023 -> e <= 971 ->
  exists m' e', binary_round_aux prec emax s (Zpos p) e l = S754_finite s m' e'.
Proof.
  intros Hlo Hhi He. unfold binary_round_aux.
  destruct (shr_fexp prec emax (Zpos p) e l) as [r1 e1] eqn:E1.
  destruct (shr_fexp_spec _ _ _ _ _ (Pos2Z.is_nonneg p) E1) as [Hr1 He1].
  set (m2 := round_nearest_even (shr_m r1) (loc_of_shr_record r1)).
  destruct (shr_fexp prec emax m2 e1 loc_Exact) as [r2 e2] eqn:E2.
  rewrite Zdigits2_log2 in Hlo, Hhi.
  pose proof (Z.log2_nonneg (Zpos p)) as Hlog.
  assert (Hn1 : rnd_shift (Zpos p) e <= Z.log2 (Zpos p)
                /\ Z.log2 (Zpos p) - 52 <= rnd_shift (Zpos p) e
                /\ -1074 <= e + rnd_shift (Zpos p) e
                /\ e + rnd_shift (Zpos p) e <= 971
                /\ 0 <= rnd_shift (Zpos p) e).
  { unfold rnd_shift. rewrite fexp_eq, Zdigits2_log2. lia. }
  set (n1 := rnd_shift (Zpos p) e) in *.
  assert (Hm1 : 0 < shr_m r1 /\ Z.log2 (shr_m r1) = Z.log2 (Zpos p) - n1).
  { rewrite Hr1, <- Z.shiftr_div_pow2 by lia. 
    assert (HL : Z.log2 (Z.shiftr (Zpos p) n1) = Z.log2 (Zpos p) - n1).
    { rewrite Z.log2_shiftr by lia. lia. }
    split; [|exact HL].
    destruct (Z.shiftr_nonneg (Zpos p) n1) as [_ Hnn]. specialize (Hnn (Pos2Z.is_nonneg p)).
    destruct (Z.eq_dec (Z.shiftr (Zpos p) n1) 0) as [E0|]; [|lia].
    apply Z.shiftr_eq_0_iff in E0. destruct E0 as [E0|[_ E0]]; lia. }
  destruct Hm1 as [Hm1 Hl1].
  assert (Hm2 : shr_m r1 <= m2 <= shr_m r1 + 1)
    by (destruct (round_nearest_even_cases (shr_m r1) (loc_of_shr_record r1)); fold m2 in H; lia).
  assert (Hl2 : Z.log2 (shr_m r1) <= Z.log2 m2 <= Z.log2 (shr_m r1) + 1).
  { split; [apply Z.log2_le_mono; lia|].
    etransitivity; [apply Z.log2_le_mono; apply Hm2|].
    pose proof (Z.log2_succ_le (shr_m r1)). unfold Z.succ in *. lia. }
  assert (H2 : 0 <= m2) by lia.
  destruct (shr_fexp_spec _ _ _ _ _ H2 E2) as [Hr2 He2].
  assert (Hn2 : 0 <= rnd_shift m2 e1 <= Z.log2 m2 /\ e1 + rnd_shift m2 e1 <= 971).
  { unfold rnd_shift. rewrite fexp_eq, Zdigits2_pos_log2 by lia. lia. }
  set (n2 := rnd_shift m2 e1) in *.
  assert (Hm3 : 0 < shr_m r2).
  { rewrite Hr2. apply Z.div_str_pos. split; [apply Z.pow_pos_nonneg; lia|].
    etransitivity; [apply Z.pow_le_mono_r with (c := Z.log2 m2); lia|].
    apply Z.log2_spec. lia. }
  destruct (shr_m r2) as [|q|q]; try lia.
  replace (e2 <=? emax - prec) with true; [exists q, e2; reflexivity|].
  symmetry. apply Z.leb_le. change (emax - prec) with 971. lia.
Qed.

Lemma digits2_pos_iter_xO p d :
  Zpos (digits2_pos (Pos.iter xO p d)) = Zpos (digits2_pos p) + Zpos d.
Proof.
  induction d as [|d IH] using Pos.peano_ind.
  - cbn. lia.
  - rewrite Pos.iter_succ. cbn [digits2_pos]. rewrite Pos2Z.inj_succ, IH. lia.
Qed.

Lemma binary_round_finite s p e :
  -1074 < Zdigits2 (Zpos p) + e -> Zdigits2 (Zpos p) + e <= 1023 -> e <= 971 ->
  exists m' e', binary_round prec emax s p e = S754_finite s m' e'.
Proof.
  intros Hlo Hhi He. unfold binary_round, shl_align.
  change (Zdigits2 (Zpos p)) with (Zpos (digits2_pos p)) in *.
  destruct (fexp prec emax (Zpos (digits2_pos p) + e) - e) as [|k|k] eqn:E;
    try (apply binary_round_aux_finite; assumption).
  rewrite fexp_eq in E.
  apply binary_round_aux_finite;
    change (Zdigits2 (Zpos (Pos.iter xO p k))) with (Zpos (digits2_pos (Pos.iter xO p k)));
    rewrite ?digits2_pos_iter_xO, ?fexp_eq; lia.
Qed.

Lemma of_int_finite n : 0 < n < 2 ^ 63 ->
  exists m' e', of_int n = S754_finite false m' e'.
Proof.
  intros [Hn Hb]. destruct n as [|p|p]; try lia.
  unfold of_int, binary_normalize.
  assert (HL : Z.log2 (Zpos p) < 63) by (apply Z.log2_lt_pow2; lia).
  pose proof (Z.log2_nonneg (Zpos p)).
  apply binary_round_finite; rewrite ?Zdigits2_log2; lia.
Qed.

Lemma binary_round_not_nan s p e : is_nan (binary_round prec emax s p e) = false.
Proof.
  unfold binary_round. destruct (shl_align _ _ _) as [mz ez].
  apply binary_round_aux_not_nan. lia.
Qed.

Lemma of_int_not_nan n : is_nan (of_int n) = false.
Proof. destruct n; [reflexivity | apply binary_round_not_nan ..]. Qed.

Lemma div_not_nan a b :
  is_nan a = false -> is_finite_nonzero b = true -> is_nan (div a b) = false.
Proof.
  destruct a as [sa|sa| |sa ma ea], b as [sb|sb| |sb mb eb]; try discriminate; try reflexivity.
  intros _ _. unfold div, SFdiv.
  destruct (SFdiv_core_binary prec emax (Zpos ma) ea (Zpos mb) eb) as [[mz ez] lz] eqn:E.
  apply binary_round_aux_not_nan.
  unfold SFdiv_core_binary in E.
  set (m' := match _ - _ - _ with Z0 => _ | Zpos _ => _ | Zneg _ => _ end) in E.
  assert (Hm' : 0 <= m').
  { subst m'. destruct (_ - _ - _); try lia. apply Z.shiftl_nonneg. lia. }
  pose proof (Z_div_mod m' (Zpos mb) eq_refl) as Hdiv.
  destruct (Z.div_eucl m' (Zpos mb)) as [q r]. injection E as <- _ _.
  nia.
Qed.

Lemma mul_not_nan a b :
  is_nan a = false -> is_finite_nonzero b = true -> is_nan (mul a b) = false.
Proof.
  destruct a as [sa|sa| |sa ma ea], b as [sb|sb| |sb mb eb]; try discriminate; try reflexivity.
  intros _ _. apply binary_round_aux_not_nan. lia.
Qed.

Lemma SFcompare_antisym x y :
  SFcompare y x = option_map CompOpp (SFcompare x y).
Proof.
  destruct x as [sx|sx| |sx mx ex], y as [sy|sy| |sy my ey]; cbn [SFcompare option_map];
    try reflexivity;
    try (destruct sx; reflexivity); try (destruct sy; reflexivity);
    try (destruct sx, sy; reflexivity).
  rewrite (Z.compare_antisym ex ey).
  assert (H : Pos.compare_cont Eq my mx = CompOpp (Pos.compare_cont Eq mx my))
    by (rewrite (Pos.compare_cont_antisym mx my Eq); reflexivity).
  rewrite H.
  destruct sx, sy, (ex ?= ey), (Pos.compare_cont Eq mx my); reflexivity.
Qed.

Lemma SFcompare_some p t : is_nan p = false -> is_nan t = false ->
  exists c, SFcompare p t = Some c.
Proof.
  destruct p, t; try discriminate; intros _ _; cbn [SFcompare]; eexists; reflexivity.
Qed.

Lemma gt_negb_le p t : is_nan p = false -> is_nan t = false ->
  gt p t = negb (le p t).
Proof.
  intros Hp Ht. unfold gt, le, SFltb, SFleb. rewrite (SFcompare_antisym p t).
  destruct (SFcompare_some p t Hp Ht) as [c ->]. destruct c; reflexivity.
Qed.

End Float64Facts.

(** ** The change percentage is a number *)

Lemma change_percentage_not_nan changed total :
  (0 < total)%nat -> Z.of_nat total < 2 ^ 63 ->
  Float64.is_nan (change_percentage changed total) = false.
Proof.
  intros Hpos Hlt. unfold change_percentage.
  destruct (Float64Facts.of_int_finite (Z.of_nat total)) as (m & e & Htot); [lia|].
  apply Float64Facts.mul_not_nan; [|reflexivity].
  apply Float64Facts.div_not_nan; [apply Float64Facts.of_int_not_nan|].
  rewrite Htot. reflexivity.
Qed.

(** No changed pixel gives [+0.0], whatever the (non-zero) total. *)
Lemma change_percentage_zero total :
  (0 < total)%nat -> Z.of_nat total < 2 ^ 63 ->
  change_percentage 0 total = S754_zero false.
Proof.
  intros Hpos Hlt. unfold change_percentage.
  destruct (Float64Facts.of_int_finite (Z.of_nat total)) as (m & e & ->); [lia|].
  reflexivity.
Qed.

(** ** Arrays *)

Lemma size_dims {A : Type} (a : ndarray A) : size a = list_sum (dims a).
Proof. unfold size, dims. apply length_concat. Qed.

Lemma dims_eqb_true d1 d2 : dims_eqb d1 d2 = true <-> d1 = d2.
Proof. unfold dims_eqb. destruct (list_eq_dec Nat.eq_dec d1 d2); split; congruence. Qed.

Lemma dims_shape {A B : Type} (a : ndarray A) (b : ndarray B) :
  dims a = dims b -> shape a = shape b.
Proof.
  unfold dims, shape. intros H.
  assert (HL : length a = length b)
    by (rewrite <- (length_map (@length A) a), <- (length_map (@length B) b); congruence).
  destruct a, b; try discriminate; [reflexivity|].
  cbn in H. injection H as H _. cbn [length] in *. congruence.
Qed.

Lemma zip_with_length {A B C : Type} (f : A -> B -> C) l1 l2 :
  length l1 = length l2 -> length (zip_with f l1 l2) = length l1.
Proof.
  intros H. unfold zip_with. rewrite length_map, length_combine. lia.
Qed.

Lemma zip_with_dims {A B C : Type} (f : A -> B -> C) (a : ndarray A) (b : ndarray B) :
  dims a = dims b -> dims (zip_with (zip_with f) a b) = dims a.
Proof.
  revert b. induction a as [|r a IH]; intros [|r' b] H; try discriminate; [reflexivity|].
  cbn in H. injection H as Hr Hd.
  change (zip_with (zip_with f) (r :: a) (r' :: b))
    with (zip_with f r r' :: zip_with (zip_with f) a b).
  cbn [dims map]. f_equal; [apply zip_with_length; assumption | apply IH; assumption].
Qed.

Lemma threshold_dims src t v : dims (threshold src t v) = dims src.
Proof.
  unfold threshold, dims. rewrite map_map. apply map_ext. intros r. apply length_map.
Qed.

Lemma absdiff_ok src1 src2 diff :
  absdiff src1 src2 = Ok diff ->
  dims src1 = dims src2 /\ dims diff = dims src1.
Proof.
  unfold absdiff. destruct (dims_eqb (dims src1) (dims src2)) eqn:E; [|discriminate].
  apply dims_eqb_true in E. intros [= <-]. split; [assumption|].
  apply zip_with_dims. assumption.
Qed.

Lemma absdiff_mismatch src1 src2 :
  dims src1 <> dims src2 -> exists msg, absdiff src1 src2 = Raise (cv2_error msg).
Proof.
  intros H. unfold absdiff. destruct (dims_eqb (dims src1) (dims src2)) eqn:E.
  - apply dims_eqb_true in E. contradiction.
  - eexists. reflexivity.
Qed.

(** What a successful [score] returns. *)
Lemma score_ok reference current diff thresh p :
  score reference current = Ok (diff, thresh, p) ->
  dims reference = dims current
  /\ size thresh = size reference
  /\ thresh = threshold diff 30 255
  /\ p = change_percentage (count_positive thresh) (size thresh).
Proof.
  unfold score. destruct (absdiff reference current) as [d|] eqn:E; [|discriminate].
  cbn [bind]. intros [= <- <- <-]. apply absdiff_ok in E. destruct E as [E1 E2].
  repeat apply conj; try assumption; try reflexivity.
  rewrite !size_dims, threshold_dims. congruence.
Qed.

(** What a successful [smooth] returns: an image of the size of the door
    area, which has at least one pixel. *)
Lemma smooth_ok {ext : Extern} (laws : ExternLaws ext) area g :
  smooth area = Ok g -> dims g = dims area /\ (0 < size area)%nat.
Proof.
  unfold smooth, cvtColor, GaussianBlur.
  destruct (Nat.eqb (size area) 0) eqn:E; [discriminate|].
  cbn [bind]. intros [= <-]. apply Nat.eqb_neq in E.
  rewrite GaussianBlur_dims, cvtColor_dims. split; [reflexivity | lia].
Qed.

Lemma smooth_succeeds {ext : Extern} area :
  (0 < size area)%nat -> smooth area = Ok (GaussianBlur_15x15 (cvtColor_BGR2GRAY area)).
Proof.
  intros H. unfold smooth, cvtColor, GaussianBlur.
  destruct (Nat.eqb (size area) 0) eqn:E; [apply Nat.eqb_eq in E; lia | reflexivity].
Qed.

Lemma smooth_empty {ext : Extern} area :
  size area = 0%nat -> exists msg, smooth area = Raise (cv2_error msg).
Proof.
  intros H. unfold smooth, cvtColor. rewrite H. eexists. reflexivity.
Qed.

Lemma OPEN_neq_CLOSED : OPEN <> CLOSED.
Proof. discriminate. Qed.

Lemma classify_cases p t : classify p t = OPEN \/ classify p t = CLOSED.
Proof. unfold classify. destruct (Float64.gt p t); auto. Qed.

(** [detect_door_status] on a calibrated detector, step by step. *)
Lemma detect_calibrated_ok {ext : Extern} d roi reference frame d' st proc p :
  door_roi d = Some roi -> reference_closed d = Some reference ->
  detect_door_status d frame = Ok (d', (st, proc, p)) ->
  exists current diff thresh vis colored,
    smooth (door_area frame roi) = Ok current
    /\ score reference current = Ok (diff, thresh, p)
    /\ st = classify p (threshold_percentage d)
    /\ proc = Some (vis, colored, thresh)
    /\ d' = d.
Proof.
  intros Hroi Href. unfold detect_door_status. rewrite Hroi, Href.
  destruct (smooth (door_area frame roi)) as [current|] eqn:Es; [|discriminate].
  cbn [bind].
  destruct (score reference current) as [[[diff thresh] q]|] eqn:Ec; [|discriminate].
  cbn [bind]. intros [= <- <- <- <-].
  do 5 eexists. repeat apply conj; first [eassumption | reflexivity].
Qed.

Lemma sample_laws : ExternLaws Sample.ext.
Proof.
  split; intros img; cbn; [|reflexivity].
  unfold dims. rewrite map_map. apply map_ext. intros r. apply length_map.
Qed.

(** * Properties stated by the specification *)

Lemma le_not_nan a b : Float64.le a b = true ->
  Float64.is_nan a = false /\ Float64.is_nan b = false.
Proof. destruct a, b; cbn; auto; discriminate. Qed.

Lemma eqb_le a b : Float64.eqb a b = true -> Float64.le a b = true.
Proof.
  unfold Float64.eqb, Float64.le, SFeqb, SFleb.
  destruct (SFcompare a b) as [[]|]; congruence.
Qed.

(** Five changed pixels of a hundred, at threshold 5.0: the percentage is
    5.0 exactly, and the door is CLOSED. *)
Example boundary_is_closed :
  change_percentage 5 100 = Float64.of_int 5
  /\ classify (change_percentage 5 100) (Float64.of_int 5) = CLOSED.
Proof. split; vm_compute; reflexivity. Qed.

(** Seven changed pixels of a hundred, at threshold 7.0: [7 / 100 * 100] is
    7.000000000000001 in binary64, above the threshold, and the door is OPEN.
    The comparison is on the computed percentage. *)
Example rounded_percentage_is_open :
  change_percentage 7 100 = S754_finite false 7881299347898369 (-50)
  /\ Float64.of_int 7 = S754_finite false 7881299347898368 (-50)
  /\ classify (change_percentage 7 100) (Float64.of_int 7) = OPEN.
Proof. repeat split; vm_compute; reflexivity. Qed.

(** Slices clip, and count a negative index from the end. *)
Example py_slice_examples :
  py_slice [1; 2; 3; 4] 1 3 = [2; 3]
  /\ py_slice [1; 2; 3; 4] 2 9 = [3; 4]
  /\ py_slice [1; 2; 3; 4] (-1) 0 = []
  /\ py_slice [1; 2; 3; 4] (-2) 3 = [3]
  /\ py_slice [1; 2; 3; 4] 0 0 = [].
Proof. repeat split; reflexivity. Qed.

(** C1. On a calibrated detector whose threshold [t] lies in [1.0, 15.0], a
    frame that is classified with change percentage [p] gets the status
    CLOSED exactly when [p <= t] and OPEN exactly when [p > t]; in particular
    [p == t] gives CLOSED.  The comparisons are Python's, on the binary64
    values the code computes; [p] is never NaN.  The reference is a numpy
    array, so it has fewer than 2^63 elements. *)
Theorem C1_classify_threshold {ext : Extern} (laws : ExternLaws ext)
    (d d' : SimpleDoorDetector) (roi : Z * Z * Z * Z) (reference : ndarray gray)
    (frame : ndarray bgr) (st : string) (proc : option processed) (p : float) :
  door_roi d = Some roi ->
  reference_closed d = Some reference ->
  Z.of_nat (size reference) < 2 ^ 63 ->
  Float64.le (Float64.of_int 1) (threshold_percentage d) = true ->
  Float64.le (threshold_percentage d) (Float64.of_int 15) = true ->
  detect_door_status d frame = Ok (d', (st, proc, p)) ->
  (st = CLOSED <-> Float64.le p (threshold_percentage d) = true)
  /\ (st = OPEN <-> Float64.gt p (threshold_percentage d) = true)
  /\ (Float64.eqb p (threshold_percentage d) = true -> st = CLOSED)
  /\ Float64.is_nan p = false.
Proof.
  intros Hroi Href Hsize Hlo Hhi Hdet.
  destruct (detect_calibrated_ok _ _ _ _ _ _ _ _ Hroi Href Hdet)
    as (current & diff & thresh & vis & colored & Hs & Hsc & Hst & _ & _).
  apply smooth_ok in Hs; [|assumption]. destruct Hs as [Hdims Harea].
  apply score_ok in Hsc. destruct Hsc as (Hrc & Hsz & _ & Hp).
  assert (Hpos : (0 < size thresh)%nat).
  { rewrite Hsz, (size_dims reference), Hrc, Hdims, <- size_dims. assumption. }
  assert (Hnan : Float64.is_nan p = false).
  { rewrite Hp. apply change_percentage_not_nan; [assumption | rewrite Hsz; assumption]. }
  destruct (le_not_nan _ _ Hhi) as [Ht _].
  pose proof (Float64Facts.gt_negb_le p _ Hnan Ht) as Hgt.
  assert (Hiff : st = CLOSED <-> Float64.le p (threshold_percentage d) = true).
  { rewrite Hst. unfold classify. rewrite Hgt.
    destruct (Float64.le p (threshold_percentage d)); cbn [negb];
      split; intros H; try reflexivity; discriminate. }
  split; [exact Hiff|]. split; [|split; [|exact Hnan]].
  - rewrite Hst. unfold classify. rewrite Hgt.
    destruct (Float64.le p (threshold_percentage d)); cbn [negb];
      split; intros H; try reflexivity; discriminate.
  - intros Heq. apply Hiff. apply eqb_le. assumption.
Qed.

Lemma C1_classify_threshold_witness :
  detect_door_status (ext := Sample.ext) Sample.calibrated Sample.bright
    = Ok (Sample.calibrated,
          (OPEN,
           Some (Sample.uniform 2 2 (200, 200, 200),
                 [[(190, 190, 190); (190, 190, 190)]; [(190, 190, 190); (190, 190, 190)]],
                 [[255; 255]; [255; 255]]),
           Float64.of_int 100))
  /\ (OPEN = CLOSED
      <-> Float64.le (Float64.of_int 100) (threshold_percentage Sample.calibrated) = true)
  /\ (OPEN = OPEN
      <-> Float64.gt (Float64.of_int 100) (threshold_percentage Sample.calibrated) = true)
  /\ (Float64.eqb (Float64.of_int 100) (threshold_percentage Sample.calibrated) = true
      -> OPEN = CLOSED)
  /\ Float64.is_nan (Float64.of_int 100) = false.
Proof.
  split; [vm_compute; reflexivity|].
  apply (C1_classify_threshold sample_laws Sample.calibrated Sample.calibrated
           (1, 1, 2, 2) [[10; 10]; [10; 10]] Sample.bright OPEN
           (Some (Sample.uniform 2 2 (200, 200, 200),
                  [[(190, 190, 190); (190, 190, 190)]; [(190, 190, 190); (190, 190, 190)]],
                  [[255; 255]; [255; 255]]))
           (Float64.of_int 100));
    try reflexivity.
Defined.

(** ** History *)

Lemma last_status_app h e : last_status (h ++ [e]) = Some (status e).
Proof. unfold last_status. rewrite rev_app_distr. reflexivity. Qed.

Lemma log_status_first now d st :
  history d = [] ->
  log_status now d st = with_history d [{| timestamp := now; status := st |}].
Proof. intros H. unfold log_status. rewrite H. reflexivity. Qed.

Lemma log_status_change now d st h e :
  history d = h ++ [e] -> status e <> st ->
  log_status now d st
  = with_history d (history d ++ [{| timestamp := now; status := st |}]).
Proof.
  intros H Hne. unfold log_status. rewrite H, last_last.
  apply String.eqb_neq in Hne. rewrite Hne, orb_true_r. reflexivity.
Qed.

Lemma log_status_same now d st h e :
  history d = h ++ [e] -> status e = st -> log_status now d st = d.
Proof.
  intros H He. unfold log_status. rewrite H, last_last.
  apply String.eqb_eq in He. rewrite He, length_app. cbn [length negb orb].
  replace (Nat.eqb (length h + 1) 0) with false; [reflexivity|].
  symmetry. apply Nat.eqb_neq. lia.
Qed.

Lemma snoc_cases {A : Type} (l : list A) : l = [] \/ exists h e, l = h ++ [e].
Proof. destruct l using rev_ind; [left; reflexivity | right; eauto]. Qed.

(** The statuses logged are the compression of the statuses seen, continuing
    from the last entry already there. *)
Lemma log_all_statuses events : forall d,
  map status (history (log_all d events))
  = map status (history d) ++ compress (last_status (history d)) (map snd events).
Proof.
  induction events as [|[now st] events IH]; intros d.
  - cbn. rewrite app_nil_r. reflexivity.
  - change (log_all d ((now, st) :: events)) with (log_all (log_status now d st) events).
    rewrite IH. cbn [map snd compress].
    destruct (snoc_cases (history d)) as [Hh|(h & e & Hh)].
    + rewrite (log_status_first _ _ _ Hh), Hh. reflexivity.
    + destruct (String.eqb (status e) st) eqn:Eq.
      * apply String.eqb_eq in Eq. rewrite (log_status_same _ _ _ _ _ Hh Eq).
        rewrite Hh, last_status_app, Eq, String.eqb_refl. reflexivity.
      * pose proof Eq as Hne. apply String.eqb_neq in Hne.
        rewrite (log_status_change _ _ _ _ _ Hh Hne).
        cbn [history with_history]. rewrite last_status_app.
        rewrite Hh, last_status_app, Eq, !map_app, <- !app_assoc. reflexivity.
Qed.

(** C2. [log_status] appends an entry exactly when the history is empty or
    its last entry has another status, so the history is the run-length
    compression of the statuses logged: the first status is an entry of its
    own, and CLOSED, CLOSED, OPEN, OPEN, CLOSED leaves three entries, CLOSED,
    OPEN, CLOSED, also when the five statuses come from five frames of the
    live stream. *)
Theorem C2_history_run_length :
  (forall now d st, history d = [] ->
     history (log_status now d st) = [{| timestamp := now; status := st |}])
  /\ (forall now d st h e, history d = h ++ [e] -> status e <> st ->
        history (log_status now d st)
        = history d ++ [{| timestamp := now; status := st |}])
  /\ (forall now d st h e, history d = h ++ [e] -> status e = st ->
        log_status now d st = d)
  /\ (forall events,
        map status (history (log_all SimpleDoorDetector_init events))
        = compress None (map snd events))
  /\ (forall t1 t2 t3 t4 t5,
        history (log_all SimpleDoorDetector_init
                   [(t1, CLOSED); (t2, CLOSED); (t3, OPEN); (t4, OPEN); (t5, CLOSED)])
        = [{| timestamp := t1; status := CLOSED |};
           {| timestamp := t3; status := OPEN |};
           {| timestamp := t5; status := CLOSED |}])
  /\ (let s0 := fst (start_live Sample.camera initial_session) in
      let s1 := fst (set_roi 1 1 2 2 s0) in
      let s2 := fst (calibrate (ext := Sample.ext) s1) in
      let s3 := fst (generate_live_frames (ext := Sample.ext)
                       ["09:00:01"; "09:00:02"; "09:00:03"; "09:00:04"; "09:00:05"]%string
                       s2) in
      option_map history (live_detector s3)
      = Some [{| timestamp := "09:00:01"; status := CLOSED |};
              {| timestamp := "09:00:03"; status := OPEN |};
              {| timestamp := "09:00:05"; status := CLOSED |}]).
Proof.
  split; [|split; [|split; [|split; [|split]]]].
  - intros now d st H. rewrite (log_status_first _ _ _ H). reflexivity.
  - intros now d st h e H Hne. rewrite (log_status_change _ _ _ _ _ H Hne). reflexivity.
  - intros now d st h e H He. apply (log_status_same _ _ _ _ _ H He).
  - intros events. rewrite log_all_statuses. reflexivity.
  - intros t1 t2 t3 t4 t5. reflexivity.
  - vm_compute. reflexivity.
Qed.

(** ** The uncalibrated detector *)

Lemma detect_uncalibrated {ext : Extern} d frame :
  door_roi d = None \/ reference_closed d = None ->
  detect_door_status d frame = Ok (d, (NOT_CALIBRATED, None, Float64.of_int 0)).
Proof.
  intros [H|H]; unfold detect_door_status; rewrite H; [reflexivity|].
  destruct (door_roi d); reflexivity.
Qed.

Lemma live_iteration_uncalibrated {ext : Extern} now s d :
  door_roi d = None \/ reference_closed d = None ->
  live_detector s = Some d ->
  live_detector (fst (live_iteration now s)) = Some d.
Proof.
  intros Hun Hd. unfold live_iteration.
  destruct (live_active s); cbn [negb]; [|assumption].
  destruct (live_camera s) as [cam|]; [|assumption].
  rewrite Hd. destruct (cap_read cam) as [[frame|] cam']; [|assumption].
  destruct (draw_door_frame d frame) as [display_frame|e]; [|assumption].
  rewrite (detect_uncalibrated d frame Hun). reflexivity.
Qed.

(** C3. On a detector whose ROI or reference is unset, [detect_door_status]
    returns the status "Not Calibrated" with no images and leaves the detector
    as it was, whatever the frame; a resumption of the live generator, and any
    run of it, leaves that detector, and so its history, as it was. *)
Theorem C3_uncalibrated_no_effect {ext : Extern} (d : SimpleDoorDetector) :
  door_roi d = None \/ reference_closed d = None ->
  (forall frame,
     detect_door_status d frame = Ok (d, (NOT_CALIBRATED, None, Float64.of_int 0)))
  /\ (forall now s, live_detector s = Some d ->
        live_detector (fst (live_iteration now s)) = Some d)
  /\ (forall clock s, live_detector s = Some d ->
        live_detector (fst (generate_live_frames clock s)) = Some d).
Proof.
  intros Hun. split; [|split].
  - intros frame. apply detect_uncalibrated. assumption.
  - intros now s. apply live_iteration_uncalibrated. assumption.
  - induction clock as [|now clock IH]; intros s Hd; [assumption|].
    cbn [generate_live_frames].
    pose proof (live_iteration_uncalibrated now s d Hun Hd) as Hstep.
    destruct (live_iteration now s) as [s' [chunk| |e]]; cbn [fst] in Hstep; try assumption.
    specialize (IH s' Hstep).
    destruct (generate_live_frames clock s') as [s'' chunks]. assumption.
Qed.

Lemma C3_uncalibrated_no_effect_witness :
  (door_roi Sample.with_roi = None \/ reference_closed Sample.with_roi = None)
  /\ (forall frame,
        detect_door_status (ext := Sample.ext) Sample.with_roi frame
        = Ok (Sample.with_roi, (NOT_CALIBRATED, None, Float64.of_int 0)))
  /\ (forall now s, live_detector s = Some Sample.with_roi ->
        live_detector (fst (live_iteration (ext := Sample.ext) now s))
        = Some Sample.with_roi)
  /\ (forall clock s, live_detector s = Some Sample.with_roi ->
        live_detector (fst (generate_live_frames (ext := Sample.ext) clock s))
        = Some Sample.with_roi).
Proof.
  split; [right; reflexivity|].
  apply (C3_uncalibrated_no_effect (ext := Sample.ext) Sample.with_roi).
  right. reflexivity.
Defined.

(** ** The stored status *)

Lemma detect_same_detector {ext : Extern} d frame d' out :
  detect_door_status d frame = Ok (d', out) -> d' = d.
Proof.
  unfold detect_door_status.
  destruct (door_roi d) as [roi|]; [|intros [= <- _]; reflexivity].
  destruct (reference_closed d) as [reference|]; [|intros [= <- _]; reflexivity].
  destruct (smooth (door_area frame roi)) as [current|]; [|discriminate].
  cbn [bind].
  destruct (score reference current) as [[[diff thresh] p]|]; [|discriminate].
  cbn [bind]. intros [= <- _]. reflexivity.
Qed.

Lemma log_status_fields now d st :
  door_roi (log_status now d st) = door_roi d
  /\ reference_closed (log_status now d st) = reference_closed d
  /\ door_status (log_status now d st) = door_status d
  /\ threshold_percentage (log_status now d st) = threshold_percentage d.
Proof. unfold log_status. destruct (_ || _); auto. Qed.

(** ** The threshold grid *)

(** Case analysis on [k] over [n], [n + 1], ...; each case is computed. *)
Ltac grid_cases k n fuel :=
  lazymatch fuel with
  | O => exfalso; lia
  | S ?f =>
      destruct (Z.eq_dec k n) as [->|?];
      [vm_compute; repeat split
      |let n' := eval cbv in (n + 1) in grid_cases k n' f]
  end.

Lemma increase_on_grid k : 2 <= k <= 30 ->
  py_max (Float64.of_int 1) (Float64.sub (Float64.half k) (Float64.half 1))
  = Float64.half (Z.max 2 (k - 1)).
Proof. intros Hk. grid_cases k 2 29%nat. Qed.

Lemma decrease_on_grid k : 2 <= k <= 30 ->
  py_min (Float64.of_int 15) (Float64.add (Float64.half k) (Float64.half 1))
  = Float64.half (Z.min 30 (k + 1)).
Proof. intros Hk. grid_cases k 2 29%nat. Qed.

Lemma on_grid_bounds t : on_grid t ->
  Float64.le (Float64.of_int 1) t = true /\ Float64.le t (Float64.of_int 15) = true.
Proof. intros (k & Hk & ->). grid_cases k 2 29%nat. Qed.

Lemma adjusted_on_grid action t : on_grid t -> on_grid (adjusted action t).
Proof.
  intros (k & Hk & ->). unfold adjusted.
  destruct action as [a|]; [|exists k; auto].
  destruct (String.eqb a "increase").
  - rewrite increase_on_grid by assumption. exists (Z.max 2 (k - 1)). split; [lia | reflexivity].
  - destruct (String.eqb a "decrease"); [|exists k; auto].
    rewrite decrease_on_grid by assumption. exists (Z.min 30 (k + 1)). split; [lia | reflexivity].
Qed.

(** ** What holds in every reachable session *)

Lemma init_detector_inv : detector_inv SimpleDoorDetector_init.
Proof. split; [exists 10; split; [lia | reflexivity] | reflexivity]. Qed.

Lemma calibrate_closed_inv {ext : Extern} d frame d' ok :
  calibrate_closed d frame = Ok (d', ok) -> detector_inv d -> detector_inv d'.
Proof.
  unfold calibrate_closed. destruct (door_roi d) as [roi|]; [|intros [= <- _]; auto].
  destruct (smooth (door_area frame roi)); [|discriminate].
  cbn [bind]. intros [= <- _]. auto.
Qed.

Lemma reachable_inv {ext : Extern} s : reachable s -> session_inv s.
Proof.
  induction 1 as [|s dev _ IH|s _ _|s x y w h _ IH|s _ IH|s _ IH|s action _ IH|s now _ IH].
  - split; [reflexivity | discriminate].
  - unfold start_live. destruct (live_active s) eqn:Ea; [exact IH|].
    destruct IH as [IHa IHd].
    destruct (negb (isOpened (VideoCapture_init dev))).
    + split; cbn; [intros _; auto | exact IHd].
    + split; cbn; [discriminate | intros d [= <-]; apply init_detector_inv].
  - split; cbn; [reflexivity | discriminate].
  - unfold set_roi. destruct (live_detector s) as [d|] eqn:Ed; [|exact IH].
    destruct IH as [IHa IHd]. split; cbn.
    + intros Ha. specialize (IHa Ha). congruence.
    + intros d' [= <-]. apply (IHd d Ed).
  - unfold calibrate. destruct (live_detector s) as [d|] eqn:Ed; [|exact IH].
    destruct (live_camera s) as [cam|]; [|exact IH].
    destruct IH as [IHa IHd].
    destruct (cap_read cam) as [[frame|] cam'].
    + destruct (calibrate_closed d frame) as [[d' ok]|e] eqn:Ec; split; cbn;
        try (intros Ha; specialize (IHa Ha); congruence).
      * intros d0 [= <-]. apply (calibrate_closed_inv _ _ _ _ Ec). apply IHd. assumption.
      * intros d0 [= <-]. apply IHd. assumption.
    + split; cbn; [intros Ha; specialize (IHa Ha); congruence|].
      intros d0 [= <-]. apply IHd. assumption.
  - unfold get_frame. destruct (live_camera s) as [cam|]; [|exact IH].
    destruct (cap_read cam) as [[frame|] cam']; exact IH.
  - unfold adjust_sensitivity. destruct (live_detector s) as [d|] eqn:Ed; [|exact IH].
    destruct IH as [IHa IHd]. split; cbn.
    + intros Ha. specialize (IHa Ha). congruence.
    + intros d' [= <-]. destruct (IHd d Ed) as [Hg Hs]. split; [|assumption].
      apply (adjusted_on_grid action). assumption.
  - unfold live_iteration. destruct (live_active s) eqn:Ea; cbn [negb]; [|exact IH].
    destruct (live_camera s) as [cam|] eqn:Ecam; [|exact IH].
    destruct (live_detector s) as [d|] eqn:Ed; [|exact IH].
    destruct IH as [IHa IHd].
    destruct (cap_read cam) as [[frame|] cam']; [|split; cbn; [congruence | assumption]].
    destruct (draw_door_frame d frame) as [display_frame|e];
      [|split; cbn; [congruence | assumption]].
    destruct (detect_door_status d frame) as [[d' [[st proc] p]]|e] eqn:Edet;
      [|split; cbn; [congruence | assumption]].
    apply detect_same_detector in Edet. subst d'.
    split; cbn; [congruence|]. intros d' [= <-].
    destruct (IHd d Ed) as [Hg Hs].
    destruct (_ || _); [|split; assumption].
    destruct (log_status_fields now d st) as (_ & _ & Hst & Ht).
    split; [rewrite Ht | rewrite Hst]; assumption.
Qed.

Lemma C4_stored_status_counterexample :
  exists d' st proc p,
    detect_door_status (ext := Sample.ext) Sample.calibrated Sample.dark
    = Ok (d', (st, proc, p))
    /\ st = CLOSED
    /\ door_status d' = UNKNOWN
    /\ door_status d' <> st.
Proof.
  do 4 eexists. split; [vm_compute; reflexivity|].
  split; [reflexivity|]. split; [reflexivity | discriminate].
Qed.

(** C4, as amended. A successful [detect_door_status] on a calibrated detector
    returns the newly computed OPEN or CLOSED value and leaves the detector as
    it was, its stored [door_status] included; in the detector of a live
    session that field is still the "Unknown" of [__init__], so it differs
    from the status returned. *)
Theorem C4_status_returned_not_stored {ext : Extern}
    (d d' : SimpleDoorDetector) (roi : Z * Z * Z * Z) (reference : ndarray gray)
    (frame : ndarray bgr) (st : string) (proc : option processed) (p : float) :
  door_roi d = Some roi ->
  reference_closed d = Some reference ->
  detect_door_status d frame = Ok (d', (st, proc, p)) ->
  (st = OPEN \/ st = CLOSED)
  /\ st = classify p (threshold_percentage d)
  /\ d' = d
  /\ door_status d' = door_status d
  /\ (forall s, reachable s -> live_detector s = Some d ->
        door_status d' = UNKNOWN /\ door_status d' <> st).
Proof.
  intros Hroi Href Hdet.
  destruct (detect_calibrated_ok _ _ _ _ _ _ _ _ Hroi Href Hdet)
    as (current & diff & thresh & vis & colored & _ & _ & Hst & _ & Hd).
  assert (Hcases : st = OPEN \/ st = CLOSED) by (rewrite Hst; apply classify_cases).
  split; [assumption|]. split; [assumption|]. split; [assumption|].
  split; [rewrite Hd; reflexivity|].
  intros s Hreach Hs. destruct (reachable_inv s Hreach) as [_ Hinv].
  destruct (Hinv d Hs) as [_ Hu]. subst d'. split; [assumption|].
  rewrite Hu. destruct Hcases as [-> | ->]; discriminate.
Qed.

Lemma C4_status_returned_not_stored_witness :
  (CLOSED = OPEN \/ CLOSED = CLOSED)
  /\ CLOSED = classify (S754_zero false) (threshold_percentage Sample.calibrated)
  /\ Sample.calibrated = Sample.calibrated
  /\ door_status Sample.calibrated = door_status Sample.calibrated
  /\ (forall s, reachable (ext := Sample.ext) s -> live_detector s = Some Sample.calibrated ->
        door_status Sample.calibrated = UNKNOWN /\ door_status Sample.calibrated <> CLOSED).
Proof.
  apply (C4_status_returned_not_stored (ext := Sample.ext)
           Sample.calibrated Sample.calibrated (1, 1, 2, 2) [[10; 10]; [10; 10]]
           Sample.dark CLOSED
           (Some ([[(10, 10, 10); (10, 10, 10)]; [(10, 10, 10); (10, 10, 10)]],
                  [[(0, 0, 0); (0, 0, 0)]; [(0, 0, 0); (0, 0, 0)]],
                  [[0; 0]; [0; 0]]))
           (S754_zero false));
    reflexivity.
Defined.

(** ** Sensitivity *)

Lemma adjusted_n_fixed action t n : adjusted action t = t -> adjusted_n action n t = t.
Proof.
  intros H. induction n as [|n IH]; [reflexivity|].
  change (adjusted_n action (S n) t) with (adjusted action (adjusted_n action n t)).
  rewrite IH. assumption.
Qed.

Lemma adjust_sensitivity_threshold action s d :
  live_detector s = Some d ->
  exists d',
    live_detector (fst (adjust_sensitivity action s)) = Some d'
    /\ threshold_percentage d' = adjusted action (threshold_percentage d)
    /\ door_roi d' = door_roi d
    /\ reference_closed d' = reference_closed d
    /\ history d' = history d
    /\ door_status d' = door_status d.
Proof.
  intros Hd. unfold adjust_sensitivity. rewrite Hd. cbn [fst live_detector].
  eexists. split; [reflexivity|]. repeat split.
Qed.

Lemma adjust_sensitivity_n_fixed action t :
  adjusted action t = t ->
  forall n s d,
    live_detector s = Some d -> threshold_percentage d = t ->
    threshold_of (adjust_sensitivity_n action n s) = Some t.
Proof.
  intros Hfix. induction n as [|n IH]; intros s d Hd Ht.
  - cbn. unfold threshold_of. rewrite Hd, Ht. reflexivity.
  - cbn [adjust_sensitivity_n].
    destruct (adjust_sensitivity_threshold action s d Hd) as (d' & Hd' & Ht' & _).
    apply (IH _ d' Hd'). rewrite Ht', Ht. exact Hfix.
Qed.

(** C5. In a live session, an "increase" request sets the threshold of the
    detector to [max(1.0, t - 0.5)] and a "decrease" request sets it to
    [min(15.0, t + 0.5)], [t] being the threshold before the request; the
    value is read back from the detector of the session after the request,
    and is the one the response carries.  The threshold is always [k / 2]
    for an integer [k] from 2 to 30, so a request moves it by exactly 0.5,
    down for "increase" and up for "decrease", unless it is at the bound it
    moves towards, where it stays; the threshold after a request is within
    [1.0, 15.0]; after any number of "increase" requests on a threshold of
    1.0 the detector holds 1.0, and after any number of "decrease" requests
    on 15.0 it holds 15.0.  Nothing else of the detector changes. *)
Theorem C5_sensitivity_steps_and_clamp {ext : Extern} (s : Session) (d : SimpleDoorDetector) :
  reachable s ->
  live_detector s = Some d ->
  let t := threshold_percentage d in
  (forall action,
     adjust_sensitivity action s
     = ({| live_detector := Some (with_threshold_percentage d (adjusted action t));
           live_camera := live_camera s;
           live_active := live_active s |},
        R_value true (adjusted action t)))
  /\ (forall action, exists d',
        live_detector (fst (adjust_sensitivity action s)) = Some d'
        /\ snd (adjust_sensitivity action s) = R_value true (threshold_percentage d')
        /\ threshold_percentage d' = adjusted action t
        /\ door_roi d' = door_roi d
        /\ reference_closed d' = reference_closed d
        /\ history d' = history d)
  /\ threshold_of (fst (adjust_sensitivity (Some "increase"%string) s))
     = Some (py_max (Float64.of_int 1) (Float64.sub t (Float64.half 1)))
  /\ threshold_of (fst (adjust_sensitivity (Some "decrease"%string) s))
     = Some (py_min (Float64.of_int 15) (Float64.add t (Float64.half 1)))
  /\ adjusted (Some "increase"%string) t
     = py_max (Float64.of_int 1) (Float64.sub t (Float64.half 1))
  /\ adjusted (Some "decrease"%string) t
     = py_min (Float64.of_int 15) (Float64.add t (Float64.half 1))
  /\ (exists k, 2 <= k <= 30
        /\ t = Float64.half k
        /\ adjusted (Some "increase"%string) t = Float64.half (Z.max 2 (k - 1))
        /\ adjusted (Some "decrease"%string) t = Float64.half (Z.min 30 (k + 1))
        /\ threshold_of (fst (adjust_sensitivity (Some "increase"%string) s))
           = Some (Float64.half (Z.max 2 (k - 1)))
        /\ threshold_of (fst (adjust_sensitivity (Some "decrease"%string) s))
           = Some (Float64.half (Z.min 30 (k + 1))))
  /\ (forall action,
        Float64.le (Float64.of_int 1) (adjusted action t) = true
        /\ Float64.le (adjusted action t) (Float64.of_int 15) = true)
  /\ (forall action, exists t',
        threshold_of (fst (adjust_sensitivity action s)) = Some t'
        /\ Float64.le (Float64.of_int 1) t' = true
        /\ Float64.le t' (Float64.of_int 15) = true)
  /\ (forall n, adjusted_n (Some "increase"%string) n (Float64.of_int 1) = Float64.of_int 1)
  /\ (forall n, adjusted_n (Some "decrease"%string) n (Float64.of_int 15) = Float64.of_int 15)
  /\ (forall n, t = Float64.of_int 1 ->
        threshold_of (adjust_sensitivity_n (Some "increase"%string) n s)
        = Some (Float64.of_int 1))
  /\ (forall n, t = Float64.of_int 15 ->
        threshold_of (adjust_sensitivity_n (Some "decrease"%string) n s)
        = Some (Float64.of_int 15)).
Proof.
  intros Hreach Hd t.
  destruct (reachable_inv s Hreach) as [_ Hinv]. destruct (Hinv d Hd) as [Hgrid _].
  fold t in Hgrid.
  assert (Hthr : forall action,
            threshold_of (fst (adjust_sensitivity action s)) = Some (adjusted action t)).
  { intros action. destruct (adjust_sensitivity_threshold action s d Hd) as (d' & Hd' & Ht' & _).
    unfold threshold_of. rewrite Hd', Ht'. reflexivity. }
  split; [intros action; unfold adjust_sensitivity; rewrite Hd; reflexivity|].
  split.
  { intros action.
    destruct (adjust_sensitivity_threshold action s d Hd)
      as (d' & Hd' & Ht' & Hroi & Href & Hh & _).
    exists d'. split; [exact Hd'|]. split.
    - rewrite Ht'. unfold adjust_sensitivity. rewrite Hd. reflexivity.
    - repeat split; assumption. }
  split; [apply Hthr|]. split; [apply Hthr|].
  split; [reflexivity|]. split; [reflexivity|].
  split; [|split; [|split; [|split; [|split; [|split]]]]].
  - destruct Hgrid as (k & Hk & Ht). exists k. rewrite !Hthr. rewrite Ht.
    split; [assumption|]. split; [reflexivity|].
    change (adjusted (Some "increase"%string) (Float64.half k))
      with (py_max (Float64.of_int 1) (Float64.sub (Float64.half k) (Float64.half 1))).
    change (adjusted (Some "decrease"%string) (Float64.half k))
      with (py_min (Float64.of_int 15) (Float64.add (Float64.half k) (Float64.half 1))).
    rewrite (increase_on_grid k Hk), (decrease_on_grid k Hk). repeat split.
  - intros action. apply on_grid_bounds. apply adjusted_on_grid. assumption.
  - intros action. exists (adjusted action t). split; [apply Hthr|].
    apply on_grid_bounds. apply adjusted_on_grid. assumption.
  - intros n. apply adjusted_n_fixed. vm_compute. reflexivity.
  - intros n. apply adjusted_n_fixed. vm_compute. reflexivity.
  - intros n Ht.
    apply (adjust_sensitivity_n_fixed (Some "increase"%string) (Float64.of_int 1)
             eq_refl n s d Hd Ht).
  - intros n Ht.
    apply (adjust_sensitivity_n_fixed (Some "decrease"%string) (Float64.of_int 15)
             eq_refl n s d Hd Ht).
Qed.

Lemma C5_sensitivity_steps_and_clamp_witness :
  let s := fst (start_live Sample.camera initial_session) in
  reachable (ext := Sample.ext) s
  /\ live_detector s = Some SimpleDoorDetector_init
  /\ (forall action,
        snd (adjust_sensitivity action s)
        = R_value true (adjusted action (Float64.of_int 5)))
  /\ threshold_of (fst (adjust_sensitivity (Some "increase"%string) s))
     = Some (Float64.half 9)
  /\ threshold_of (fst (adjust_sensitivity (Some "decrease"%string) s))
     = Some (Float64.half 11)
  /\ (forall action,
        Float64.le (Float64.of_int 1) (adjusted action (Float64.of_int 5)) = true
        /\ Float64.le (adjusted action (Float64.of_int 5)) (Float64.of_int 15) = true).
Proof.
  assert (Hreach : reachable (ext := Sample.ext) (fst (start_live Sample.camera initial_session)))
    by (apply reach_start, reach_initial).
  split; [exact Hreach|]. split; [reflexivity|].
  destruct (C5_sensitivity_steps_and_clamp (ext := Sample.ext)
              (fst (start_live Sample.camera initial_session)) SimpleDoorDetector_init
              Hreach eq_refl) as (Hroute & _ & Hinc & Hdec & _ & _ & _ & Hbounds & _).
  split; [|split; [|split; [|exact Hbounds]]].
  - intros action. rewrite Hroute. reflexivity.
  - rewrite Hinc. reflexivity.
  - rewrite Hdec. reflexivity.
Defined.

(** ** Stopping and starting *)

Lemma stop_live_eq s :
  stop_live s
  = (initial_session,
     R_history true match live_detector s with
                    | Some d => history d
                    | None => []
                    end).
Proof. unfold stop_live. destruct (live_camera s); reflexivity. Qed.

(** C6. [stop_live] answers with success and a history in every session, and
    leaves no detector, no camera handle and the session inactive; the history
    is empty when there is no detector, which is the case whenever the session
    is not active, so stopping twice, or stopping before any start, returns an
    empty history. *)
Theorem C6_stop_always_succeeds (s : Session) :
  exists h,
    stop_live s = (initial_session, R_history true h)
    /\ success_of (snd (stop_live s)) = true
    /\ live_detector (fst (stop_live s)) = None
    /\ live_camera (fst (stop_live s)) = None
    /\ live_active (fst (stop_live s)) = false
    /\ (live_detector s = None -> h = [])
    /\ (forall d, live_detector s = Some d -> h = history d)
    /\ (forall ext : Extern, reachable s -> live_active s = false -> h = [])
    /\ stop_live (fst (stop_live s)) = (initial_session, R_history true [])
    /\ stop_live initial_session = (initial_session, R_history true []).
Proof.
  rewrite !stop_live_eq. cbn [fst snd success_of live_detector live_camera live_active].
  eexists. split; [reflexivity|].
  repeat (split; [reflexivity|]).
  split; [intros ->; reflexivity|].
  split; [intros d ->; reflexivity|].
  split; [|split; reflexivity].
  intros ext Hreach Ha. destruct (reachable_inv s Hreach) as [Hinv _].
  rewrite (Hinv Ha). reflexivity.
Qed.

(** C10. When the session is not active and the camera does not open,
    [start_live] answers "Camera not available", leaves the session inactive
    and creates no detector, so the next [start_live] is not answered "Already
    running" and succeeds if the camera opens then; but the handle that failed
    to open is stored in [live_camera], so a session that had no handle is not
    left as it was. *)
Theorem C10_failed_start (s : Session) (dev : Device) :
  live_active s = false ->
  dev_available dev = false ->
  start_live dev s
  = ({| live_detector := live_detector s;
        live_camera := Some (VideoCapture_init dev);
        live_active := false |},
     R_message false "Camera not available")
  /\ isOpened (VideoCapture_init dev) = false
  /\ (forall ext : Extern, reachable s -> live_detector (fst (start_live dev s)) = None)
  /\ (forall dev', snd (start_live dev' (fst (start_live dev s)))
                   <> R_message false "Already running")
  /\ (forall dev', dev_available dev' = true ->
        snd (start_live dev' (fst (start_live dev s)))
        = R_message true "Live detection started")
  /\ (live_camera s = None -> fst (start_live dev s) <> s).
Proof.
  intros Ha Hdev.
  assert (Hstart : start_live dev s
                   = ({| live_detector := live_detector s;
                         live_camera := Some (VideoCapture_init dev);
                         live_active := false |},
                      R_message false "Camera not available")).
  { unfold start_live, isOpened, VideoCapture_init. cbn [cap_opened].
    rewrite Ha, Hdev. reflexivity. }
  split; [exact Hstart|]. rewrite Hstart. cbn [fst].
  split; [exact Hdev|].
  split; [|split; [|split]].
  - intros ext Hreach. destruct (reachable_inv s Hreach) as [Hinv _]. cbn. auto.
  - intros dev'. unfold start_live, isOpened, VideoCapture_init. cbn [live_active cap_opened].
    destruct (dev_available dev'); cbn [negb snd]; discriminate.
  - intros dev' Hdev'. unfold start_live, isOpened, VideoCapture_init.
    cbn [live_active cap_opened]. rewrite Hdev'. reflexivity.
  - intros Hcam Heq. apply (f_equal live_camera) in Heq. cbn in Heq. congruence.
Qed.

Lemma C10_failed_start_witness :
  live_active initial_session = false
  /\ dev_available Sample.no_camera = false
  /\ start_live Sample.no_camera initial_session
     = ({| live_detector := None;
           live_camera := Some (VideoCapture_init Sample.no_camera);
           live_active := false |},
        R_message false "Camera not available")
  /\ fst (start_live Sample.no_camera initial_session) <> initial_session
  /\ snd (start_live Sample.camera (fst (start_live Sample.no_camera initial_session)))
     = R_message true "Live detection started".
Proof.
  destruct (C10_failed_start initial_session Sample.no_camera eq_refl eq_refl)
    as (Hstart & _ & _ & _ & Hnext & Hchanged).
  split; [reflexivity|]. split; [reflexivity|].
  split; [exact Hstart|]. split; [exact (Hchanged eq_refl)|].
  exact (Hnext Sample.camera eq_refl).
Defined.

(** ** Calibration *)

Lemma calibrate_closed_no_roi {ext : Extern} d frame :
  door_roi d = None -> calibrate_closed d frame = Ok (d, false).
Proof. intros H. unfold calibrate_closed. rewrite H. reflexivity. Qed.

Lemma calibrate_closed_roi {ext : Extern} d roi frame :
  door_roi d = Some roi ->
  calibrate_closed d frame
  = (reference <- smooth (door_area frame roi) ;;
     Ok (with_reference_closed d (Some reference), true)).
Proof. intros H. unfold calibrate_closed. rewrite H. reflexivity. Qed.

Lemma C7_calibrate_raises_counterexample :
  door_roi Sample.degenerate = Some (0, 0, 0, 0)
  /\ calibrate_closed (ext := Sample.ext) Sample.degenerate Sample.dark
     = Raise (cv2_error "(-215:Assertion failed) !_src.empty() in function 'cvtColor'")
  /\ (forall d' ok,
        calibrate_closed (ext := Sample.ext) Sample.degenerate Sample.dark <> Ok (d', ok)).
Proof.
  split; [reflexivity|]. split; [vm_compute; reflexivity|].
  intros d' ok. vm_compute. discriminate.
Qed.

Lemma calibrate_closed_fields {ext : Extern} d roi frame :
  door_roi d = Some roi ->
  (0 < size (door_area frame roi))%nat ->
  exists d1 reference,
    calibrate_closed d frame = Ok (d1, true)
    /\ smooth (door_area frame roi) = Ok reference
    /\ reference_closed d1 = Some reference
    /\ door_roi d1 = Some roi
    /\ history d1 = history d
    /\ threshold_percentage d1 = threshold_percentage d
    /\ door_status d1 = door_status d.
Proof.
  intros Hroi Hpos. rewrite (calibrate_closed_roi d roi frame Hroi).
  rewrite (smooth_succeeds _ Hpos). cbn [bind].
  do 2 eexists. split; [reflexivity|]. split; [reflexivity|].
  split; [reflexivity|]. split; [exact Hroi|]. repeat split.
Qed.

(** C7, as amended. With the ROI set and unchanged, calibrating on [A] and
    then on [B] is calibrating on [B] alone, whatever [A] was: the same
    result and the same detector.  The reference read back from the detector
    after [B] is the smoothed door area of [B], and every later
    classification is the one the score against that reference gives, the
    same for every first frame.  [calibrate_closed] returns False exactly
    when the ROI is unset, and True, on a first call as on a repeated one,
    whenever the ROI is set and selects at least one pixel of the frame; when
    it selects none, the grey conversion raises. *)
Theorem C7_recalibration_replaces_reference {ext : Extern}
    (d : SimpleDoorDetector) (roi : Z * Z * Z * Z) (A B : ndarray bgr) :
  door_roi d = Some roi ->
  (forall frame, (0 < size (door_area frame roi))%nat ->
     exists d1 reference,
       calibrate_closed d frame = Ok (d1, true)
       /\ smooth (door_area frame roi) = Ok reference
       /\ reference_closed d1 = Some reference
       /\ door_roi d1 = Some roi
       /\ history d1 = history d
       /\ threshold_percentage d1 = threshold_percentage d
       /\ door_status d1 = door_status d)
  /\ (forall frame, size (door_area frame roi) = 0%nat ->
        exists msg, calibrate_closed d frame = Raise (cv2_error msg))
  /\ (forall d0 d1 frame,
        calibrate_closed d0 frame = Ok (d1, false) <-> door_roi d0 = None /\ d1 = d0)
  /\ (forall dA, calibrate_closed d A = Ok (dA, true) ->
        door_roi dA = Some roi
        /\ calibrate_closed dA B = calibrate_closed d B
        /\ (forall A' dA', calibrate_closed d A' = Ok (dA', true) ->
              calibrate_closed dA' B = calibrate_closed dA B)
        /\ (forall dB ok, calibrate_closed dA B = Ok (dB, ok) ->
              ok = true
              /\ calibrate_closed d B = Ok (dB, true)
              /\ exists reference,
                   smooth (door_area B roi) = Ok reference
                   /\ dB = with_reference_closed d (Some reference)
                   /\ reference_closed dB = Some reference
                   /\ door_roi dB = Some roi
                   /\ threshold_percentage dB = threshold_percentage d
                   /\ (forall frame current diff thresh p,
                         smooth (door_area frame roi) = Ok current ->
                         score reference current = Ok (diff, thresh, p) ->
                         exists vis colored,
                           detect_door_status dB frame
                           = Ok (dB, (classify p (threshold_percentage d),
                                      Some (vis, colored, thresh), p)))
                   /\ (forall A' dA' dB',
                         calibrate_closed d A' = Ok (dA', true) ->
                         calibrate_closed dA' B = Ok (dB', true) ->
                         reference_closed dB' = Some reference
                         /\ forall frame,
                              detect_door_status dB' frame = detect_door_status dB frame))
        /\ ((0 < size (door_area B roi))%nat ->
              exists reference,
                smooth (door_area B roi) = Ok reference
                /\ calibrate_closed dA B = Ok (with_reference_closed d (Some reference), true)
                /\ reference_closed (with_reference_closed d (Some reference))
                   = Some reference)
        /\ (size (door_area B roi) = 0%nat ->
              exists msg, calibrate_closed dA B = Raise (cv2_error msg))).
Proof.
  intros Hroi.
  split; [intros frame Hpos; apply calibrate_closed_fields; assumption|].
  split.
  { intros frame Hzero. rewrite (calibrate_closed_roi d roi frame Hroi).
    destruct (smooth_empty _ Hzero) as [msg ->]. exists msg. reflexivity. }
  split.
  { intros d0 d1 frame. unfold calibrate_closed.
    destruct (door_roi d0) as [r|].
    + destruct (smooth (door_area frame r)); cbn [bind];
        split; try discriminate; intros [? _]; discriminate.
    + split; [intros [= <-]; split; reflexivity | intros [_ ->]; reflexivity]. }
  intros dA HA.
  rewrite (calibrate_closed_roi d roi A Hroi) in HA.
  destruct (smooth (door_area A roi)) as [refA|] eqn:EA; [|discriminate].
  cbn [bind] in HA. injection HA as <-.
  assert (HroiA : door_roi (with_reference_closed d (Some refA)) = Some roi) by exact Hroi.
  assert (Hsame : calibrate_closed (with_reference_closed d (Some refA)) B
                  = calibrate_closed d B).
  { rewrite (calibrate_closed_roi _ roi B HroiA), (calibrate_closed_roi d roi B Hroi).
    reflexivity. }
  assert (Hany : forall A' dA', calibrate_closed d A' = Ok (dA', true) ->
                   calibrate_closed dA' B = calibrate_closed d B).
  { intros A' dA' HA'. rewrite (calibrate_closed_roi d roi A' Hroi) in HA'.
    destruct (smooth (door_area A' roi)) as [refA'|]; [|discriminate].
    cbn [bind] in HA'. injection HA' as <-.
    rewrite (calibrate_closed_roi (with_reference_closed d (Some refA')) roi B Hroi),
            (calibrate_closed_roi d roi B Hroi).
    reflexivity. }
  split; [exact HroiA|]. split; [exact Hsame|].
  rewrite Hsame.
  split; [exact Hany|].
  rewrite (calibrate_closed_roi d roi B Hroi).
  split; [|split].
  - intros dB ok. destruct (smooth (door_area B roi)) as [refB|] eqn:EB; [|discriminate].
    cbn [bind]. intros [= <- <-]. split; [reflexivity|]. split; [reflexivity|].
    exists refB. split; [reflexivity|]. split; [reflexivity|].
    split; [reflexivity|]. split; [exact Hroi|]. split; [reflexivity|]. split.
    + intros frame current diff thresh p Hs Hsc. unfold detect_door_status.
      cbn [with_reference_closed door_roi reference_closed threshold_percentage].
      rewrite Hroi, Hs. cbn [bind]. rewrite Hsc. cbn [bind].
      do 2 eexists. reflexivity.
    + intros A' dA' dB' HA' HB'. rewrite (Hany A' dA' HA') in HB'.
      rewrite (calibrate_closed_roi d roi B Hroi), EB in HB'. cbn [bind] in HB'.
      injection HB' as <-. split; [reflexivity|]. intros frame. reflexivity.
  - intros Hpos. rewrite (smooth_succeeds _ Hpos). eexists.
    split; [reflexivity|]. split; reflexivity.
  - intros Hzero. destruct (smooth_empty _ Hzero) as [msg ->]. exists msg. reflexivity.
Qed.

Lemma C7_recalibration_replaces_reference_witness :
  door_roi Sample.with_roi = Some (1, 1, 2, 2)
  /\ calibrate_closed (ext := Sample.ext) Sample.with_roi Sample.dark
     = Ok (Sample.calibrated, true)
  /\ calibrate_closed (ext := Sample.ext) Sample.calibrated Sample.bright
     = calibrate_closed (ext := Sample.ext) Sample.with_roi Sample.bright
  /\ calibrate_closed (ext := Sample.ext) Sample.calibrated Sample.bright
     = Ok (with_reference_closed Sample.with_roi (Some [[200; 200]; [200; 200]]), true)
  /\ reference_closed (with_reference_closed Sample.with_roi (Some [[200; 200]; [200; 200]]))
     = Some [[200; 200]; [200; 200]].
Proof.
  split; [reflexivity|]. split; [reflexivity|].
  destruct (C7_recalibration_replaces_reference (ext := Sample.ext)
              Sample.with_roi (1, 1, 2, 2) Sample.dark Sample.bright eq_refl)
    as (_ & _ & _ & Hrep).
  destruct (Hrep Sample.calibrated eq_refl) as (_ & Hsame & _ & HB & _).
  split; [exact Hsame|].
  destruct (HB (with_reference_closed Sample.with_roi (Some [[200; 200]; [200; 200]])) true
              eq_refl) as (_ & _ & reference & Hs & _ & Href & _).
  assert (Hr : reference = [[200; 200]; [200; 200]]).
  { assert (Hs' : smooth (ext := Sample.ext) (door_area Sample.bright (1, 1, 2, 2))
                  = Ok [[200; 200]; [200; 200]]) by reflexivity.
    rewrite Hs' in Hs. congruence. }
  subst reference. split; [reflexivity | exact Href].
Defined.

(** ** Scoring *)

(** C8. On a calibrated detector, when the door area of the frame has been
    cropped and smoothed and the result differs from the stored reference in
    its dimensions, the scoring step raises OpenCV's size-mismatch error, and
    so does [detect_door_status]; the live generator ends on it without
    touching the detector. *)
Theorem C8_shape_mismatch_raises {ext : Extern}
    (d : SimpleDoorDetector) (roi : Z * Z * Z * Z) (reference current : ndarray gray)
    (frame : ndarray bgr) :
  door_roi d = Some roi ->
  reference_closed d = Some reference ->
  smooth (door_area frame roi) = Ok current ->
  shape reference <> shape current \/ dims reference <> dims current ->
  score reference current
  = Raise (cv2_error "(-209:Sizes of input arguments do not match) in function 'arithm_op'")
  /\ detect_door_status d frame
     = Raise (cv2_error "(-209:Sizes of input arguments do not match) in function 'arithm_op'").
Proof.
  intros Hroi Href Hs Hne.
  assert (Hd : dims reference <> dims current).
  { destruct Hne as [Hne|Hne]; [|assumption]. intros H. apply Hne, dims_shape, H. }
  assert (Hsc : score reference current
                = Raise (cv2_error "(-209:Sizes of input arguments do not match) in function 'arithm_op'")).
  { unfold score, absdiff. destruct (dims_eqb (dims reference) (dims current)) eqn:E;
      [apply dims_eqb_true in E; contradiction | reflexivity]. }
  split; [exact Hsc|].
  unfold detect_door_status. rewrite Hroi, Href, Hs. cbn [bind]. rewrite Hsc. reflexivity.
Qed.

Lemma C8_shape_mismatch_raises_witness :
  let d := set_door_frame Sample.calibrated (0, 0, 3, 3) in
  door_roi d = Some (0, 0, 3, 3)
  /\ reference_closed d = Some [[10; 10]; [10; 10]]
  /\ smooth (ext := Sample.ext) (door_area Sample.dark (0, 0, 3, 3))
     = Ok [[10; 10; 10]; [10; 10; 10]; [10; 10; 10]]
  /\ shape [[10; 10]; [10; 10]] <> shape [[10; 10; 10]; [10; 10; 10]; [10; 10; 10]]
  /\ detect_door_status (ext := Sample.ext) d Sample.dark
     = Raise (cv2_error "(-209:Sizes of input arguments do not match) in function 'arithm_op'").
Proof.
  assert (Hne : shape [[10; 10]; [10; 10]] <> shape [[10; 10; 10]; [10; 10; 10]; [10; 10; 10]])
    by discriminate.
  split; [reflexivity|]. split; [reflexivity|]. split; [reflexivity|]. split; [exact Hne|].
  apply (C8_shape_mismatch_raises (ext := Sample.ext)
           (set_door_frame Sample.calibrated (0, 0, 3, 3)) (0, 0, 3, 3)
           [[10; 10]; [10; 10]] [[10; 10; 10]; [10; 10; 10]; [10; 10; 10]] Sample.dark
           eq_refl eq_refl eq_refl (or_introl Hne)).
Defined.

Lemma zip_with_diag {A C : Type} (f : A -> A -> C) l :
  zip_with f l l = map (fun a => f a a) l.
Proof.
  unfold zip_with. induction l as [|a l IH]; [reflexivity|].
  cbn [combine map fst snd]. f_equal. exact IH.
Qed.

Lemma absdiff_self img :
  absdiff img img = Ok (map (map (fun _ => 0)) img).
Proof.
  unfold absdiff.
  replace (dims_eqb (dims img) (dims img)) with true
    by (symmetry; apply dims_eqb_true; reflexivity).
  f_equal. rewrite zip_with_diag. apply map_ext. intros r.
  rewrite zip_with_diag. apply map_ext. intros a.
  rewrite Z.sub_diag. reflexivity.
Qed.

Lemma all_zero_map_const {A : Type} (a : ndarray A) : all_zero (map (map (fun _ => 0)) a).
Proof.
  unfold all_zero. apply Forall_map, Forall_forall. intros r _.
  apply Forall_map, Forall_forall. intros x _. reflexivity.
Qed.

Lemma threshold_zero (a : ndarray gray) : all_zero a -> all_zero (threshold a 30 255).
Proof.
  unfold all_zero, threshold. intros H. apply Forall_map.
  apply (Forall_impl _ (P := Forall (fun v => v = 0))); [|exact H].
  intros r Hr. apply Forall_map.
  apply (Forall_impl _ (P := fun v => v = 0)); [|exact Hr].
  intros v ->. reflexivity.
Qed.

Lemma filter_positive_zero (l : list Z) :
  Forall (fun v => v = 0) l -> filter (fun v => 0 <? v) l = [].
Proof.
  induction 1 as [|v l Hv _ IH]; [reflexivity|].
  cbn [filter]. rewrite Hv. cbn. exact IH.
Qed.

Lemma count_positive_zero (a : ndarray gray) : all_zero a -> count_positive a = 0%nat.
Proof.
  unfold all_zero, count_positive. intros H. apply Forall_concat in H.
  exact (f_equal (@length Z) (filter_positive_zero _ H)).
Qed.

(** Scoring an image with at least one pixel against itself. *)
Lemma score_self_zero (img : ndarray gray) :
  (0 < size img)%nat ->
  Z.of_nat (size img) < 2 ^ 63 ->
  exists diff thresh,
    score img img = Ok (diff, thresh, S754_zero false)
    /\ all_zero diff
    /\ all_zero thresh
    /\ count_positive thresh = 0%nat
    /\ dims thresh = dims img.
Proof.
  intros Hpos Hlt.
  set (diff := map (map (fun _ : gray => 0)) img).
  set (thresh := threshold diff 30 255).
  assert (Hdiff : all_zero diff) by apply all_zero_map_const.
  assert (Hthresh : all_zero thresh) by (apply threshold_zero; exact Hdiff).
  assert (Hdims : dims thresh = dims img).
  { unfold thresh. rewrite threshold_dims. unfold diff, dims.
    rewrite map_map. apply map_ext. intros r. apply length_map. }
  exists diff, thresh. split; [|repeat (split; [assumption|])].
  - unfold score. rewrite absdiff_self. cbn [bind]. fold diff. fold thresh.
    rewrite (count_positive_zero thresh Hthresh).
    rewrite change_percentage_zero; [reflexivity | |];
      rewrite size_dims, Hdims, <- size_dims; assumption.
  - split; [apply count_positive_zero; assumption | assumption].
Qed.

(** C9. Scoring a smoothed image against itself succeeds with a difference
    and a mask that are zero everywhere and a change percentage of exactly
    zero ([+0.0]).  A smoothed image is what the grey conversion and the blur
    return for a door area; being a numpy array it has fewer than 2^63
    elements. *)
Theorem C9_score_self_zero {ext : Extern} (laws : ExternLaws ext)
    (area : ndarray bgr) (img : ndarray gray) :
  smooth area = Ok img ->
  Z.of_nat (size img) < 2 ^ 63 ->
  exists diff thresh,
    score img img = Ok (diff, thresh, S754_zero false)
    /\ Float64.eqb (S754_zero false) (Float64.of_int 0) = true
    /\ all_zero diff
    /\ all_zero thresh
    /\ count_positive thresh = 0%nat
    /\ dims thresh = dims img.
Proof.
  intros Hs Hlt. apply (smooth_ok laws) in Hs. destruct Hs as [Hdims Hpos].
  assert (Himg : (0 < size img)%nat) by (rewrite size_dims, Hdims, <- size_dims; exact Hpos).
  destruct (score_self_zero img Himg Hlt) as (diff & thresh & Hsc & Hrest).
  exists diff, thresh. split; [exact Hsc|]. split; [reflexivity | exact Hrest].
Qed.

Lemma C9_score_self_zero_witness :
  smooth (ext := Sample.ext) (door_area Sample.dark (1, 1, 2, 2)) = Ok [[10; 10]; [10; 10]]
  /\ Z.of_nat (size [[10; 10]; [10; 10]]) < 2 ^ 63
  /\ exists diff thresh,
       score [[10; 10]; [10; 10]] [[10; 10]; [10; 10]] = Ok (diff, thresh, S754_zero false)
       /\ Float64.eqb (S754_zero false) (Float64.of_int 0) = true
       /\ all_zero diff
       /\ all_zero thresh
       /\ count_positive thresh = 0%nat
       /\ dims thresh = dims [[10; 10]; [10; 10]].
Proof.
  split; [reflexivity|]. split; [reflexivity|].
  exact (C9_score_self_zero sample_laws (door_area Sample.dark (1, 1, 2, 2))
           [[10; 10]; [10; 10]] eq_refl eq_refl).
Defined.

(** * Further properties *)

(** ** Slices and the door area *)

Lemma slice_index_range n i : 0 <= n -> 0 <= slice_index n i <= n.
Proof. intros Hn. unfold slice_index. destruct (i <? 0) eqn:E; lia. Qed.

Lemma length_py_slice {A : Type} (l : list A) start stop :
  length (py_slice l start stop) = slice_length (length l) start stop.
Proof.
  unfold py_slice, slice_length.
  pose proof (slice_index_range (Z.of_nat (length l)) start (Nat2Z.is_nonneg _)).
  pose proof (slice_index_range (Z.of_nat (length l)) stop (Nat2Z.is_nonneg _)).
  rewrite length_firstn, length_skipn. lia.
Qed.

Lemma slice_length_nonneg n start len :
  0 <= start -> 0 <= len ->
  slice_length n start (start + len)
  = Z.to_nat (Z.min (start + len) (Z.of_nat n) - Z.min start (Z.of_nat n)).
Proof.
  intros Hs Hl. unfold slice_length, slice_index.
  destruct (start + len <? 0) eqn:E1; [apply Z.ltb_lt in E1; lia|].
  destruct (start <? 0) eqn:E2; [apply Z.ltb_lt in E2; lia|]. lia.
Qed.

Lemma py_slice_map {A B : Type} (f : A -> B) l start stop :
  py_slice (map f l) start stop = map f (py_slice l start stop).
Proof. unfold py_slice. rewrite length_map, skipn_map, firstn_map. reflexivity. Qed.

Lemma skipn_repeat {A : Type} (x : A) k n : skipn k (repeat x n) = repeat x (n - k).
Proof.
  revert n. induction k as [|k IH]; intros n; [rewrite Nat.sub_0_r; reflexivity|].
  destruct n; [reflexivity|]. cbn. apply IH.
Qed.

Lemma firstn_repeat {A : Type} (x : A) k n : firstn k (repeat x n) = repeat x (Nat.min k n).
Proof.
  revert n. induction k as [|k IH]; intros n; [reflexivity|].
  destruct n; [reflexivity|]. cbn. f_equal. apply IH.
Qed.

Lemma py_slice_repeat {A : Type} (x : A) n start stop :
  py_slice (repeat x n) start stop = repeat x (slice_length n start stop).
Proof.
  unfold py_slice, slice_length. rewrite repeat_length, skipn_repeat, firstn_repeat.
  pose proof (slice_index_range (Z.of_nat n) start (Nat2Z.is_nonneg _)).
  f_equal. lia.
Qed.

Lemma rectangular_dims {A : Type} (a : ndarray A) :
  rectangular a -> dims a = repeat (snd (shape a)) (length a).
Proof.
  unfold rectangular. generalize (snd (shape a)). intros w H.
  induction a as [|r a IH]; [reflexivity|].
  cbn [dims map length repeat]. f_equal; [apply H; left; reflexivity|].
  apply IH. intros r' Hr'. apply H. right. assumption.
Qed.

Lemma crop_dims {A : Type} (a : ndarray A) y0 y1 x0 x1 :
  dims (crop a y0 y1 x0 x1)
  = map (fun n => slice_length n x0 x1) (py_slice (dims a) y0 y1).
Proof.
  unfold crop, dims. rewrite map_map, py_slice_map, map_map.
  apply map_ext. intros r. apply length_py_slice.
Qed.

(** The door area of two frames of one size has one size. *)
Lemma door_area_dims_same (A B : ndarray bgr) roi :
  dims A = dims B -> dims (door_area A roi) = dims (door_area B roi).
Proof.
  intros H. destruct roi as [[[x y] w] h]. unfold door_area.
  rewrite !crop_dims, H. reflexivity.
Qed.

Lemma size_repeat_dims {A : Type} (a : ndarray A) w h :
  dims a = repeat w h -> size a = (h * w)%nat.
Proof.
  intros H. rewrite size_dims, H. clear H.
  induction h as [|h IH]; [reflexivity|].
  change (list_sum (repeat w (S h))) with (w + list_sum (repeat w h))%nat. lia.
Qed.

Lemma door_area_dims_clip (frame : ndarray bgr) (x y w h : Z) :
  rectangular frame ->
  0 <= x -> 0 <= y -> 0 <= w -> 0 <= h ->
  dims (door_area frame (x, y, w, h))
  = repeat (Z.to_nat (Z.min (x + w) (Z.of_nat (snd (shape frame)))
                      - Z.min x (Z.of_nat (snd (shape frame)))))
           (Z.to_nat (Z.min (y + h) (Z.of_nat (fst (shape frame)))
                      - Z.min y (Z.of_nat (fst (shape frame))))).
Proof.
  intros Hrect Hx Hy Hw Hh.
  unfold door_area. rewrite crop_dims, (rectangular_dims frame Hrect), py_slice_repeat.
  rewrite map_repeat. rewrite !slice_length_nonneg by assumption. reflexivity.
Qed.

(** X1. The door area is the ROI clipped to the frame, with no error: for a
    frame of [H] rows and [W] columns and an ROI whose four numbers are not
    negative, it has [min(y+h, H) - min(y, H)] rows of
    [min(x+w, W) - min(x, W)] pixels; inside the frame that is [h] rows of
    [w] pixels. *)
Theorem door_area_is_clipped_roi (frame : ndarray bgr) (x y w h : Z) :
  rectangular frame ->
  0 <= x -> 0 <= y -> 0 <= w -> 0 <= h ->
  let H := Z.of_nat (fst (shape frame)) in
  let W := Z.of_nat (snd (shape frame)) in
  dims (door_area frame (x, y, w, h))
  = repeat (Z.to_nat (Z.min (x + w) W - Z.min x W))
           (Z.to_nat (Z.min (y + h) H - Z.min y H))
  /\ (x + w <= W -> y + h <= H ->
      dims (door_area frame (x, y, w, h)) = repeat (Z.to_nat w) (Z.to_nat h)
      /\ size (door_area frame (x, y, w, h)) = (Z.to_nat h * Z.to_nat w)%nat).
Proof.
  intros Hrect Hx Hy Hw Hh H W.
  pose proof (door_area_dims_clip frame x y w h Hrect Hx Hy Hw Hh) as Hd.
  fold H W in Hd. split; [exact Hd|]. intros HxW HyH.
  assert (Hd' : dims (door_area frame (x, y, w, h)) = repeat (Z.to_nat w) (Z.to_nat h)).
  { rewrite Hd. f_equal; lia. }
  split; [exact Hd' | apply size_repeat_dims; exact Hd'].
Qed.

Lemma sample_dark_rectangular : rectangular Sample.dark.
Proof. intros r Hr. cbn in Hr. repeat destruct Hr as [<-|Hr]; try reflexivity. contradiction. Qed.

Lemma door_area_is_clipped_roi_witness :
  rectangular Sample.dark
  /\ dims (door_area Sample.dark (3, 1, 2, 2)) = [1%nat; 1%nat]
  /\ dims (door_area Sample.dark (1, 1, 2, 2)) = [2%nat; 2%nat].
Proof.
  split; [exact sample_dark_rectangular|].
  split.
  - exact (proj1 (door_area_is_clipped_roi Sample.dark 3 1 2 2 sample_dark_rectangular
                    ltac:(lia) ltac:(lia) ltac:(lia) ltac:(lia))).
  - exact (proj1 (door_area_is_clipped_roi Sample.dark 1 1 2 2 sample_dark_rectangular
                    ltac:(lia) ltac:(lia) ltac:(lia) ltac:(lia))).
Defined.

Lemma smooth_ok_size {ext : Extern} (laws : ExternLaws ext) area g :
  smooth area = Ok g -> dims g = dims area /\ (0 < size g)%nat.
Proof.
  intros H. destruct (smooth_ok laws _ _ H) as [Hd Hs]. split; [exact Hd|].
  rewrite size_dims, Hd, <- size_dims. exact Hs.
Qed.



(** ** What the score says of the pixels *)

Lemma pixelwise_dims R a b : pixelwise R a b -> dims a = dims b.
Proof.
  unfold pixelwise, dims. induction 1 as [|r s a b Hrs _ IH]; [reflexivity|].
  cbn [map]. f_equal; [|exact IH]. induction Hrs; cbn; congruence.
Qed.

Lemma Forall2_zip_with {A B C : Type} (R : A -> B -> Prop) (P : C -> Prop) (f : A -> B -> C)
    l1 l2 :
  (forall a b, R a b -> P (f a b)) -> Forall2 R l1 l2 -> Forall P (zip_with f l1 l2).
Proof.
  intros HRP. unfold zip_with. induction 1 as [|a b l1 l2 Hab _ IH]; [constructor|].
  cbn [combine map fst snd]. constructor; [apply HRP; exact Hab | exact IH].
Qed.

Lemma absdiff_pixelwise R a b :
  pixelwise R a b ->
  absdiff a b = Ok (zip_with (zip_with (fun p q => saturate_u8 (Z.abs (p - q)))) a b).
Proof.
  intros H. unfold absdiff.
  replace (dims_eqb (dims a) (dims b)) with true; [reflexivity|].
  symmetry. apply dims_eqb_true. apply (pixelwise_dims R). exact H.
Qed.

Lemma threshold_forall (P Q : gray -> Prop) t v a :
  (forall p, P p -> Q (if t <? p then v else 0)) ->
  Forall (Forall P) a -> Forall (Forall Q) (threshold a t v).
Proof.
  intros HPQ H. unfold threshold. apply Forall_map.
  apply (Forall_impl _ (P := Forall P)); [|exact H].
  intros r Hr. apply Forall_map.
  apply (Forall_impl _ (P := P)); [|exact Hr]. exact HPQ.
Qed.

Lemma filter_positive_all (l : list Z) :
  Forall (fun v => 0 < v) l -> filter (fun v => 0 <? v) l = l.
Proof.
  induction 1 as [|v l Hv _ IH]; [reflexivity|].
  cbn [filter]. replace (0 <? v) with true by (symmetry; apply Z.ltb_lt; exact Hv).
  f_equal. exact IH.
Qed.

Lemma count_positive_all (a : ndarray gray) :
  Forall (Forall (fun v => 0 < v)) a -> count_positive a = size a.
Proof.
  unfold count_positive, size. intros H. apply Forall_concat in H.
  exact (f_equal (@length Z) (filter_positive_all _ H)).
Qed.

(** Dividing a finite float by itself gives 1.0. *)
Lemma div_self s m e :
  Float64.div (S754_finite s m e) (S754_finite s m e) = Float64.of_int 1.
Proof.
  unfold Float64.div, SFdiv, SFdiv_core_binary.
  rewrite !Z.sub_diag.
  change (IntDef.Z.min (fexp Float64.prec Float64.emax 0) 0) with (-53).
  change (0 - -53) with 53. lazy iota beta.
  change (IntDef.Z.div_eucl (IntDef.Z.shiftl (Z.pos m) 53) (Z.pos m))
    with (Z.div_eucl (Z.shiftl (Z.pos m) 53) (Z.pos m)).
  assert (Hdiv : Z.div_eucl (Z.shiftl (Z.pos m) 53) (Z.pos m) = (2 ^ 53, 0)).
  { pose proof (Z_div_mod (Z.shiftl (Z.pos m) 53) (Z.pos m) eq_refl) as H.
    destruct (Z.div_eucl (Z.shiftl (Z.pos m) 53) (Z.pos m)) as [q r].
    rewrite Z.shiftl_mul_pow2 in H by lia. destruct H as [H1 H2].
    change (2 ^ 53) with 9007199254740992 in *.
    assert (Hq : q = 9007199254740992) by nia.
    subst q. f_equal. lia. }
  rewrite Hdiv. destruct s; unfold new_location;
    destruct (Z.even (Z.pos m)); vm_compute; reflexivity.
Qed.

Lemma change_percentage_all n :
  (0 < n)%nat -> Z.of_nat n < 2 ^ 63 -> change_percentage n n = Float64.of_int 100.
Proof.
  intros Hpos Hlt. unfold change_percentage.
  destruct (Float64Facts.of_int_finite (Z.of_nat n)) as (m & e & ->); [lia|].
  rewrite div_self. vm_compute. reflexivity.
Qed.

(** [detect_door_status] once the door area is smoothed and scored. *)
Lemma detect_scored {ext : Extern} d roi reference frame current diff thresh p :
  door_roi d = Some roi ->
  reference_closed d = Some reference ->
  smooth (door_area frame roi) = Ok current ->
  score reference current = Ok (diff, thresh, p) ->
  exists vis colored,
    detect_door_status d frame
    = Ok (d, (classify p (threshold_percentage d), Some (vis, colored, thresh), p)).
Proof.
  intros Hroi Href Hs Hsc. unfold detect_door_status.
  rewrite Hroi, Href, Hs. cbn [bind]. rewrite Hsc. cbn [bind].
  do 2 eexists. reflexivity.
Qed.

Lemma score_pixelwise_closed reference current :
  pixelwise (fun r c => Z.abs (r - c) <= 30) reference current ->
  (0 < size reference)%nat -> Z.of_nat (size reference) < 2 ^ 63 ->
  exists diff thresh,
    score reference current = Ok (diff, thresh, S754_zero false) /\ all_zero thresh.
Proof.
  intros Hpix Hpos Hlt. unfold score. rewrite (absdiff_pixelwise _ _ _ Hpix). cbn [bind].
  set (diff := zip_with (zip_with (fun p q => saturate_u8 (Z.abs (p - q)))) reference current).
  set (thresh := threshold diff 30 255).
  assert (Hdiff : Forall (Forall (fun v => v <= 30)) diff).
  { apply (Forall2_zip_with (Forall2 (fun r c => Z.abs (r - c) <= 30))); [|exact Hpix].
    intros r c Hrc.
    apply (Forall2_zip_with (fun r c => Z.abs (r - c) <= 30)); [|exact Hrc].
    intros a b Hab. unfold saturate_u8. lia. }
  assert (Hthresh : all_zero thresh).
  { apply (threshold_forall (fun v => v <= 30)); [|exact Hdiff].
    intros v Hv. replace (30 <? v) with false; [reflexivity|].
    symmetry. apply Z.ltb_ge. exact Hv. }
  assert (Hsize : size thresh = size reference).
  { rewrite !size_dims. unfold thresh. rewrite threshold_dims. unfold diff.
    rewrite zip_with_dims; [reflexivity | apply (pixelwise_dims _ _ _ Hpix)]. }
  exists diff, thresh. split; [|exact Hthresh].
  rewrite (count_positive_zero thresh Hthresh), Hsize.
  rewrite change_percentage_zero by assumption. reflexivity.
Qed.

Lemma score_pixelwise_open reference current :
  pixelwise (fun r c => 30 < Z.abs (r - c)) reference current ->
  (0 < size reference)%nat -> Z.of_nat (size reference) < 2 ^ 63 ->
  exists diff thresh,
    score reference current = Ok (diff, thresh, Float64.of_int 100)
    /\ count_positive thresh = size reference.
Proof.
  intros Hpix Hpos Hlt. unfold score. rewrite (absdiff_pixelwise _ _ _ Hpix). cbn [bind].
  set (diff := zip_with (zip_with (fun p q => saturate_u8 (Z.abs (p - q)))) reference current).
  set (thresh := threshold diff 30 255).
  assert (Hdiff : Forall (Forall (fun v => 30 < v)) diff).
  { apply (Forall2_zip_with (Forall2 (fun r c => 30 < Z.abs (r - c)))); [|exact Hpix].
    intros r c Hrc.
    apply (Forall2_zip_with (fun r c => 30 < Z.abs (r - c))); [|exact Hrc].
    intros a b Hab. unfold saturate_u8. lia. }
  assert (Hthresh : Forall (Forall (fun v => 0 < v)) thresh).
  { apply (threshold_forall (fun v => 30 < v)); [|exact Hdiff].
    intros v Hv. replace (30 <? v) with true; [lia|].
    symmetry. apply Z.ltb_lt. exact Hv. }
  assert (Hsize : size thresh = size reference).
  { rewrite !size_dims. unfold thresh. rewrite threshold_dims. unfold diff.
    rewrite zip_with_dims; [reflexivity | apply (pixelwise_dims _ _ _ Hpix)]. }
  exists diff, thresh. rewrite (count_positive_all thresh Hthresh), Hsize.
  split; [|reflexivity].
  rewrite change_percentage_all by assumption. reflexivity.
Qed.

Lemma classify_zero_closed t :
  Float64.lt t (Float64.of_int 0) = false -> classify (S754_zero false) t = CLOSED.
Proof.
  intros H. unfold classify, Float64.gt. unfold Float64.lt in H.
  change (Float64.of_int 0) with (S754_zero false) in H. rewrite H. reflexivity.
Qed.

(** X3. When no pixel of the smoothed door area differs from the reference
    by more than 30 grey levels, the frame is classified CLOSED with a change
    percentage of [+0.0] and an empty mask, at every threshold that is not
    negative. *)
Theorem within_tolerance_is_closed {ext : Extern} (laws : ExternLaws ext)
    (d : SimpleDoorDetector) (roi : Z * Z * Z * Z) (reference current : ndarray gray)
    (frame : ndarray bgr) :
  door_roi d = Some roi ->
  reference_closed d = Some reference ->
  smooth (door_area frame roi) = Ok current ->
  pixelwise (fun r c => Z.abs (r - c) <= 30) reference current ->
  Z.of_nat (size reference) < 2 ^ 63 ->
  Float64.lt (threshold_percentage d) (Float64.of_int 0) = false ->
  exists vis colored thresh,
    detect_door_status d frame
    = Ok (d, (CLOSED, Some (vis, colored, thresh), S754_zero false))
    /\ all_zero thresh.
Proof.
  intros Hroi Href Hs Hpix Hlt Ht.
  assert (Hpos : (0 < size reference)%nat).
  { destruct (smooth_ok_size laws _ _ Hs) as [_ Hc].
    rewrite size_dims, (pixelwise_dims _ _ _ Hpix), <- size_dims. exact Hc. }
  destruct (score_pixelwise_closed _ _ Hpix Hpos Hlt) as (diff & thresh & Hsc & Hz).
  destruct (detect_scored d roi reference frame current diff thresh _ Hroi Href Hs Hsc)
    as (vis & colored & Hdet).
  rewrite (classify_zero_closed _ Ht) in Hdet.
  exists vis, colored, thresh. split; assumption.
Qed.

Lemma pixelwise_sample :
  pixelwise (fun r c => Z.abs (r - c) <= 30) [[10; 10]; [10; 10]] [[10; 10]; [10; 10]].
Proof. repeat constructor; cbn; lia. Qed.

Lemma within_tolerance_is_closed_witness :
  exists vis colored thresh,
    detect_door_status (ext := Sample.ext) Sample.calibrated Sample.dark
    = Ok (Sample.calibrated, (CLOSED, Some (vis, colored, thresh), S754_zero false))
    /\ all_zero thresh.
Proof.
  exact (within_tolerance_is_closed sample_laws Sample.calibrated (1, 1, 2, 2)
           [[10; 10]; [10; 10]] [[10; 10]; [10; 10]] Sample.dark
           eq_refl eq_refl eq_refl pixelwise_sample eq_refl eq_refl).
Defined.

(** X4. When every pixel of the smoothed door area differs from the reference
    by more than 30 grey levels, the change percentage is exactly 100.0 and
    the frame is classified OPEN at every threshold below 100. *)
Theorem all_changed_is_open {ext : Extern} (laws : ExternLaws ext)
    (d : SimpleDoorDetector) (roi : Z * Z * Z * Z) (reference current : ndarray gray)
    (frame : ndarray bgr) :
  door_roi d = Some roi ->
  reference_closed d = Some reference ->
  smooth (door_area frame roi) = Ok current ->
  pixelwise (fun r c => 30 < Z.abs (r - c)) reference current ->
  Z.of_nat (size reference) < 2 ^ 63 ->
  Float64.gt (Float64.of_int 100) (threshold_percentage d) = true ->
  exists vis colored thresh,
    detect_door_status d frame
    = Ok (d, (OPEN, Some (vis, colored, thresh), Float64.of_int 100))
    /\ count_positive thresh = size reference.
Proof.
  intros Hroi Href Hs Hpix Hlt Ht.
  assert (Hpos : (0 < size reference)%nat).
  { destruct (smooth_ok_size laws _ _ Hs) as [_ Hc].
    rewrite size_dims, (pixelwise_dims _ _ _ Hpix), <- size_dims. exact Hc. }
  destruct (score_pixelwise_open _ _ Hpix Hpos Hlt) as (diff & thresh & Hsc & Hcount).
  destruct (detect_scored d roi reference frame current diff thresh _ Hroi Href Hs Hsc)
    as (vis & colored & Hdet).
  unfold classify in Hdet. rewrite Ht in Hdet.
  exists vis, colored, thresh. split; assumption.
Qed.

Lemma pixelwise_sample_bright :
  pixelwise (fun r c => 30 < Z.abs (r - c)) [[10; 10]; [10; 10]] [[200; 200]; [200; 200]].
Proof. repeat constructor; cbn; lia. Qed.

Lemma all_changed_is_open_witness :
  exists vis colored thresh,
    detect_door_status (ext := Sample.ext) Sample.calibrated Sample.bright
    = Ok (Sample.calibrated, (OPEN, Some (vis, colored, thresh), Float64.of_int 100))
    /\ count_positive thresh = size [[10; 10]; [10; 10]].
Proof.
  exact (all_changed_is_open sample_laws Sample.calibrated (1, 1, 2, 2)
           [[10; 10]; [10; 10]] [[200; 200]; [200; 200]] Sample.bright
           eq_refl eq_refl eq_refl pixelwise_sample_bright eq_refl eq_refl).
Defined.

Lemma list_sum_firstn k l : (list_sum (firstn k l) <= list_sum l)%nat.
Proof.
  revert k. induction l as [|n l IH]; intros [|k]; simpl; try lia.
  fold (list_sum (firstn k l)). fold (list_sum l). specialize (IH k). lia.
Qed.

Lemma list_sum_skipn k l : (list_sum (skipn k l) <= list_sum l)%nat.
Proof.
  revert k. induction l as [|n l IH]; intros [|k]; simpl; try lia.
  fold (list_sum l). specialize (IH k). lia.
Qed.

Lemma list_sum_map_le (f : nat -> nat) l :
  (forall n, f n <= n)%nat -> (list_sum (map f l) <= list_sum l)%nat.
Proof.
  intros Hf. induction l as [|n l IH]; simpl; [lia|].
  fold (list_sum (map f l)). fold (list_sum l). specialize (Hf n). lia.
Qed.

Lemma slice_length_le n start stop : (slice_length n start stop <= n)%nat.
Proof.
  unfold slice_length.
  pose proof (slice_index_range (Z.of_nat n) start (Nat2Z.is_nonneg _)). lia.
Qed.

(** The door area has no more pixels than the frame. *)
Lemma door_area_size_le (frame : ndarray bgr) roi :
  (size (door_area frame roi) <= size frame)%nat.
Proof.
  destruct roi as [[[x y] w] h]. unfold door_area.
  rewrite !size_dims, crop_dims.
  etransitivity; [apply list_sum_map_le; intros n; apply slice_length_le|].
  unfold py_slice.
  etransitivity; [apply list_sum_firstn | apply list_sum_skipn].
Qed.

(** What a successful calibration stores. *)
Lemma calibrate_closed_ok {ext : Extern} d frame d' :
  calibrate_closed d frame = Ok (d', true) ->
  exists roi reference,
    door_roi d = Some roi
    /\ smooth (door_area frame roi) = Ok reference
    /\ d' = with_reference_closed d (Some reference).
Proof.
  unfold calibrate_closed. destruct (door_roi d) as [roi|]; [|discriminate].
  destruct (smooth (door_area frame roi)) as [reference|] eqn:Es; [|discriminate].
  cbn [bind]. intros [= <-]. exists roi, reference.
  repeat apply conj; first [reflexivity | exact Es].
Qed.

(** X5. The frame a detector was calibrated on is classified CLOSED with a
    change percentage of [+0.0] by the calibrated detector, at every threshold
    that is not negative. *)
Theorem calibration_frame_is_closed {ext : Extern} (laws : ExternLaws ext)
    (d d' : SimpleDoorDetector) (frame : ndarray bgr) :
  calibrate_closed d frame = Ok (d', true) ->
  Z.of_nat (size frame) < 2 ^ 63 ->
  Float64.lt (threshold_percentage d) (Float64.of_int 0) = false ->
  exists vis colored thresh,
    detect_door_status d' frame
    = Ok (d', (CLOSED, Some (vis, colored, thresh), S754_zero false))
    /\ all_zero thresh.
Proof.
  intros Hcal Hlt Ht.
  destruct (calibrate_closed_ok _ _ _ Hcal) as (roi & reference & Hroi & Hs & ->).
  destruct (smooth_ok_size laws _ _ Hs) as [Hd Hpos].
  assert (Hbound : Z.of_nat (size reference) < 2 ^ 63).
  { eapply Z.le_lt_trans; [|exact Hlt]. apply Nat2Z.inj_le.
    rewrite (size_dims reference), Hd, <- size_dims. apply door_area_size_le. }
  destruct (score_self_zero reference Hpos Hbound) as (diff & thresh & Hsc & _ & Hz & _).
  destruct (detect_scored (with_reference_closed d (Some reference)) roi reference frame
              reference diff thresh _ Hroi eq_refl Hs Hsc) as (vis & colored & Hdet).
  cbn [threshold_percentage with_reference_closed] in Hdet.
  rewrite (classify_zero_closed _ Ht) in Hdet.
  exists vis, colored, thresh. split; assumption.
Qed.

Lemma calibration_frame_is_closed_witness :
  calibrate_closed (ext := Sample.ext) Sample.with_roi Sample.dark
  = Ok (Sample.calibrated, true)
  /\ exists vis colored thresh,
       detect_door_status (ext := Sample.ext) Sample.calibrated Sample.dark
       = Ok (Sample.calibrated, (CLOSED, Some (vis, colored, thresh), S754_zero false))
       /\ all_zero thresh.
Proof.
  split; [reflexivity|].
  exact (calibration_frame_is_closed sample_laws Sample.with_roi Sample.calibrated
           Sample.dark eq_refl eq_refl eq_refl).
Defined.

(** A calibrated detector classifies a frame whose door area has the size
    of the reference and at least one pixel. *)
Lemma calibrated_detect_ok {ext : Extern} (laws : ExternLaws ext)
    d roi reference (B : ndarray bgr) :
  door_roi d = Some roi ->
  reference_closed d = Some reference ->
  dims reference = dims (door_area B roi) ->
  (0 < size (door_area B roi))%nat ->
  exists st proc p,
    detect_door_status d B = Ok (d, (st, proc, p)) /\ (st = OPEN \/ st = CLOSED).
Proof.
  intros Hroi Href Hdims HposB.
  pose proof (smooth_succeeds _ HposB) as HsB.
  destruct (smooth_ok laws _ _ HsB) as [Hdcur _].
  set (current := GaussianBlur_15x15 (cvtColor_BGR2GRAY (door_area B roi))) in *.
  assert (Hsame : dims reference = dims current) by congruence.
  destruct (score reference current) as [[[diff thresh] p]|e] eqn:Hsc.
  - destruct (detect_scored d roi reference B current diff thresh p Hroi Href HsB Hsc)
      as (vis & colored & Hdet).
    do 3 eexists. split; [exact Hdet | apply classify_cases].
  - exfalso. unfold score, absdiff in Hsc.
    replace (dims_eqb (dims reference) (dims current)) with true in Hsc
      by (symmetry; apply dims_eqb_true; exact Hsame).
    discriminate.
Qed.

(** X6. After a successful calibration, every frame of the size of the
    calibration frame is classified, OPEN or CLOSED: neither the grey
    conversion nor the comparison with the reference raises. *)
Theorem same_size_frame_classifies {ext : Extern} (laws : ExternLaws ext)
    (d d' : SimpleDoorDetector) (A B : ndarray bgr) :
  calibrate_closed d A = Ok (d', true) ->
  dims B = dims A ->
  exists st proc p,
    detect_door_status d' B = Ok (d', (st, proc, p)) /\ (st = OPEN \/ st = CLOSED).
Proof.
  intros Hcal Hdims.
  destruct (calibrate_closed_ok _ _ _ Hcal) as (roi & reference & Hroi & Hs & ->).
  destruct (smooth_ok laws _ _ Hs) as [Hdref HposA].
  pose proof (door_area_dims_same B A roi Hdims) as Harea.
  apply (calibrated_detect_ok laws _ roi reference B); [exact Hroi | reflexivity | |].
  - congruence.
  - rewrite size_dims, Harea, <- size_dims. exact HposA.
Qed.

Lemma same_size_frame_classifies_witness :
  calibrate_closed (ext := Sample.ext) Sample.with_roi Sample.dark
  = Ok (Sample.calibrated, true)
  /\ dims Sample.bright = dims Sample.dark
  /\ exists st proc p,
       detect_door_status (ext := Sample.ext) Sample.calibrated Sample.bright
       = Ok (Sample.calibrated, (st, proc, p))
       /\ (st = OPEN \/ st = CLOSED).
Proof.
  split; [reflexivity|]. split; [reflexivity|].
  exact (same_size_frame_classifies sample_laws Sample.with_roi Sample.calibrated
           Sample.dark Sample.bright eq_refl eq_refl).
Defined.

(** ** The order of floats *)

Module Float64OrderFacts.
Import Float64Order.

Lemma SFcompare_key x y :
  SFcompare x y
  = match key x, key y with
    | Some k, Some k' => Some (lex k k')
    | _, _ => None
    end.
Proof.
  destruct x as [sx|sx| |sx mx ex], y as [sy|sy| |sy my ey];
    try (destruct sx); try (destruct sy); try reflexivity.
  cbn [SFcompare key lex]. change (-1 ?= -1) with Eq. cbv iota.
  rewrite Z.compare_opp, (Z.compare_antisym ex ey).
  destruct (ex ?= ey); reflexivity.
Qed.

Lemma lex_lt k k' :
  lex k k' = Lt <->
  (let '(a, b, c) := k in let '(a', b', c') := k' in
   a < a' \/ (a = a' /\ (b < b' \/ (b = b' /\ c < c')))).
Proof.
  destruct k as [[a b] c], k' as [[a' b'] c']. unfold lex.
  destruct (Z.compare_spec a a'), (Z.compare_spec b b'), (Z.compare_spec c c');
    split; intros Hx; try discriminate; try reflexivity; lia.
Qed.

Lemma lex_le k k' :
  lex k k' <> Gt <->
  (let '(a, b, c) := k in let '(a', b', c') := k' in
   a < a' \/ (a = a' /\ (b < b' \/ (b = b' /\ c <= c')))).
Proof.
  destruct k as [[a b] c], k' as [[a' b'] c']. unfold lex.
  destruct (Z.compare_spec a a'), (Z.compare_spec b b'), (Z.compare_spec c c');
    split; intros Hx; try discriminate; try congruence; lia.
Qed.

Lemma le_lt_trans a b c :
  Float64.le a b = true -> Float64.lt b c = true -> Float64.lt a c = true.
Proof.
  unfold Float64.le, Float64.lt, SFleb, SFltb. rewrite !SFcompare_key.
  destruct (key a) as [ka|], (key b) as [kb|], (key c) as [kc|]; try discriminate.
  intros Hab Hbc.
  assert (Hab' : lex ka kb <> Gt) by (destruct (lex ka kb); congruence).
  assert (Hbc' : lex kb kc = Lt) by (destruct (lex kb kc); congruence).
  apply lex_le in Hab'. apply lex_lt in Hbc'.
  replace (lex ka kc) with Lt; [reflexivity|]. symmetry. apply lex_lt.
  destruct ka as [[a1 a2] a3], kb as [[b1 b2] b3], kc as [[c1 c2] c3]. lia.
Qed.

End Float64OrderFacts.

Lemma increase_le_on_grid t : on_grid t ->
  Float64.le (adjusted (Some "increase"%string) t) t = true
  /\ Float64.le t (adjusted (Some "decrease"%string) t) = true.
Proof. intros (k & Hk & ->). grid_cases k 2 29%nat. Qed.

(** X7. Lowering the threshold never turns OPEN into CLOSED and raising it
    never turns CLOSED into OPEN, for one and the same change percentage; so
    in a live session a frame classified OPEN stays OPEN after an "increase"
    request, and one classified CLOSED stays CLOSED after a "decrease". *)
Theorem threshold_is_monotone (p t t' : float) :
  Float64.le t' t = true ->
  (classify p t = OPEN -> classify p t' = OPEN)
  /\ (classify p t' = CLOSED -> classify p t = CLOSED)
  /\ (on_grid t' ->
      classify p t' = OPEN -> classify p (adjusted (Some "increase"%string) t') = OPEN)
  /\ (on_grid t ->
      classify p t = CLOSED -> classify p (adjusted (Some "decrease"%string) t) = CLOSED).
Proof.
  intros Hle.
  assert (Hmono : forall a b, Float64.le a b = true -> classify p b = OPEN -> classify p a = OPEN).
  { intros a b Hab. unfold classify, Float64.gt.
    destruct (SFltb b p) eqn:Hb; [|discriminate]. intros _.
    pose proof (Float64OrderFacts.le_lt_trans a b p Hab Hb) as Ha.
    unfold Float64.lt in Ha. rewrite Ha. reflexivity. }
  assert (Hanti : forall a b, Float64.le a b = true -> classify p a = CLOSED -> classify p b = CLOSED).
  { intros a b Hab Ha. destruct (classify_cases p b) as [Hb|Hb]; [|exact Hb].
    rewrite (Hmono a b Hab Hb) in Ha. discriminate. }
  split; [apply Hmono; exact Hle|]. split; [apply Hanti; exact Hle|]. split.
  - intros Hg. apply Hmono. apply increase_le_on_grid. exact Hg.
  - intros Hg. apply Hanti. apply increase_le_on_grid. exact Hg.
Qed.

Lemma threshold_is_monotone_witness :
  Float64.le (Float64.of_int 3) (Float64.of_int 5) = true
  /\ (classify (Float64.of_int 7) (Float64.of_int 5) = OPEN ->
      classify (Float64.of_int 7) (Float64.of_int 3) = OPEN).
Proof.
  split; [reflexivity|].
  exact (proj1 (threshold_is_monotone (Float64.of_int 7) (Float64.of_int 5)
                  (Float64.of_int 3) eq_refl)).
Defined.

(** ** The live session *)

(** A property of detectors that the methods keep holds of the detector of
    every reachable session. *)
Lemma reachable_detector_ind {ext : Extern} (P : SimpleDoorDetector -> Prop) :
  P SimpleDoorDetector_init ->
  (forall d roi, P d -> P (set_door_frame d roi)) ->
  (forall d r, P d -> P (with_reference_closed d r)) ->
  (forall d t, P d -> P (with_threshold_percentage d t)) ->
  (forall d now st, P d -> st = OPEN \/ st = CLOSED -> P (log_status now d st)) ->
  forall s, reachable s -> forall d, live_detector s = Some d -> P d.
Proof.
  intros Hinit Hroi Href Hthr Hlog.
  induction 1 as [|s dev _ IH|s _ _|s x y w h _ IH|s _ IH|s _ IH|s action _ IH|s now _ IH];
    intros d0.
  - discriminate.
  - unfold start_live. destruct (live_active s); [exact (IH d0)|].
    destruct (negb (isOpened (VideoCapture_init dev))); cbn; [exact (IH d0)|].
    intros [= <-]. exact Hinit.
  - rewrite stop_live_eq. discriminate.
  - unfold set_roi. destruct (live_detector s) as [d|] eqn:Ed in |- *; [|exact (IH d0)].
    cbn. intros [= <-]. apply Hroi. apply IH. exact Ed.
  - unfold calibrate. destruct (live_detector s) as [d|] eqn:Ed in |- *; [|exact (IH d0)].
    destruct (live_camera s) as [cam|]; [|exact (IH d0)].
    destruct (cap_read cam) as [[frame|] cam']; [|cbn; intros [= <-]; apply IH; exact Ed].
    destruct (calibrate_closed d frame) as [[d' ok]|e] eqn:Ec;
      [|cbn; intros [= <-]; apply IH; exact Ed].
    cbn. intros [= <-]. unfold calibrate_closed in Ec.
    destruct (door_roi d); [|injection Ec as <- _; apply IH; exact Ed].
    destruct (smooth _); [|discriminate]. cbn [bind] in Ec. injection Ec as <- _.
    apply Href. apply IH. exact Ed.
  - unfold get_frame. destruct (live_camera s) as [cam|]; [|exact (IH d0)].
    destruct (cap_read cam) as [[frame|] cam']; exact (IH d0).
  - unfold adjust_sensitivity. destruct (live_detector s) as [d|] eqn:Ed in |- *;
      [|exact (IH d0)].
    cbn. intros [= <-]. apply Hthr. apply IH. exact Ed.
  - unfold live_iteration. destruct (live_active s); cbn [negb]; [|exact (IH d0)].
    destruct (live_camera s) as [cam|]; [|exact (IH d0)].
    destruct (live_detector s) as [d|] eqn:Ed in |- *; [|exact (IH d0)].
    destruct (cap_read cam) as [[frame|] cam']; [|exact (IH d0)].
    destruct (draw_door_frame d frame) as [display_frame|e]; [|exact (IH d0)].
    destruct (detect_door_status d frame) as [[d' [[st proc] p]]|e] eqn:Edet; [|exact (IH d0)].
    apply detect_same_detector in Edet. subst d'.
    cbn. intros [= <-].
    destruct (String.eqb st OPEN) eqn:Eo.
    + apply String.eqb_eq in Eo. apply Hlog; [apply IH; exact Ed | left; exact Eo].
    + destruct (String.eqb st CLOSED) eqn:Ecl; cbn [orb]; [|apply IH; exact Ed].
      apply String.eqb_eq in Ecl. apply Hlog; [apply IH; exact Ed | right; exact Ecl].
Qed.

Lemma alternating_snoc h e e' :
  alternating (h ++ [e]) -> status e <> status e' -> alternating ((h ++ [e]) ++ [e']).
Proof.
  induction h as [|a h IH]; intros Halt Hne.
  - cbn. auto.
  - destruct h as [|b h].
    + cbn in *. destruct Halt as [Hab _]. auto.
    + change (alternating (a :: ((b :: h) ++ [e]) ++ [e'])).
      change (alternating (a :: (b :: h) ++ [e])) in Halt.
      cbn [app alternating] in Halt |- *. destruct Halt as [Hab Halt].
      split; [exact Hab|]. apply IH; assumption.
Qed.

Lemma log_status_history_ok now d st :
  history_ok (history d) -> st = OPEN \/ st = CLOSED ->
  history_ok (history (log_status now d st)).
Proof.
  intros [Halt Hval] Hst.
  destruct (snoc_cases (history d)) as [Hh|(h & e & Hh)].
  - rewrite (log_status_first _ _ _ Hh). cbn. split; [exact I|]. constructor; [exact Hst | constructor].
  - destruct (String.eqb (status e) st) eqn:Eq.
    + apply String.eqb_eq in Eq. rewrite (log_status_same _ _ _ _ _ Hh Eq). split; assumption.
    + apply String.eqb_neq in Eq. rewrite (log_status_change _ _ _ _ _ Hh Eq).
      cbn [history with_history]. split.
      * rewrite Hh in *. apply alternating_snoc; assumption.
      * apply Forall_app. split; [exact Hval|]. constructor; [exact Hst | constructor].
Qed.

(** X8. In every reachable live session the history holds only the statuses
    OPEN and CLOSED, and no two neighbouring entries have the same status:
    the log alternates. *)
Theorem live_history_alternates {ext : Extern} (s : Session) (d : SimpleDoorDetector) :
  reachable s ->
  live_detector s = Some d ->
  alternating (history d)
  /\ Forall (fun e => status e = OPEN \/ status e = CLOSED) (history d)
  /\ (forall h1 e1 e2 h2, history d = h1 ++ e1 :: e2 :: h2 ->
        (status e1 = OPEN /\ status e2 = CLOSED) \/ (status e1 = CLOSED /\ status e2 = OPEN)).
Proof.
  intros Hreach Hd.
  assert (Hok : history_ok (history d)).
  { apply (reachable_detector_ind (fun d => history_ok (history d))) with (s := s); auto.
    - split; [exact I | constructor].
    - intros d0 now st. apply log_status_history_ok. }
  destruct Hok as [Halt Hval]. split; [exact Halt|]. split; [exact Hval|].
  intros h1 e1 e2 h2 Hh. rewrite Hh in Halt, Hval.
  assert (Hne : status e1 <> status e2).
  { clear Hval Hh. induction h1 as [|a h1 IH]; [exact (proj1 Halt)|].
    apply IH. destruct h1; cbn in Halt; apply Halt. }
  apply Forall_app in Hval. destruct Hval as [_ Hval].
  inversion Hval as [|? ? H1 Hval']; subst. inversion Hval' as [|? ? H2 _]; subst.
  destruct H1 as [H1|H1], H2 as [H2|H2]; auto; congruence.
Qed.

Lemma reachable_generate {ext : Extern} clock : forall s,
  reachable s -> reachable (fst (generate_live_frames clock s)).
Proof.
  induction clock as [|now clock IH]; intros s Hs; [exact Hs|].
  cbn [generate_live_frames].
  pose proof (reach_live s now Hs) as Hstep.
  destruct (live_iteration now s) as [s' [chunk| |e]]; cbn [fst] in Hstep; try exact Hstep.
  specialize (IH s' Hstep).
  destruct (generate_live_frames clock s') as [s'' chunks]. exact IH.
Qed.

Lemma sample_running_reachable : reachable (ext := Sample.ext) SampleLive.after_five.
Proof.
  unfold SampleLive.after_five, SampleLive.calibrated_session.
  apply reachable_generate, reach_calibrate, reach_set_roi, reach_start, reach_initial.
Qed.

Lemma live_history_alternates_witness :
  reachable (ext := Sample.ext) SampleLive.after_five
  /\ option_map history (live_detector SampleLive.after_five)
     = Some [{| timestamp := "09:00:01"; status := CLOSED |};
             {| timestamp := "09:00:03"; status := OPEN |};
             {| timestamp := "09:00:05"; status := CLOSED |}]
  /\ alternating [{| timestamp := "09:00:01"; status := CLOSED |};
                  {| timestamp := "09:00:03"; status := OPEN |};
                  {| timestamp := "09:00:05"; status := CLOSED |}].
Proof.
  split; [exact sample_running_reachable|]. split; [vm_compute; reflexivity|].
  exact (proj1 (live_history_alternates (ext := Sample.ext) SampleLive.after_five
                  SampleLive.detector_after_five sample_running_reachable eq_refl)).
Defined.

Lemma cap_read_keeps cam :
  cap_opened cam = true ->
  cap_opened (snd (cap_read cam)) = true /\ cap_props (snd (cap_read cam)) = cap_props cam.
Proof.
  intros H. unfold cap_read. rewrite H. destruct (cap_frames cam); cbn; auto.
Qed.

(** X9. While a reachable live session is active it has a detector and an
    opened camera handle set to 640 by 480, and it has a detector only while
    it is active; [start_live] on an active session answers "Already running"
    and changes nothing, so no second camera is opened and the detector with
    its history is kept. *)
Theorem one_active_session {ext : Extern} (s : Session) :
  reachable s ->
  (live_active s = true ->
   exists d cam,
     live_detector s = Some d
     /\ live_camera s = Some cam
     /\ cap_opened cam = true
     /\ cap_props cam = [(CAP_PROP_FRAME_HEIGHT, 480); (CAP_PROP_FRAME_WIDTH, 640)])
  /\ (live_active s = false -> live_detector s = None)
  /\ (live_active s = true ->
      forall dev, start_live dev s = (s, R_message false "Already running")).
Proof.
  intros Hreach.
  assert (Hinactive : live_active s = false -> live_detector s = None)
    by (apply (reachable_inv s Hreach)).
  split; [|split; [exact Hinactive|]];
    [|intros Ha dev; unfold start_live; rewrite Ha; reflexivity].
  clear Hinactive.
  induction Hreach as [|s dev _ IH|s _ _|s x y w h _ IH|s _ IH|s _ IH|s action _ IH|s now _ IH].
  - discriminate.
  - unfold start_live. destruct (live_active s) eqn:Ea in |- *; [exact IH|].
    destruct (negb (isOpened (VideoCapture_init dev))) eqn:Eo; cbn; [discriminate|].
    intros _. do 2 eexists. repeat apply conj; try reflexivity.
    unfold isOpened in Eo. cbn in Eo |- *.
    destruct (dev_available dev); [reflexivity | discriminate].
  - rewrite stop_live_eq. discriminate.
  - unfold set_roi. destruct (live_detector s) as [d|] eqn:Ed in |- *; [|exact IH].
    cbn. intros Ha. destruct (IH Ha) as (d1 & cam & _ & Hc & Ho & Hp).
    exists (set_door_frame d (x, y, w, h)), cam. auto.
  - unfold calibrate. destruct (live_detector s) as [d|] eqn:Ed in |- *; [|exact IH].
    destruct (live_camera s) as [cam|] eqn:Ecam in |- *; [|exact IH].
    pose proof (cap_read_keeps cam) as Hkeep.
    destruct (cap_read cam) as [[frame|] cam']; cbn [snd] in Hkeep.
    + destruct (calibrate_closed d frame) as [[d' ok]|e]; cbn; intros Ha;
        destruct (IH Ha) as (d1 & cam1 & _ & Hc & Ho & Hp);
        rewrite Ecam in Hc; injection Hc as <-; destruct (Hkeep Ho) as [Ho' Hp'];
        do 2 eexists; repeat apply conj; first [reflexivity | eassumption | congruence].
    + cbn. intros Ha. destruct (IH Ha) as (d1 & cam1 & _ & Hc & Ho & Hp).
      rewrite Ecam in Hc. injection Hc as <-. destruct (Hkeep Ho) as [Ho' Hp'].
      do 2 eexists. repeat apply conj; first [reflexivity | eassumption | congruence].
  - unfold get_frame. destruct (live_camera s) as [cam|] eqn:Ecam in |- *; [|exact IH].
    pose proof (cap_read_keeps cam) as Hkeep.
    destruct (cap_read cam) as [[frame|] cam']; cbn [snd] in Hkeep; cbn; intros Ha;
      destruct (IH Ha) as (d1 & cam1 & Hd & Hc & Ho & Hp);
      rewrite Ecam in Hc; injection Hc as <-; destruct (Hkeep Ho) as [Ho' Hp'];
      exists d1; eexists; repeat apply conj; first [reflexivity | eassumption | congruence].
  - unfold adjust_sensitivity. destruct (live_detector s) as [d|] eqn:Ed in |- *; [|exact IH].
    cbn. intros Ha. destruct (IH Ha) as (d1 & cam & _ & Hc & Ho & Hp).
    eexists; exists cam. auto.
  - unfold live_iteration. destruct (live_active s) eqn:Ea in |- *; cbn [negb]; [|exact IH].
    destruct (live_camera s) as [cam|] eqn:Ecam in |- *; [|exact IH].
    destruct (live_detector s) as [d|] eqn:Ed in |- *; [|exact IH].
    pose proof (cap_read_keeps cam) as Hkeep.
    destruct (IH Ea) as (d1 & cam1 & _ & Hc & Ho & Hp).
    rewrite Ecam in Hc. injection Hc as <-. destruct (Hkeep Ho) as [Ho' Hp'].
    destruct (cap_read cam) as [[frame|] cam']; cbn [snd] in Ho', Hp'.
    + destruct (draw_door_frame d frame) as [display_frame|e];
        [destruct (detect_door_status d frame) as [[d' [[st proc] p]]|e]|]; cbn; intros _;
        do 2 eexists; repeat apply conj; first [reflexivity | eassumption | congruence].
    + cbn. intros _. do 2 eexists. repeat apply conj; first [reflexivity | eassumption | congruence].
Qed.

Lemma one_active_session_witness :
  reachable (ext := Sample.ext) SampleLive.after_five
  /\ live_active SampleLive.after_five = true
  /\ exists d cam,
       live_detector SampleLive.after_five = Some d
       /\ live_camera SampleLive.after_five = Some cam
       /\ cap_opened cam = true
       /\ cap_props cam = [(CAP_PROP_FRAME_HEIGHT, 480); (CAP_PROP_FRAME_WIDTH, 640)].
Proof.
  split; [exact sample_running_reachable|]. split; [vm_compute; reflexivity|].
  exact (proj1 (one_active_session (ext := Sample.ext) SampleLive.after_five
                  sample_running_reachable) eq_refl).
Defined.

Lemma live_iteration_active {ext : Extern} now s :
  live_active (fst (live_iteration now s)) = live_active s.
Proof.
  unfold live_iteration.
  destruct (live_active s) eqn:Ea; cbn [negb]; [|exact Ea].
  destruct (live_camera s) as [cam|]; [|exact Ea].
  destruct (live_detector s) as [d|]; [|exact Ea].
  destruct (cap_read cam) as [[frame|] cam']; [|exact Ea].
  destruct (draw_door_frame d frame) as [display_frame|e]; [|exact Ea].
  destruct (detect_door_status d frame) as [[d' [[st proc] p]]|e]; exact Ea.
Qed.

(** One resumption of the live generator: what it reads and what it logs. *)
Lemma live_iteration_effect {ext : Extern} now s :
  exists tail,
    history_of (fst (live_iteration now s)) = history_of s ++ tail
    /\ match snd (live_iteration now s) with
       | Yield _ =>
           (length tail <= 1)%nat
           /\ frames_left s = S (frames_left (fst (live_iteration now s)))
       | StopIteration =>
           tail = [] /\ frames_left (fst (live_iteration now s)) = frames_left s
       | Raised _ =>
           tail = [] /\ frames_left s = S (frames_left (fst (live_iteration now s)))
       end.
Proof.
  assert (Hnil : forall s1 : Session,
            history_of s1 = history_of s -> frames_left s1 = frames_left s ->
            exists tail, history_of s1 = history_of s ++ tail
                 /\ (tail = [] /\ frames_left s1 = frames_left s)).
  { intros s1 H2 H3. exists []. rewrite app_nil_r. auto. }
  unfold live_iteration.
  destruct (live_active s) eqn:Ea; cbn [negb]; [|apply Hnil; reflexivity].
  destruct (live_camera s) as [cam|] eqn:Ecam in |- *; [|apply Hnil; reflexivity].
  destruct (live_detector s) as [d|] eqn:Ed in |- *; [|apply Hnil; reflexivity].
  unfold cap_read.
  destruct (cap_opened cam) eqn:Eo;
    [|apply Hnil; unfold history_of, frames_left; cbn; rewrite ?Ecam, ?Eo; reflexivity].
  destruct (cap_frames cam) as [|frame rest] eqn:Ef;
    [apply Hnil; unfold history_of, frames_left; cbn; rewrite ?Ecam, ?Eo, ?Ef; reflexivity|].
  assert (Hfr : frames_left s = S (length rest))
    by (unfold frames_left; rewrite Ecam, Eo, Ef; reflexivity).
  assert (Hhs : history_of s = history d) by (unfold history_of; rewrite Ed; reflexivity).
  destruct (draw_door_frame d frame) as [display_frame|e];
    [|cbn [fst snd]; exists []; rewrite app_nil_r, Hfr, Hhs;
      unfold history_of, frames_left; cbn; rewrite Ed; auto].
  destruct (detect_door_status d frame) as [[d' [[st proc] p]]|e] eqn:Edet.
  - apply detect_same_detector in Edet. subst d'. cbn [fst snd].
    rewrite Hfr, Hhs. unfold history_of, frames_left. cbn.
    destruct (String.eqb st OPEN || String.eqb st CLOSED);
      [|exists []; rewrite app_nil_r; auto].
    unfold log_status. destruct (_ || _); cbn [history with_history].
    + eexists. split; [reflexivity|]. cbn. auto.
    + exists []. rewrite app_nil_r. auto.
  - cbn [fst snd]. exists []. rewrite app_nil_r, Hfr, Hhs.
    unfold history_of, frames_left. cbn. rewrite Ed. auto.
Qed.

(** X10. A run of the live generator yields at most one chunk per request of
    the consumer and per frame the camera delivers: every chunk costs one
    frame.  The history only grows, by at most one entry per chunk, and the
    session stays active or inactive as it was. *)
Theorem live_stream_is_bounded {ext : Extern} (clock : list string) (s : Session) :
  let s' := fst (generate_live_frames clock s) in
  let chunks := snd (generate_live_frames clock s) in
  (length chunks <= length clock)%nat
  /\ (length chunks + frames_left s' <= frames_left s)%nat
  /\ live_active s' = live_active s
  /\ exists tail,
       history_of s' = history_of s ++ tail /\ (length tail <= length chunks)%nat.
Proof.
  revert s. induction clock as [|now clock IH]; intros s.
  - cbn. repeat split; try lia. exists []. rewrite app_nil_r. auto.
  - cbn [generate_live_frames].
    pose proof (live_iteration_effect now s) as Hstep.
    pose proof (live_iteration_active now s) as Ha.
    destruct (live_iteration now s) as [s1 r]. cbn [fst snd] in Hstep, Ha.
    destruct Hstep as (tail1 & Hh & Hr).
    destruct r as [chunk| |e].
    + specialize (IH s1). cbn zeta in IH.
      destruct (generate_live_frames clock s1) as [s2 chunks]. cbn [fst snd] in IH |- *.
      destruct IH as (Hc & Hf & Ha2 & tail2 & Hh2 & Ht2). destruct Hr as [Ht1 Hf1].
      cbn [length]. repeat split; try lia; try congruence.
      exists (tail1 ++ tail2). rewrite Hh2, Hh, <- app_assoc. split; [reflexivity|].
      rewrite length_app. lia.
    + cbn [fst snd length]. destruct Hr as [-> Hf1]. repeat split; try lia; try assumption.
      exists []. rewrite Hh. auto.
    + cbn [fst snd length]. destruct Hr as [-> Hf1]. repeat split; try lia; try assumption.
      exists []. rewrite Hh. auto.
Qed.

(** X11. Nothing carries over from one live session to the next: after
    [stop_live] the generator yields nothing and reads no frame, and the
    [start_live] that follows, when the camera opens, begins with the detector
    of [__init__], so the threshold is 5.0 again and ROI, reference and
    history are empty, whatever the stopped session had. *)
Theorem sessions_do_not_carry_over {ext : Extern} (s : Session) (dev : Device)
    (clock : list string) :
  dev_available dev = true ->
  generate_live_frames clock (fst (stop_live s)) = (initial_session, [])
  /\ live_detector (fst (start_live dev (fst (stop_live s)))) = Some SimpleDoorDetector_init
  /\ live_active (fst (start_live dev (fst (stop_live s)))) = true
  /\ snd (start_live dev (fst (stop_live s))) = R_message true "Live detection started"
  /\ threshold_percentage SimpleDoorDetector_init = Float64.of_int 5
  /\ history SimpleDoorDetector_init = []
  /\ door_roi SimpleDoorDetector_init = None
  /\ reference_closed SimpleDoorDetector_init = None.
Proof.
  intros Hdev. rewrite stop_live_eq. cbn [fst].
  split; [destruct clock; reflexivity|].
  unfold start_live, isOpened, VideoCapture_init. cbn [live_active cap_opened].
  rewrite Hdev. cbn. repeat split.
Qed.

Lemma sessions_do_not_carry_over_witness :
  dev_available Sample.camera = true
  /\ history_of SampleLive.after_five <> []
  /\ live_detector (fst (start_live Sample.camera (fst (stop_live SampleLive.after_five))))
     = Some SimpleDoorDetector_init.
Proof.
  split; [reflexivity|]. split; [vm_compute; discriminate|].
  exact (proj1 (proj2 (sessions_do_not_carry_over (ext := Sample.ext)
                          SampleLive.after_five Sample.camera [] eq_refl))).
Defined.

(** ** The video job *)

Lemma disk_lookup_head path c disk : disk_lookup ((path, c) :: disk) path = Some c.
Proof. cbn. rewrite String.eqb_refl. reflexivity. Qed.

Lemma upload_path_nonempty filename :
  String.eqb (os_path_join "uploads" filename) "" = false.
Proof.
  unfold os_path_join. destruct filename as [|c f]; [reflexivity|].
  destruct (String.prefix "/" (String c f)); reflexivity.
Qed.

Lemma truthy_path_some path :
  String.eqb path "" = false -> truthy_path (Some path) = Some path.
Proof. intros H. unfold truthy_path. rewrite H. reflexivity. Qed.

Lemma with_video_detector_same vs d :
  video_detector vs = Some d -> with_video_detector vs d = vs.
Proof. destruct vs as [vd p f]. cbn. intros ->. reflexivity. Qed.

Lemma playback_iteration_job {ext : Extern} {px : PlaybackExtern} vs g :
  fst (fst (playback_iteration vs g)) = vs.
Proof.
  unfold playback_iteration. destruct (cap_read (pb_cap g)) as [[frame|] cap]; [|reflexivity].
  destruct (video_detector vs) as [d|] eqn:Ed; [|reflexivity].
  destruct (draw_video_roi d frame) as [display_frame|e]; [|reflexivity].
  destruct (detect_door_status d frame) as [[d' [[st proc] p]]|e] eqn:Edet; [|reflexivity].
  apply detect_same_detector in Edet. subst d'.
  rewrite (with_video_detector_same vs d Ed).
  destruct (time_str (pb_frame_count g) (pb_fps g)); [|reflexivity].
  destruct (shape _). reflexivity.
Qed.

Lemma file_save_lookup io content path disk disk' :
  file_save io content path disk = Returned disk' ->
  disk' = (path, File content) :: disk /\ disk_lookup disk' path = Some (File content).
Proof.
  unfold file_save. intros H.
  assert (Hd : disk' = (path, File content) :: disk).
  { destruct (disk_lookup disk path) as [[|c]|]; try discriminate;
      destruct (save_error io); try discriminate; congruence. }
  split; [exact Hd | rewrite Hd; apply disk_lookup_head].
Qed.

(** What [upload_video] leaves of the job, for each way it can go. *)
Lemma upload_video_job {ext : Extern} up io disk vs :
  snd (fst (upload_video (Some up) io disk vs))
  = match os_makedirs_uploads io disk with
    | Escaped _ =>
        {| video_detector := video_detector vs;
           current_video_path := current_video_path vs;
           video_filename := Some (up_filename up) |}
    | Returned disk1 =>
        match file_save io (up_content up) (os_path_join "uploads" (up_filename up)) disk1 with
        | Escaped _ =>
            {| video_detector := video_detector vs;
               current_video_path := Some (os_path_join "uploads" (up_filename up));
               video_filename := Some (up_filename up) |}
        | Returned _ =>
            {| video_detector := Some SimpleDoorDetector_init;
               current_video_path := Some (os_path_join "uploads" (up_filename up));
               video_filename := Some (up_filename up) |}
        end
    end.
Proof.
  unfold upload_video. destruct (os_makedirs_uploads io disk) as [disk1|e]; [|reflexivity].
  destruct (file_save _ _ _ disk1) as [disk2|e]; [|reflexivity].
  destruct (py_int _); [|reflexivity].
  destruct (fst (cap_read _)); reflexivity.
Qed.

Lemma upload_video_state {ext : Extern} up io disk disk' vs :
  stored io up disk disk' ->
  fst (upload_video (Some up) io disk vs)
  = (disk',
     {| video_detector := Some SimpleDoorDetector_init;
        current_video_path := Some (os_path_join "uploads" (up_filename up));
        video_filename := Some (up_filename up) |}).
Proof.
  intros (disk1 & Hm & Hs). unfold upload_video. rewrite Hm, Hs.
  destruct (py_int _); [|reflexivity].
  destruct (fst (cap_read _)); reflexivity.
Qed.

Lemma stored_lookup io up disk disk' :
  stored io up disk disk' ->
  disk_lookup disk' (os_path_join "uploads" (up_filename up)) = Some (File (up_content up)).
Proof. intros (disk1 & _ & Hs). apply (file_save_lookup _ _ _ _ _ Hs). Qed.

Lemma video_reachable_ok {ext : Extern} {px : PlaybackExtern} disk vs :
  video_reachable disk vs -> video_job_ok vs.
Proof.
  induction 1 as [|disk vs req io _ IH|disk vs x y w h _ IH|disk vs _ IH|disk vs g _ IH].
  - split; [discriminate|]. split; [reflexivity|]. split; [reflexivity | discriminate].
  - destruct req as [up|]; [|exact IH]. rewrite upload_video_job.
    destruct IH as (Hd & Hn & Hf & Hp).
    assert (Hne : os_path_join "uploads" (up_filename up) <> EmptyString).
    { intros Hp'. pose proof (upload_path_nonempty (up_filename up)) as Hne.
      rewrite Hp' in Hne. discriminate. }
    destruct (os_makedirs_uploads io disk) as [disk1|e];
      [destruct (file_save _ _ _ disk1) as [disk2|e]|]; cbn.
    + split; [intros d [= <-]; auto|]. split; [discriminate|]. split; [discriminate|].
      intros path [= <-]. exact Hne.
    + split; [exact Hd|]. split; [discriminate|]. split; [discriminate|].
      intros path [= <-]. exact Hne.
    + split; [exact Hd|]. split; [exact Hn|]. split; [discriminate | exact Hp].
  - unfold set_video_roi. destruct (video_detector vs) as [d|] eqn:Ed in |- *; [|exact IH].
    destruct IH as (Hd & Hn & Hf & Hp). cbn. split; [|split; [|split]].
    + intros d' [= <-]. apply (Hd d Ed).
    + intros Hnone. specialize (Hn Hnone). congruence.
    + exact Hf.
    + exact Hp.
  - unfold calibrate_video. destruct (video_detector vs) as [d|] eqn:Ed in |- *; [|exact IH].
    destruct (truthy_path (current_video_path vs)) as [path|]; [|exact IH].
    destruct (cap_read _) as [[frame|] cap]; [|exact IH].
    destruct (calibrate_closed d frame) as [[d' ok]|e] eqn:Ec; [|exact IH].
    destruct IH as (Hd & Hn & Hf & Hp). cbn. split; [|split; [|split]].
    + intros d0 [= <-]. unfold calibrate_closed in Ec.
      destruct (door_roi d); [|injection Ec as <- _; apply (Hd d Ed)].
      destruct (smooth _); [|discriminate]. cbn [bind] in Ec. injection Ec as <- _.
      apply (Hd d Ed).
    + intros Hnone. specialize (Hn Hnone). congruence.
    + exact Hf.
    + exact Hp.
  - rewrite playback_iteration_job. exact IH.
Qed.

(** X12. The video detector never logs and is never tuned: in every reachable
    video job its history is empty, its threshold is 5.0 and its stored
    status "Unknown".  A job with a detector has a path, a job with a path
    has a file name, and the path is never the empty string; a resumption of
    the playback generator leaves the job as it was.  A path does not imply
    a detector: an upload whose [save] raises leaves the path it was given
    and the detector that was there, which is none on a first upload. *)
Theorem video_job_invariant {ext : Extern} {px : PlaybackExtern}
    (disk : Disk) (vs : VideoJob) :
  video_reachable disk vs ->
  (forall d, video_detector vs = Some d ->
     history d = []
     /\ threshold_percentage d = Float64.of_int 5
     /\ door_status d = UNKNOWN)
  /\ (current_video_path vs = None -> video_detector vs = None)
  /\ (video_filename vs = None -> current_video_path vs = None)
  /\ (forall path, current_video_path vs = Some path ->
        truthy_path (Some path) = Some path)
  /\ (forall g, fst (fst (playback_iteration vs g)) = vs)
  /\ (forall up io disk1 e,
        os_makedirs_uploads io disk = Returned disk1 ->
        file_save io (up_content up) (os_path_join "uploads" (up_filename up)) disk1
        = Escaped e ->
        video_reachable disk1 (snd (fst (upload_video (Some up) io disk vs)))
        /\ video_detector (snd (fst (upload_video (Some up) io disk vs)))
           = video_detector vs
        /\ current_video_path (snd (fst (upload_video (Some up) io disk vs)))
           = Some (os_path_join "uploads" (up_filename up))).
Proof.
  intros Hreach. destruct (video_reachable_ok disk vs Hreach) as (Hd & Hn & Hf & Hp).
  split; [exact Hd|]. split; [exact Hn|]. split; [exact Hf|]. split; [|split].
  - intros path Hpath. apply truthy_path_some.
    destruct (String.eqb_spec path ""); [|reflexivity].
    exfalso. apply (Hp path Hpath). assumption.
  - intros g. apply playback_iteration_job.
  - intros up io disk1 e Hm Hs. split.
    + pose proof (vreach_upload disk vs (Some up) io Hreach) as Hnext.
      replace (fst (fst (upload_video (Some up) io disk vs))) with disk1 in Hnext;
        [exact Hnext|].
      unfold upload_video. rewrite Hm, Hs. reflexivity.
    + rewrite upload_video_job, Hm, Hs. split; reflexivity.
Qed.

Lemma sample_stored :
  stored SampleVideo.storage {| up_filename := "door.mp4"; up_content := Video SampleVideo.clip |}
         [] SampleJob.disk.
Proof. eexists. split; reflexivity. Qed.

Lemma sample_job_reachable :
  video_reachable (ext := Sample.ext) (px := SampleVideo.px) SampleJob.disk SampleJob.calibrated.
Proof.
  unfold SampleJob.calibrated, SampleJob.with_roi.
  apply vreach_calibrate, vreach_set_roi.
  exact (vreach_upload [] initial_video SampleVideo.request SampleVideo.storage vreach_initial).
Qed.

Lemma video_job_invariant_witness :
  video_reachable (ext := Sample.ext) (px := SampleVideo.px) SampleJob.disk SampleJob.calibrated
  /\ video_detector SampleJob.calibrated = Some Sample.calibrated
  /\ history Sample.calibrated = []
  /\ threshold_percentage Sample.calibrated = Float64.of_int 5.
Proof.
  split; [exact sample_job_reachable|]. split; [reflexivity|].
  destruct (proj1 (video_job_invariant (ext := Sample.ext) (px := SampleVideo.px)
                     SampleJob.disk SampleJob.calibrated sample_job_reachable)
              Sample.calibrated eq_refl) as (Hh & Ht & _).
  split; [exact Hh | exact Ht].
Defined.

Lemma py_int_finite x : is_finite x = true -> exists z, py_int x = Returned z.
Proof. destruct x; try discriminate; intros _; cbn; eauto. Qed.

Lemma unreadable_capture disk path c :
  disk_lookup disk path = Some (File c) -> unreadable c ->
  fst (cap_read (fc_cap (VideoCapture_path disk path))) = None
  /\ exists n, py_int (fc_frame_count (VideoCapture_path disk path)) = Returned n.
Proof.
  intros Hl Hu. unfold VideoCapture_path. rewrite Hl. destruct c as [|v].
  - split; [reflexivity | exists 0; reflexivity].
  - destruct Hu as [Hf Hc]. cbn. unfold cap_read. cbn. rewrite Hf.
    split; [reflexivity | apply py_int_finite; exact Hc].
Qed.

(** X13. An upload that is stored but cannot be read still replaces the job:
    when [os.makedirs] and [save] return, the answer is "Could not read
    video", but the file is saved, the path points to it and the detector is
    a new one, so the ROI and the reference of the previous job are gone;
    [set_video_roi] then succeeds, [calibrate_video] answers "Could not read
    video" and the playback generator yields nothing. *)
Theorem unreadable_upload_replaces_job {ext : Extern} {px : PlaybackExtern}
    (up : Upload) (io : Storage) (disk disk' : Disk) (vs : VideoJob) (x y w h : Z) :
  stored io up disk disk' ->
  unreadable (up_content up) ->
  let path := os_path_join "uploads" (up_filename up) in
  let vs' := {| video_detector := Some SimpleDoorDetector_init;
                current_video_path := Some path;
                video_filename := Some (up_filename up) |} in
  upload_video (Some up) io disk vs
  = (disk', vs', Returned (V_message false "Could not read video"))
  /\ disk_lookup disk' path = Some (File (up_content up))
  /\ set_video_roi x y w h vs'
     = (with_video_detector vs' (set_door_frame SimpleDoorDetector_init (x, y, w, h)),
        V_success true)
  /\ calibrate_video disk' (fst (set_video_roi x y w h vs'))
     = (fst (set_video_roi x y w h vs'),
        Returned (V_message false "Could not read video"))
  /\ generate_video_playback disk' vs' = (vs', [], Some Exhausted).
Proof.
  intros Hst Hu path vs'.
  assert (Hlook := stored_lookup io up disk disk' Hst). fold path in Hlook.
  destruct (unreadable_capture disk' path _ Hlook Hu) as [Hread [n Hn]].
  assert (Htruthy : truthy_path (Some path) = Some path)
    by (apply truthy_path_some, upload_path_nonempty).
  split; [|split; [exact Hlook|split; [reflexivity|split]]].
  - destruct Hst as (disk1 & Hm & Hs). unfold upload_video. rewrite Hm, Hs. fold path.
    rewrite Hn, Hread. reflexivity.
  - unfold set_video_roi, calibrate_video.
    cbn [vs' video_detector fst with_video_detector current_video_path].
    rewrite Htruthy.
    destruct (cap_read (fc_cap (VideoCapture_path disk' path))) as [frame cap] eqn:Er.
    cbn [fst] in Hread. subst frame. reflexivity.
  - unfold generate_video_playback, playback_open. cbn [vs' current_video_path].
    rewrite Htruthy. unfold os_path_exists. rewrite Hlook.
    cbn [pb_cap length]. unfold playback_loop, playback_iteration. cbn [pb_cap].
    destruct (cap_read (fc_cap (VideoCapture_path disk' path))) as [frame cap] eqn:Er.
    cbn [fst] in Hread. subst frame. reflexivity.
Qed.

Lemma unreadable_upload_replaces_job_witness :
  unreadable NotAVideo
  /\ snd (upload_video (ext := Sample.ext) SampleVideo.broken_request SampleVideo.storage
            SampleJob.disk SampleJob.calibrated)
     = Returned (V_message false "Could not read video")
  /\ video_detector (snd (fst (upload_video (ext := Sample.ext) SampleVideo.broken_request
                                 SampleVideo.storage SampleJob.disk SampleJob.calibrated)))
     = Some SimpleDoorDetector_init.
Proof.
  split; [exact I|].
  assert (Hst : stored SampleVideo.storage
                  {| up_filename := "notes.txt"; up_content := NotAVideo |}
                  SampleJob.disk
                  (("uploads/notes.txt"%string, File NotAVideo) :: SampleJob.disk))
    by (eexists; split; reflexivity).
  destruct (unreadable_upload_replaces_job (ext := Sample.ext) (px := SampleVideo.px)
              {| up_filename := "notes.txt"; up_content := NotAVideo |}
              SampleVideo.storage SampleJob.disk _ SampleJob.calibrated 0 0 1 1 Hst I)
    as (Hout & _).
  unfold SampleVideo.broken_request. rewrite Hout. split; reflexivity.
Defined.

(** X18. An upload whose [save] raises leaves a job that is half replaced:
    the exception escapes the route, the path and the file name are those of
    the failed upload, and the detector is the one that was there, with its
    ROI and reference, or none.  With an empty file name [save] always
    raises, the path being the upload folder itself; [calibrate_video] on
    what is left never calibrates and the playback generator yields
    nothing. *)
Theorem failed_save_keeps_detector {ext : Extern} {px : PlaybackExtern}
    (up : Upload) (io : Storage) (disk : Disk) (vs : VideoJob) :
  makedirs_error io = None ->
  let path := os_path_join "uploads" (up_filename up) in
  let after := snd (fst (upload_video (Some up) io disk vs)) in
  let disk' := fst (fst (upload_video (Some up) io disk vs)) in
  (forall disk1 e,
     os_makedirs_uploads io disk = Returned disk1 ->
     file_save io (up_content up) path disk1 = Escaped e ->
     upload_video (Some up) io disk vs
     = (disk1,
        {| video_detector := video_detector vs;
           current_video_path := Some path;
           video_filename := Some (up_filename up) |},
        Escaped e))
  /\ (up_filename up = EmptyString ->
      snd (upload_video (Some up) io disk vs) = Escaped IsADirectoryError
      /\ video_detector after = video_detector vs
      /\ current_video_path after = Some uploads_dir
      /\ disk_lookup disk' uploads_dir = Some Directory
      /\ (exists msg, snd (calibrate_video disk' after) = Returned (V_message false msg))
      /\ fst (calibrate_video disk' after) = after
      /\ generate_video_playback disk' after = (after, [], Some Exhausted)).
Proof.
  intros Hmk path after disk'. split.
  - intros disk1 e Hm Hs. unfold upload_video. rewrite Hm. fold path. rewrite Hs. reflexivity.
  - intros Hname.
    assert (Hpath : path = uploads_dir) by (unfold path; rewrite Hname; reflexivity).
    assert (Hm : exists disk1, os_makedirs_uploads io disk = Returned disk1
                               /\ disk_lookup disk1 uploads_dir = Some Directory).
    { unfold os_makedirs_uploads. rewrite Hmk.
      destruct (disk_lookup disk uploads_dir) as [[|c]|] eqn:El; eexists; split;
        first [reflexivity | exact El | apply disk_lookup_head]. }
    destruct Hm as (disk1 & Hm & Hdir).
    assert (Hs : file_save io (up_content up) path disk1 = Escaped IsADirectoryError)
      by (unfold file_save; rewrite Hpath, Hdir; reflexivity).
    assert (Hup : upload_video (Some up) io disk vs
                  = (disk1,
                     {| video_detector := video_detector vs;
                        current_video_path := Some uploads_dir;
                        video_filename := Some (up_filename up) |},
                     Escaped IsADirectoryError)).
    { unfold upload_video. rewrite Hm. fold path. rewrite Hs, Hpath. reflexivity. }
    unfold after, disk'. rewrite Hup. cbn [fst snd video_detector current_video_path].
    split; [reflexivity|]. split; [reflexivity|]. split; [reflexivity|].
    split; [exact Hdir|].
    assert (Hread : fst (cap_read (fc_cap (VideoCapture_path disk1 uploads_dir))) = None)
      by (unfold VideoCapture_path; rewrite Hdir; reflexivity).
    assert (Htruthy : truthy_path (Some uploads_dir) = Some uploads_dir) by reflexivity.
    split; [|split].
    + unfold calibrate_video. cbn [video_detector current_video_path]. rewrite Htruthy.
      destruct (video_detector vs) as [d|]; [|eexists; reflexivity].
      destruct (cap_read (fc_cap (VideoCapture_path disk1 uploads_dir))) as [frame cap].
      cbn [fst] in Hread. subst frame. eexists. reflexivity.
    + unfold calibrate_video. cbn [video_detector current_video_path]. rewrite Htruthy.
      destruct (video_detector vs) as [d|]; [|reflexivity].
      destruct (cap_read (fc_cap (VideoCapture_path disk1 uploads_dir))) as [frame cap].
      cbn [fst] in Hread. subst frame. reflexivity.
    + unfold generate_video_playback, playback_open. cbn [current_video_path].
      rewrite Htruthy. unfold os_path_exists. rewrite Hdir.
      cbn [pb_cap length]. unfold playback_loop, playback_iteration. cbn [pb_cap].
      destruct (cap_read (fc_cap (VideoCapture_path disk1 uploads_dir))) as [frame cap].
      cbn [fst] in Hread. subst frame. reflexivity.
Qed.

Lemma failed_save_keeps_detector_witness :
  snd (upload_video (ext := Sample.ext) SampleVideo.empty_request SampleVideo.storage
         SampleJob.disk SampleJob.calibrated)
  = Escaped IsADirectoryError
  /\ video_detector (snd (fst (upload_video (ext := Sample.ext) SampleVideo.empty_request
                                 SampleVideo.storage SampleJob.disk SampleJob.calibrated)))
     = Some Sample.calibrated
  /\ snd (upload_video (ext := Sample.ext) SampleVideo.empty_request SampleVideo.storage
            [] initial_video)
     = Escaped IsADirectoryError
  /\ video_detector (snd (fst (upload_video (ext := Sample.ext) SampleVideo.empty_request
                                 SampleVideo.storage [] initial_video)))
     = None
  /\ current_video_path (snd (fst (upload_video (ext := Sample.ext) SampleVideo.empty_request
                                     SampleVideo.storage [] initial_video)))
     = Some "uploads/"%string.
Proof.
  destruct (proj2 (failed_save_keeps_detector (ext := Sample.ext) (px := SampleVideo.px)
                     {| up_filename := ""; up_content := NotAVideo |}
                     SampleVideo.storage SampleJob.disk SampleJob.calibrated eq_refl)
              eq_refl) as (H1 & H2 & _).
  destruct (proj2 (failed_save_keeps_detector (ext := Sample.ext) (px := SampleVideo.px)
                     {| up_filename := ""; up_content := NotAVideo |}
                     SampleVideo.storage [] initial_video eq_refl)
              eq_refl) as (H3 & H4 & H5 & _).
  split; [exact H1|]. split; [exact H2|]. split; [exact H3|]. split; [exact H4 | exact H5].
Defined.

Lemma calibrate_video_eq {ext : Extern} disk vs :
  calibrate_video disk vs
  = match video_detector vs, truthy_path (current_video_path vs) with
    | Some d, Some path =>
        match fst (cap_read (fc_cap (VideoCapture_path disk path))) with
        | None => (vs, Returned (V_message false "Could not read video"))
        | Some frame =>
            match calibrate_closed d frame with
            | Ok (d, success) => (with_video_detector vs d, Returned (V_success success))
            | Raise e => (vs, Escaped (CvError e))
            end
        end
    | _, _ => (vs, Returned (V_message false "Not ready"))
    end.
Proof.
  unfold calibrate_video.
  destruct (video_detector vs); [|reflexivity].
  destruct (truthy_path (current_video_path vs)); [|reflexivity].
  destruct (cap_read _) as [frame cap]. reflexivity.
Qed.




(** ** Playback *)

Lemma time_str_ok {px : PlaybackExtern} (plaws : PlaybackLaws px) c fps :
  (Float64.gt fps (Float64.of_int 0) = true ->
   is_finite (Float64.div (Float64.of_int c) fps) = true) ->
  exists ts, time_str c fps = Returned ts.
Proof.
  intros Hfin. unfold time_str.
  destruct (Float64.gt fps (Float64.of_int 0)); [|eauto].
  specialize (Hfin eq_refl).
  destruct (py_int_finite _ (floordiv_60_finite _ Hfin)) as [m ->].
  destruct (py_int_finite _ (mod_60_finite _ Hfin)) as [s ->].
  eauto.
Qed.

Lemma classifiable_detect {ext : Extern} (laws : ExternLaws ext) d frame :
  classifiable d frame ->
  exists st proc p, detect_door_status d frame = Ok (d, (st, proc, p)).
Proof.
  intros [Hu|(roi & reference & Hroi & Href & Hdims & Hpos)].
  - rewrite (detect_uncalibrated d frame Hu). eauto.
  - destruct (calibrated_detect_ok laws d roi reference frame Hroi Href Hdims Hpos)
      as (st & proc & p & H & _).
    eauto.
Qed.

Lemma draw_video_roi_ok {ext : Extern} d frame :
  (forall roi, door_roi d = Some roi -> roi_drawable roi) ->
  exists display_frame, draw_video_roi d frame = Ok display_frame.
Proof.
  intros Hdraw. unfold draw_video_roi, cv2_rectangle.
  destruct (door_roi d) as [[[[x y] w] h]|]; [|eauto].
  destruct (Hdraw _ eq_refl) as [H1 H2]. rewrite H1, H2. cbn [andb]. eauto.
Qed.

Lemma draw_video_roi_raises {ext : Extern} d frame x y w h :
  door_roi d = Some (x, y, w, h) ->
  point_fits (x, y) && point_fits (x + w, y + h) = false ->
  exists msg, draw_video_roi d frame = Raise (cv2_error msg).
Proof.
  intros Hroi Hfit. unfold draw_video_roi, cv2_rectangle. rewrite Hroi, Hfit. eauto.
Qed.

Lemma playback_iteration_yields {ext : Extern} {px : PlaybackExtern}
    (laws : ExternLaws ext) (plaws : PlaybackLaws px) vs g frame rest :
  cap_opened (pb_cap g) = true ->
  cap_frames (pb_cap g) = frame :: rest ->
  (forall d roi, video_detector vs = Some d -> door_roi d = Some roi -> roi_drawable roi) ->
  (forall d, video_detector vs = Some d -> classifiable d frame) ->
  (Float64.gt (pb_fps g) (Float64.of_int 0) = true ->
   is_finite (Float64.div (Float64.of_int (pb_frame_count g)) (pb_fps g)) = true) ->
  exists chunk,
    playback_iteration vs g
    = (vs,
       {| pb_cap := {| cap_opened := true; cap_props := cap_props (pb_cap g);
                       cap_frames := rest |};
          pb_fps := pb_fps g;
          pb_frame_count := pb_frame_count g + 1 |},
       PYield chunk).
Proof.
  intros Hopen Hframes Hdraw Hcls Hfin. unfold playback_iteration, cap_read.
  rewrite Hopen, Hframes.
  destruct (video_detector vs) as [d|] eqn:Ed; [|eauto].
  destruct (draw_video_roi_ok d frame (fun roi => Hdraw d roi eq_refl)) as [display_frame ->].
  destruct (classifiable_detect laws d frame (Hcls d eq_refl)) as (st & proc & p & ->).
  rewrite (with_video_detector_same vs d Ed).
  destruct (time_str_ok plaws _ _ Hfin) as [ts ->].
  destruct (shape _). eauto.
Qed.

Lemma playback_iteration_stops {ext : Extern} {px : PlaybackExtern} vs g :
  cap_frames (pb_cap g) = [] ->
  exists g', playback_iteration vs g = (vs, g', PStop).
Proof.
  intros Hframes. unfold playback_iteration, cap_read. rewrite Hframes.
  destruct (cap_opened (pb_cap g)); eauto.
Qed.

Lemma playback_loop_plays {ext : Extern} {px : PlaybackExtern}
    (laws : ExternLaws ext) (plaws : PlaybackLaws px) vs frames :
  (forall d roi, video_detector vs = Some d -> door_roi d = Some roi -> roi_drawable roi) ->
  (forall d, video_detector vs = Some d -> Forall (classifiable d) frames) ->
  forall g,
    cap_opened (pb_cap g) = true ->
    cap_frames (pb_cap g) = frames ->
    (forall k, pb_frame_count g <= k < pb_frame_count g + Z.of_nat (length frames) ->
       Float64.gt (pb_fps g) (Float64.of_int 0) = true ->
       is_finite (Float64.div (Float64.of_int k) (pb_fps g)) = true) ->
    exists g' chunks,
      playback_loop (S (length frames)) vs g = (vs, g', chunks, Some Exhausted)
      /\ length chunks = length frames.
Proof.
  intros Hdraw. induction frames as [|frame rest IH]; intros Hcls g Hopen Hframes Hfin.
  - destruct (playback_iteration_stops vs g Hframes) as [g' Hit].
    exists g', []. cbn [playback_loop length]. rewrite Hit. split; reflexivity.
  - assert (Hfirst : forall d, video_detector vs = Some d -> classifiable d frame).
    { intros d Hd. specialize (Hcls d Hd). inversion Hcls; assumption. }
    assert (Hrest : forall d, video_detector vs = Some d -> Forall (classifiable d) rest).
    { intros d Hd. specialize (Hcls d Hd). inversion Hcls; assumption. }
    destruct (playback_iteration_yields laws plaws vs g frame rest Hopen Hframes Hdraw Hfirst)
      as [chunk Hit].
    { apply Hfin. cbn [length]. lia. }
    set (g1 := {| pb_cap := {| cap_opened := true; cap_props := cap_props (pb_cap g);
                               cap_frames := rest |};
                  pb_fps := pb_fps g;
                  pb_frame_count := pb_frame_count g + 1 |}) in *.
    destruct (IH Hrest g1 eq_refl eq_refl) as (g' & chunks & Hloop & Hlen).
    { cbn [g1 pb_frame_count pb_fps]. intros k Hk. apply Hfin. cbn [length]. lia. }
    exists g', (chunk :: chunks).
    change (playback_loop (S (length (frame :: rest))) vs g)
      with (match playback_iteration vs g with
            | (vs', g2, PYield chunk) =>
                let '(vs'', g'', chunks, e) := playback_loop (S (length rest)) vs' g2 in
                (vs'', g'', chunk :: chunks, e)
            | (vs', g2, PStop) => (vs', g2, [], Some Exhausted)
            | (vs', g2, PRaised e) => (vs', g2, [], Some (Failed e))
            end).
    rewrite Hit, Hloop. split; [reflexivity | cbn [length]; congruence].
Qed.

(** X15. Playback of a saved video delivers every frame: when the corners of
    the door frame fit a C [int], so that [cv2.rectangle] draws it, the
    elapsed times are finite floats and every frame is one the detector
    returns for (it is not calibrated, or the door area of the frame has the
    size of the reference), the generator yields exactly one chunk per frame
    and then ends normally, and the job is as before.  With a corner that
    does not fit, the first resumption raises instead and no chunk is
    yielded. *)
Theorem playback_delivers_every_frame {ext : Extern} {px : PlaybackExtern}
    (laws : ExternLaws ext) (plaws : PlaybackLaws px)
    (disk : Disk) (vs : VideoJob) (path : string) (v : VideoFile) :
  current_video_path vs = Some path ->
  path <> EmptyString ->
  disk_lookup disk path = Some (File (Video v)) ->
  ((forall d roi, video_detector vs = Some d -> door_roi d = Some roi -> roi_drawable roi) ->
   timestamps_finite (vf_fps v) (length (vf_frames v)) ->
   (forall d, video_detector vs = Some d -> Forall (classifiable d) (vf_frames v)) ->
   exists chunks,
     generate_video_playback disk vs = (vs, chunks, Some Exhausted)
     /\ length chunks = length (vf_frames v))
  /\ (forall d x y w h,
        video_detector vs = Some d ->
        door_roi d = Some (x, y, w, h) ->
        point_fits (x, y) && point_fits (x + w, y + h) = false ->
        vf_frames v <> [] ->
        exists msg,
          generate_video_playback disk vs = (vs, [], Some (Failed (CvError (cv2_error msg))))).
Proof.
  intros Hpath Hne Hlook. split; [intros Hdraw Hfin Hcls | intros d x y w h Hd Hroi Hfit Hframes].
  2:{ unfold generate_video_playback, playback_open. rewrite Hpath.
      rewrite truthy_path_some by (apply String.eqb_neq; exact Hne).
      unfold os_path_exists, VideoCapture_path. rewrite Hlook.
      cbn [fc_cap fc_fps pb_cap VideoCapture_init cap_frames dev_frames length].
      destruct (vf_frames v) as [|frame rest] eqn:Ef; [contradiction|].
      destruct (draw_video_roi_raises d frame x y w h Hroi Hfit) as [msg Hraise].
      exists msg. cbn [playback_loop length].
      unfold playback_iteration, cap_read.
      cbn [pb_cap VideoCapture_init cap_opened cap_frames dev_available dev_frames].
      rewrite Hd, Hraise. reflexivity. }
  unfold generate_video_playback, playback_open. rewrite Hpath.
  rewrite truthy_path_some by (apply String.eqb_neq; exact Hne).
  unfold os_path_exists, VideoCapture_path. rewrite Hlook.
  cbn [fc_cap fc_fps pb_cap VideoCapture_init cap_frames dev_frames].
  set (g := {| pb_cap := _; pb_fps := vf_fps v; pb_frame_count := 0 |}).
  destruct (playback_loop_plays laws plaws vs (vf_frames v) Hdraw Hcls g eq_refl eq_refl)
    as (g' & chunks & Hloop & Hlen).
  { intros k Hk. apply Hfin. exact Hk. }
  rewrite Hloop. exists chunks. split; [reflexivity | exact Hlen].
Qed.

Lemma sample_playback_laws : PlaybackLaws SampleVideo.px.
Proof. split; intros x H; [reflexivity | exact H]. Qed.

Lemma sample_timestamps_finite :
  timestamps_finite (vf_fps SampleVideo.clip) (length (vf_frames SampleVideo.clip)).
Proof.
  intros k Hk _. cbn in Hk.
  assert (Hcases : k = 0 \/ k = 1 \/ k = 2) by lia.
  destruct Hcases as [->|[->| ->]]; reflexivity.
Qed.

Lemma sample_frames_classifiable :
  forall d, video_detector SampleJob.calibrated = Some d ->
    Forall (classifiable d) (vf_frames SampleVideo.clip).
Proof.
  intros d Hd.
  assert (Hframe : forall frame, dims frame = dims Sample.dark ->
            classifiable Sample.calibrated frame).
  { intros frame Hdf. right. exists (1, 1, 2, 2), [[10; 10]; [10; 10]].
    pose proof (door_area_dims_same frame Sample.dark (1, 1, 2, 2) Hdf) as Harea.
    split; [reflexivity|]. split; [reflexivity|]. split.
    - rewrite Harea. reflexivity.
    - rewrite size_dims, Harea. apply Nat.ltb_lt. reflexivity. }
  assert (Hjob : video_detector SampleJob.calibrated = Some Sample.calibrated)
    by reflexivity.
  rewrite Hjob in Hd. injection Hd as <-.
  repeat apply Forall_cons; try apply Forall_nil; apply Hframe; reflexivity.
Qed.

Lemma sample_roi_drawable :
  forall d roi, video_detector SampleJob.calibrated = Some d ->
    door_roi d = Some roi -> roi_drawable roi.
Proof.
  intros d roi Hd Hroi.
  assert (Hjob : video_detector SampleJob.calibrated = Some Sample.calibrated)
    by reflexivity.
  rewrite Hjob in Hd. injection Hd as <-.
  assert (Hr : door_roi Sample.calibrated = Some (1, 1, 2, 2)) by reflexivity.
  rewrite Hr in Hroi. injection Hroi as <-. split; reflexivity.
Qed.

Lemma playback_delivers_every_frame_witness :
  exists chunks,
    generate_video_playback (ext := Sample.ext) (px := SampleVideo.px)
      SampleJob.disk SampleJob.calibrated
    = (SampleJob.calibrated, chunks, Some Exhausted)
    /\ length chunks = 3%nat.
Proof.
  apply (playback_delivers_every_frame sample_laws sample_playback_laws
           SampleJob.disk SampleJob.calibrated "uploads/door.mp4" SampleVideo.clip).
  - reflexivity.
  - discriminate.
  - reflexivity.
  - exact sample_roi_drawable.
  - exact sample_timestamps_finite.
  - exact sample_frames_classifiable.
Defined.

Lemma Forall_same_dims_classifiable d roi reference (first : ndarray bgr) frames :
  door_roi d = Some roi ->
  reference_closed d = Some reference ->
  dims reference = dims (door_area first roi) ->
  (0 < size (door_area first roi))%nat ->
  Forall (fun frame => dims frame = dims first) frames ->
  Forall (classifiable d) frames.
Proof.
  intros Hroi Href Hdims Hpos Hall.
  induction Hall as [|frame frames Hframe _ IH]; constructor; [|exact IH].
  right. exists roi, reference.
  pose proof (door_area_dims_same frame first roi Hframe) as Harea.
  split; [exact Hroi|]. split; [exact Href|]. split; [congruence|].
  rewrite size_dims, Harea, <- size_dims. exact Hpos.
Qed.

(** X16. An uploaded video whose frames all have the size of the first plays
    through once calibrated: when the upload is stored, the door area set by
    [set_video_roi] has at least one pixel of the first frame and its
    corners fit a C [int], [calibrate_video] answers success and the
    playback generator then yields one chunk per frame and ends normally; no
    frame makes the comparison with the reference raise. *)
Theorem calibrated_upload_plays_through {ext : Extern} {px : PlaybackExtern}
    (laws : ExternLaws ext) (plaws : PlaybackLaws px)
    (up : Upload) (io : Storage) (v : VideoFile)
    (first : ndarray bgr) (rest : list (ndarray bgr))
    (disk disk' : Disk) (vs : VideoJob) (x y w h : Z) :
  stored io up disk disk' ->
  up_content up = Video v ->
  vf_frames v = first :: rest ->
  Forall (fun frame => dims frame = dims first) rest ->
  (0 < size (door_area first (x, y, w, h)))%nat ->
  roi_drawable (x, y, w, h) ->
  timestamps_finite (vf_fps v) (length (vf_frames v)) ->
  let uploaded := snd (fst (upload_video (Some up) io disk vs)) in
  let with_roi := fst (set_video_roi x y w h uploaded) in
  let job := fst (calibrate_video disk' with_roi) in
  fst (fst (upload_video (Some up) io disk vs)) = disk'
  /\ snd (calibrate_video disk' with_roi) = Returned (V_success true)
  /\ exists chunks,
       generate_video_playback disk' job = (job, chunks, Some Exhausted)
       /\ length chunks = S (length rest).
Proof.
  intros Hst Hcontent Hframes Hsame Hpos Hdrawable Hfin uploaded with_roi job.
  set (path := os_path_join "uploads" (up_filename up)).
  set (roi := (x, y, w, h)) in *.
  set (reference := GaussianBlur_15x15 (cvtColor_BGR2GRAY (door_area first roi))).
  set (d := with_reference_closed (set_door_frame SimpleDoorDetector_init roi)
                                  (Some reference)).
  assert (Hstate := upload_video_state up io disk disk' vs Hst). fold path in Hstate.
  assert (Hlook : disk_lookup disk' path = Some (File (Video v)))
    by (rewrite <- Hcontent; apply (stored_lookup io up disk disk' Hst)).
  assert (Hroi : with_roi
                 = {| video_detector := Some (set_door_frame SimpleDoorDetector_init roi);
                      current_video_path := Some path;
                      video_filename := Some (up_filename up) |})
    by (unfold with_roi, uploaded; rewrite Hstate; reflexivity).
  assert (Hsmooth := smooth_succeeds (door_area first roi) Hpos). fold reference in Hsmooth.
  assert (Hcal : calibrate_video disk' with_roi
                 = ({| video_detector := Some d;
                       current_video_path := Some path;
                       video_filename := Some (up_filename up) |},
                    Returned (V_success true))).
  { rewrite calibrate_video_eq, Hroi. cbn [video_detector current_video_path].
    rewrite truthy_path_some by apply upload_path_nonempty.
    unfold VideoCapture_path. rewrite Hlook. unfold cap_read.
    cbn [fc_cap VideoCapture_init cap_opened cap_frames dev_available dev_frames].
    rewrite Hframes. cbn [fst]. unfold calibrate_closed.
    cbn [set_door_frame with_door_roi door_roi]. rewrite Hsmooth. reflexivity. }
  split; [rewrite Hstate; reflexivity|].
  split; [rewrite Hcal; reflexivity|].
  assert (Hjob : job = {| video_detector := Some d;
                          current_video_path := Some path;
                          video_filename := Some (up_filename up) |})
    by (unfold job; rewrite Hcal; reflexivity).
  destruct (smooth_ok laws _ _ Hsmooth) as [Hdims _].
  assert (Hcls : forall d0, video_detector job = Some d0 ->
                   Forall (classifiable d0) (vf_frames v)).
  { rewrite Hjob. intros d0 [= <-]. rewrite Hframes.
    apply (Forall_same_dims_classifiable d roi reference first);
      [reflexivity | reflexivity | exact Hdims | exact Hpos |].
    constructor; [reflexivity | exact Hsame]. }
  assert (Hdraw : forall d0 roi0, video_detector job = Some d0 ->
                    door_roi d0 = Some roi0 -> roi_drawable roi0).
  { rewrite Hjob. intros d0 roi0 [= <-] [= <-]. exact Hdrawable. }
  unfold generate_video_playback, playback_open.
  replace (current_video_path job) with (Some path) by (rewrite Hjob; reflexivity).
  rewrite truthy_path_some by apply upload_path_nonempty.
  unfold os_path_exists, VideoCapture_path. rewrite Hlook.
  cbn [fc_cap fc_fps pb_cap VideoCapture_init cap_frames dev_frames].
  set (g := {| pb_cap := _; pb_fps := vf_fps v; pb_frame_count := 0 |}).
  destruct (playback_loop_plays laws plaws job (vf_frames v) Hdraw Hcls g eq_refl eq_refl)
    as (g' & chunks & Hloop & Hlen).
  { intros k Hk. apply Hfin. exact Hk. }
  rewrite Hloop. exists chunks. split; [reflexivity|].
  rewrite Hlen, Hframes. reflexivity.
Qed.

Lemma calibrated_upload_plays_through_witness :
  fst (fst (upload_video (ext := Sample.ext) SampleVideo.request SampleVideo.storage
              [] initial_video))
  = SampleJob.disk
  /\ snd (calibrate_video (ext := Sample.ext) SampleJob.disk SampleJob.with_roi)
     = Returned (V_success true)
  /\ exists chunks,
       generate_video_playback (ext := Sample.ext) (px := SampleVideo.px)
         SampleJob.disk SampleJob.calibrated
       = (SampleJob.calibrated, chunks, Some Exhausted)
       /\ length chunks = 3%nat.
Proof.
  apply (calibrated_upload_plays_through (ext := Sample.ext) (px := SampleVideo.px)
           sample_laws sample_playback_laws
           {| up_filename := "door.mp4"; up_content := Video SampleVideo.clip |}
           SampleVideo.storage SampleVideo.clip Sample.dark [Sample.dark; Sample.bright]
           [] SampleJob.disk initial_video 1 1 2 2).
  - exact sample_stored.
  - reflexivity.
  - reflexivity.
  - repeat constructor.
  - apply Nat.ltb_lt. reflexivity.
  - split; reflexivity.
  - exact sample_timestamps_finite.
Defined.

(** ** The camera shared by the live routes *)

Lemma cap_read_frames_left cam :
  (if cap_opened (snd (cap_read cam)) then length (cap_frames (snd (cap_read cam))) else O)
  = Nat.pred (if cap_opened cam then length (cap_frames cam) else O).
Proof.
  unfold cap_read. destruct (cap_opened cam) eqn:Eo.
  - destruct (cap_frames cam) as [|f rest] eqn:Ef; cbn; [rewrite Eo, Ef|]; reflexivity.
  - cbn. rewrite Eo. reflexivity.
Qed.

Lemma cap_read_some cam :
  (exists f, fst (cap_read cam) = Some f)
  <-> (0 < (if cap_opened cam then length (cap_frames cam) else O))%nat.
Proof.
  unfold cap_read. destruct (cap_opened cam).
  - destruct (cap_frames cam) as [|f rest]; cbn; split.
    + intros [f [=]].
    + lia.
    + lia.
    + eauto.
  - cbn. split; [intros [f [=]] | lia].
Qed.

(** X17. The live routes read the one camera of the session: a [get_frame]
    request takes a frame off it whenever one is left, and so does a
    [calibrate] request when there is a detector, so the stream never shows
    that frame; [set_roi] and [adjust_sensitivity] take none.  [get_frame]
    answers success exactly when a frame was left, whether or not the
    session is active. *)
Theorem requests_consume_stream_frames {ext : Extern} (s : Session) :
  frames_left (fst (get_frame s)) = Nat.pred (frames_left s)
  /\ (success_of (snd (get_frame s)) = true <-> (0 < frames_left s)%nat)
  /\ frames_left (fst (calibrate s))
     = match live_detector s with
       | Some _ => Nat.pred (frames_left s)
       | None => frames_left s
       end
  /\ (forall x y w h, frames_left (fst (set_roi x y w h s)) = frames_left s)
  /\ (forall action, frames_left (fst (adjust_sensitivity action s)) = frames_left s).
Proof.
  unfold frames_left. split; [|split; [|split; [|split]]].
  - unfold get_frame. destruct (live_camera s) as [cam|] eqn:Ec; [|cbn; rewrite Ec; reflexivity].
    pose proof (cap_read_frames_left cam) as H.
    destruct (cap_read cam) as [[frame|] cam']; exact H.
  - unfold get_frame. destruct (live_camera s) as [cam|]; [|cbn; split; [discriminate | lia]].
    rewrite <- (cap_read_some cam).
    destruct (cap_read cam) as [[frame|] cam']; cbn; split; eauto; try discriminate.
    intros [f [=]].
  - unfold calibrate. destruct (live_detector s) as [d|]; [|reflexivity].
    destruct (live_camera s) as [cam|] eqn:Ec; [|cbn; rewrite Ec; reflexivity].
    pose proof (cap_read_frames_left cam) as H.
    destruct (cap_read cam) as [[frame|] cam']; [|exact H].
    destruct (calibrate_closed d frame) as [[d' ok]|e]; exact H.
  - intros x y w h. unfold set_roi. destruct (live_detector s); reflexivity.
  - intros action. unfold adjust_sensitivity. destruct (live_detector s); reflexivity.
Qed.

(** ** A door frame that cannot be drawn *)

Lemma draw_door_frame_raises {ext : Extern} d frame x y w h :
  door_roi d = Some (x, y, w, h) ->
  point_fits (x, y) && point_fits (x + w, y + h) && point_fits (x, y - 10) = false ->
  exists msg, draw_door_frame d frame = Raise (cv2_error msg).
Proof.
  intros Hroi Hfit. unfold draw_door_frame, cv2_rectangle, cv2_putText. rewrite Hroi.
  destruct (point_fits (x, y) && point_fits (x + w, y + h)); cbn [bind]; [|eauto].
  cbn [andb] in Hfit. rewrite Hfit. eauto.
Qed.

(** X19. [set_roi] takes any four integers.  When a corner of the door frame,
    or the place of its caption, does not fit a C [int], the request still
    answers success, and the next resumption of the live generator reads a
    frame and then raises in the drawing call: no chunk is yielded, nothing
    is logged, and the detector keeps the ROI. *)
Theorem undrawable_roi_ends_live_stream {ext : Extern}
    (s : Session) (d : SimpleDoorDetector) (cam : VideoCapture)
    (frame : ndarray bgr) (rest : list (ndarray bgr)) (x y w h : Z)
    (now : string) (clock : list string) :
  live_active s = true ->
  live_detector s = Some d ->
  live_camera s = Some cam ->
  cap_opened cam = true ->
  cap_frames cam = frame :: rest ->
  point_fits (x, y) && point_fits (x + w, y + h) && point_fits (x, y - 10) = false ->
  let s1 := fst (set_roi x y w h s) in
  snd (set_roi x y w h s) = R_success true
  /\ (exists msg, snd (live_iteration now s1) = Raised (cv2_error msg))
  /\ live_detector (fst (live_iteration now s1)) = Some (set_door_frame d (x, y, w, h))
  /\ history_of (fst (live_iteration now s1)) = history d
  /\ frames_left (fst (live_iteration now s1)) = length rest
  /\ snd (generate_live_frames (now :: clock) s1) = [].
Proof.
  intros Ha Hd Hcam Hopen Hframes Hfit s1.
  assert (Hs1 : s1 = {| live_detector := Some (set_door_frame d (x, y, w, h));
                        live_camera := Some cam;
                        live_active := true |})
    by (unfold s1, set_roi; rewrite Hd, Hcam, Ha; reflexivity).
  destruct (draw_door_frame_raises (set_door_frame d (x, y, w, h)) frame x y w h eq_refl Hfit)
    as [msg Hraise].
  assert (Hit : live_iteration now s1
                = ({| live_detector := Some (set_door_frame d (x, y, w, h));
                      live_camera := Some {| cap_opened := true;
                                             cap_props := cap_props cam;
                                             cap_frames := rest |};
                      live_active := true |},
                   Raised (cv2_error msg))).
  { rewrite Hs1. unfold live_iteration, cap_read. cbn [live_active negb live_camera live_detector].
    rewrite Hopen, Hframes, Hraise. reflexivity. }
  split; [unfold set_roi; rewrite Hd; reflexivity|].
  split; [exists msg; rewrite Hit; reflexivity|].
  rewrite Hit. cbn [fst]. split; [reflexivity|]. split; [reflexivity|].
  split; [reflexivity|].
  cbn [generate_live_frames]. rewrite Hit. reflexivity.
Qed.

Lemma undrawable_roi_ends_live_stream_witness :
  let s := fst (start_live Sample.camera initial_session) in
  snd (set_roi 0 0 (2 ^ 31) (2 ^ 31) s) = R_success true
  /\ (exists msg,
        snd (live_iteration (ext := Sample.ext) "09:00:01" (fst (set_roi 0 0 (2 ^ 31) (2 ^ 31) s)))
        = Raised (cv2_error msg))
  /\ snd (generate_live_frames (ext := Sample.ext) ["09:00:01"; "09:00:02"]%string
            (fst (set_roi 0 0 (2 ^ 31) (2 ^ 31) s)))
     = [].
Proof.
  destruct (undrawable_roi_ends_live_stream (ext := Sample.ext)
              (fst (start_live Sample.camera initial_session)) SimpleDoorDetector_init
              (cap_set (cap_set (VideoCapture_init Sample.camera) CAP_PROP_FRAME_WIDTH 640)
                       CAP_PROP_FRAME_HEIGHT 480)
              (hd Sample.dark (dev_frames Sample.camera)) (tl (dev_frames Sample.camera))
              0 0 (2 ^ 31) (2 ^ 31) "09:00:01" ["09:00:02"%string]
              eq_refl eq_refl eq_refl eq_refl eq_refl eq_refl)
    as (H1 & H2 & _ & _ & _ & H3).
  split; [exact H1|]. split; [exact H2 | exact H3].
Defined.
